(** * vr_sample_train: the serial command interpreter of the training sketch

    A shallow embedding of [examples/vr_sample_train/vr_sample_train.ino]:
    the line receiver ([receiveCMD]), the command buffer scanners
    ([checkCMD], [checkParaNum], [findPara]),
    the command-word comparison ([compareCMD]), the eight command handlers,
    the dispatch step of [loop] and the reply printers.

    Conventions of the embedding.
    - A byte ([uint8_t]) is a [Z] in [0, 255]; an assignment to a [uint8_t]
      object reduces modulo 256 ([uint8]).
    - [int] is the 16-bit [int] of the AVR boards the sketch targets. Indices
      and counters stay far below 2^15 on a 65-byte buffer, so they are
      plain [Z]; the one place where the source leaves that range (the
      pointer difference of [cmdSigTrain]) has its wrap-around written out.
    - A pointer into [cmd] is the offset from [cmd]'s first byte.
    - A loop whose trip count is not fixed in advance takes fuel and returns
      [None] when the fuel runs out; the totality lemmas show that the fuel
      the callers pass is enough. *)

From Stdlib Require Import ZArith List String Ascii Bool Lia.
Import ListNotations.
Open Scope Z_scope.

(** ** Bytes and memory *)

Definition uint8 (z : Z) : Z := z mod 256.
Definition uint16 (z : Z) : Z := z mod 65536.
Definition int16 (z : Z) : Z := (z + 32768) mod 65536 - 32768.

Definition TAB : Z := 9.
Definition LF : Z := 10.
Definition CR : Z := 13.
Definition SP : Z := 32.

Definition neqb (a b : Z) : bool := negb (a =? b).
Infix "!=?" := neqb (at level 70, no associativity).

(** [m[i]] and the memory that starts at [m + i]. *)
Definition byteAt (m : list Z) (i : Z) : Z := nth (Z.to_nat i) m 0.
Definition from (m : list Z) (i : Z) : list Z := skipn (Z.to_nat i) m.

(** [a[i] = v] on an array held as a list. *)
Fixpoint store (a : list Z) (i : nat) (v : Z) : list Z :=
  match a, i with
  | [], _ => []
  | _ :: t, O => v :: t
  | h :: t, S i' => h :: store t i' v
  end.

(** The bytes of a string literal. *)
Definition bytes (s : string) : list Z :=
  map (fun c => Z.of_nat (nat_of_ascii c)) (list_ascii_of_string s).

(** A command line as it is typed: the text followed by a newline. *)
Definition line (s : string) : list Z := bytes s ++ [LF].

Definition len_of (l : list Z) : Z := Z.of_nat (List.length l).

(** ** The command tables *)

Definition CMD_BUF_LEN : Z := 64 + 1.
Definition CMD_NUM : Z := 8.

(** [const char cmdList[CMD_NUM][10]]: each row is zero-padded to 10 bytes. *)
Definition row (s : string) : list Z :=
  bytes s ++ repeat 0 (10 - List.length (bytes s))%nat.

Definition cmdList : list (list Z) :=
  [ row "train"; row "load"; row "clear"; row "vr";
    row "record"; row "sigtrain"; row "getsig"; row "test" ].

Definition cmdLen : list Z := [5; 4; 5; 2; 6; 8; 6; 4].

(** ** compareCMD *)

(** The body of [for(i=0; i<len; i++)], with [n] iterations left. [res] is a
    [uint8_t], so both differences are taken modulo 256. *)
Fixpoint compareCMD_from (para1 para2 : list Z) (i : Z) (n : nat) : Z :=
  match n with
  | O => 0
  | S n' =>
      let res := uint8 (byteAt para2 i - byteAt para1 i) in
      if (res !=? 0) && (res !=? 32) then -1
      else
        let res := uint8 (byteAt para1 i - byteAt para2 i) in
        if (res !=? 0) && (res !=? 32) then -1
        else compareCMD_from para1 para2 (i + 1) n'
  end.

Definition compareCMD (para1 para2 : list Z) (len : Z) : Z :=
  compareCMD_from para1 para2 0 (Z.to_nat len).

(** ** checkCMD *)

Fixpoint checkCMD_from (cmd : list Z) (i : Z) (n : nat) : Z :=
  match n with
  | O => 0
  | S n' =>
      let c := byteAt cmd i in
      if (31 <? c) && (c <? 127) then checkCMD_from cmd (i + 1) n'
      else if (c =? TAB) || (c =? SP) || (c =? CR) || (c =? LF)
           then checkCMD_from cmd (i + 1) n'
           else -1
  end.

Definition checkCMD (cmd : list Z) (len : Z) : Z :=
  checkCMD_from cmd 0 (Z.to_nat len).

(** ** The two scanners *)

(** The condition of the inner [while] loops of both scanners:
    [c != '\t' && c != ' ' && c != '\r' && c != '\n']. *)
Definition inPara (c : Z) : bool :=
  (c !=? TAB) && (c !=? SP) && (c !=? CR) && (c !=? LF).

(** [while(inPara(cmd[i])){ i++; paraLen++; }] started at the head of [m]:
    the number of increments. The scan is cut at the end of the modelled
    memory; on a line that holds its newline it stops before that. *)
Fixpoint scanPara (m : list Z) : Z :=
  match m with
  | c :: m' => if inPara c then 1 + scanPara m' else 0
  | [] => 0
  end.

(** [checkParaNum]: the state of [for(i=0; i<len; )] is [(i, cnt)]. *)
Fixpoint checkParaNum_loop (fuel : nat) (cmd : list Z) (len i cnt : Z)
  : option Z :=
  match fuel with
  | O => None
  | S fuel' =>
      if i <? len then
        if inPara (byteAt cmd i)
        then checkParaNum_loop fuel' cmd len
               (i + scanPara (from cmd i) + 1) (cnt + 1)
        else checkParaNum_loop fuel' cmd len (i + 1) cnt
      else Some cnt
  end.

Definition checkParaNum (cmd : list Z) (len : Z) : option Z :=
  checkParaNum_loop (S (Z.to_nat len)) cmd len 0 0.

(** [findPara]: the outer test is [dt != '\t' && dt != ' '] only. The result
    is the returned length together with the value of [*addr] afterwards
    ([addr0] when the function did not write it). *)
Definition notBlank (dt : Z) : bool := (dt !=? TAB) && (dt !=? SP).

Fixpoint findPara_loop (fuel : nat) (cmd : list Z) (len paraIndex : Z)
  (addr0 : Z) (i cnt : Z) : option (Z * Z) :=
  match fuel with
  | O => None
  | S fuel' =>
      if i <? len then
        let dt := byteAt cmd i in
        if notBlank dt then
          let cnt := cnt + 1 in
          if paraIndex =? cnt
          then Some (scanPara (from cmd i), i)
          else findPara_loop fuel' cmd len paraIndex addr0
                 (i + scanPara (from cmd i)) cnt
        else findPara_loop fuel' cmd len paraIndex addr0 (i + 1) cnt
      else Some (-1, addr0)
  end.

Definition findPara_fuel (len paraIndex : Z) : nat :=
  S (Z.to_nat len + Z.to_nat paraIndex).

Definition findPara (cmd : list Z) (len paraIndex : Z) (addr0 : Z)
  : option (Z * Z) :=
  findPara_loop (findPara_fuel len paraIndex) cmd len paraIndex addr0 0 0.

(** ** atoi *)

(** The C library's [atoi]: leading white space, an optional sign, then
    decimal digits up to the first other byte. Its value is taken in [Z];
    every caller stores it in a [uint8_t], and reduction modulo 256 gives the
    same byte whether or not a 16-bit [int] has wrapped. *)
Definition isspace (c : Z) : bool := (c =? 32) || ((9 <=? c) && (c <=? 13)).
Definition isdigit (c : Z) : bool := (48 <=? c) && (c <=? 57).

Fixpoint atoi_digits (m : list Z) (acc : Z) : Z :=
  match m with
  | c :: m' => if isdigit c then atoi_digits m' (acc * 10 + (c - 48)) else acc
  | [] => acc
  end.

Fixpoint atoi (m : list Z) : Z :=
  match m with
  | c :: m' =>
      if isspace c then atoi m'
      else if c =? 45 then - atoi_digits m' 0
      else if c =? 43 then atoi_digits m' 0
      else atoi_digits m 0
  | [] => 0
  end.

(** ** What the sketch does to the outside *)

(** The calls to the recognition module. [records] arguments are the first
    [len] entries of the array that is passed; the signature of
    [trainWithSignature] is passed as a pointer into [cmd] and an [int]. *)
Inductive call : Type :=
| Train (recs : list Z)
| Load (recs : list Z)
| Clear
| CheckRecognizer
| CheckRecord
| CheckRecords (recs : list Z)
| TrainWithSignature (rec : Z) (sigAddr : Z) (sigLen : Z)
| CheckSignature (rec : Z)
| Recognize.

(** What reaches [Serial], in order, interleaved with the module calls. *)
Inductive event : Type :=
| Text (s : string)        (* Serial.print of a string literal *)
| Num (n : Z) (base : Z)   (* Serial.print(n, DEC) or (n, HEX) *)
| Bytes (bs : list Z)      (* Serial.write *)
| Beyond (n : Z)           (* Serial.write going on past the array: n bytes
                              of the memory after it, which is not
                              modelled *)
| EOL                      (* the line end of a println *)
| Call (c : call).

Definition DEC : Z := 10.
Definition HEX : Z := 16.

Definition print (s : string) : list event := [Text s].
Definition println (s : string) : list event := [Text s; EOL].
Definition printNum (n base : Z) : list event := [Num n base].
Definition printlnNum (n base : Z) : list event := [Num n base; EOL].

(** [Serial.write(p, size)] for a [p] that points into an array of which
    [m] is the part from [p] on: the bytes of [m] that are written and, when
    [size] is more than [m] holds, the number of bytes that are written from
    the memory after the array. *)
Definition serialWrite (m : list Z) (size : Z) : list event :=
  Bytes (firstn (Z.to_nat size) m)
  :: (if len_of m <? size then [Beyond (size - len_of m)] else []).

Definition tab : string := String (ascii_of_nat 9) EmptyString.
Definition tabtab : string := (tab ++ tab)%string.
Definition crlf : string :=
  String (ascii_of_nat 13) (String (ascii_of_nat 10) EmptyString).

(** ** The reply printers *)

Fixpoint printSignature_from (buf : list Z) (i : Z) (n : nat) : list event :=
  match n with
  | O => []
  | S n' =>
      (if (25 <? byteAt buf i) && (byteAt buf i <? 127)
       then [Bytes [byteAt buf i]]
       else print "[" ++ printNum (byteAt buf i) HEX ++ print "]")
      ++ printSignature_from buf (i + 1) n'
  end.

Definition printSignature (buf : list Z) (len : Z) : list event :=
  printSignature_from buf 0 (Z.to_nat len).

Definition printVR (buf : list Z) : list event :=
  println ("VR Index" ++ tab ++ "Group" ++ tab ++ "RecordNum" ++ tab
           ++ "Signature")
  ++ printNum (byteAt buf 2) DEC
  ++ print tabtab
  ++ (if byteAt buf 0 =? 255 then print "NONE"
      else if Z.land (byteAt buf 0) 128 !=? 0
           then print "UG " ++ printNum (Z.land (byteAt buf 0) (Z.lnot 128)) DEC
           else print "SG " ++ printNum (byteAt buf 0) DEC)
  ++ print tab
  ++ printNum (byteAt buf 1) DEC
  ++ print tabtab
  ++ (if 0 <? byteAt buf 3
      then printSignature (from buf 4) (byteAt buf 3)
      else print "NONE")
  ++ println crlf.

Definition printSeperator : list event := repeat (Bytes [45]) 80 ++ [EOL].

Fixpoint printCheckRecognizer_from (buf : list Z) (i : Z) (n : nat)
  : list event :=
  match n with
  | O => []
  | S n' =>
      printNum i DEC ++ print tabtab
      ++ (if byteAt buf (i + 1) =? 255 then
            if byteAt buf 10 =? 255
            then print ("Unloaded" ++ tab ++ "NONE")
            else print ("Not Set" ++ tabtab ++ "NONE")
          else
            printNum (byteAt buf (i + 1)) DEC ++ print tabtab
            ++ (if Z.land (byteAt buf 9) (Z.shiftl 1 i) !=? 0
                then print "Valid" else print "Untrained"))
      ++ [EOL]
      ++ printCheckRecognizer_from buf (i + 1) n'
  end.

Definition printCheckRecognizer (buf : list Z) : list event :=
  print "All voice records in recognizer: " ++ printlnNum (byteAt buf 8) DEC
  ++ print "Valid voice records in recognizer: "
  ++ printlnNum (byteAt buf 0) DEC
  ++ (if byteAt buf 10 =? 255 then println "VR is not in group mode."
      else if Z.land (byteAt buf 10) 128 !=? 0
           then print "VR is in user group mode:"
                ++ printlnNum (Z.land (byteAt buf 10) 127) DEC
           else print "VR is in system group mode:"
                ++ printlnNum (byteAt buf 10) DEC)
  ++ println ("VR Index" ++ tab ++ "Record" ++ tabtab ++ "Comment")
  ++ printCheckRecognizer_from buf 0 7.

(** The pair loops step [i] by 2 up to a bound; [fuel] is that bound, which
    is never less than the number of iterations. *)
Fixpoint printCheckRecord_from (fuel : nat) (buf : list Z) (i : Z)
  : list event :=
  match fuel with
  | O => []
  | S fuel' =>
      if i <? byteAt buf 0 * 2 then
        printNum (byteAt buf (i + 1)) DEC
        ++ print (tab ++ "-->" ++ tab)
        ++ (let st := byteAt buf (i + 2) in
            if st =? 1 then print "Trained"
            else if st =? 0 then print "Untrained"
            else if st =? 255 then print "Record value out of range"
            else print "Unknown Stauts")
        ++ [EOL]
        ++ printCheckRecord_from fuel' buf (i + 2)
      else []
  end.

Definition printCheckRecord (buf : list Z) (num : Z) : list event :=
  print "Check " ++ printNum (byteAt buf 0) DEC ++ println " records."
  ++ printNum num DEC
  ++ (if 1 <? num then println " records trained."
      else println " record trained.")
  ++ printCheckRecord_from (Z.to_nat (byteAt buf 0)) buf 0.

Fixpoint printLoad_from (fuel : nat) (buf : list Z) (len i : Z)
  : list event :=
  match fuel with
  | O => []
  | S fuel' =>
      if i <? len - 1 then
        print "Record " ++ printNum (byteAt buf (i + 1)) DEC ++ print tab
        ++ (let st := byteAt buf (i + 2) in
            if st =? 0 then println "Loaded"
            else if st =? 252 then println "Record already in recognizer"
            else if st =? 253 then println "Recognizer full"
            else if st =? 254 then println "Record untrained"
            else if st =? 255 then println "Value out of range"
            else println "Unknown status")
        ++ printLoad_from fuel' buf len (i + 2)
      else []
  end.

Definition printLoad (buf : list Z) (len : Z) : list event :=
  if len =? 0 then println "Load Successfully."
  else print "Load success: " ++ printlnNum (byteAt buf 0) DEC
       ++ printLoad_from (Z.to_nat len) buf len 0.

Fixpoint printTrain_from (fuel : nat) (buf : list Z) (len i : Z)
  : list event :=
  match fuel with
  | O => []
  | S fuel' =>
      if i <? len - 1 then
        print "Record " ++ printNum (byteAt buf (i + 1)) DEC ++ print tab
        ++ (let st := byteAt buf (i + 2) in
            if st =? 0 then println "Trained"
            else if st =? 254 then println "Train Time Out"
            else if st =? 255 then println "Value out of range"
            else print "Unknown status " ++ printlnNum st HEX)
        ++ printTrain_from fuel' buf len (i + 2)
      else []
  end.

Definition printTrain (buf : list Z) (len : Z) : list event :=
  if len =? 0 then println "Train Finish."
  else print "Train success: " ++ printlnNum (byteAt buf 0) DEC
       ++ printTrain_from (Z.to_nat len) buf len 0.

(** [len] is a [uint8_t]; [len-3] is an [int] and is passed as the
    [size_t] (16 bits) of [Serial.write]: for [len] 1 or 2 that is 65534 or
    65535. *)
Definition printSigTrain (buf : list Z) (len : Z) : list event :=
  if len =? 0 then println "Train With Signature Finish."
  else
    print "Success: " ++ printlnNum (byteAt buf 0) DEC
    ++ print "Record " ++ printNum (byteAt buf 1) DEC ++ print tab
    ++ (let st := byteAt buf 2 in
        if st =? 0 then println "Trained"
        else if st =? 240 then println "Trained, signature truncate"
        else if st =? 254 then println "Train Time Out"
        else if st =? 255 then println "Value out of range"
        else print "Unknown status " ++ printlnNum st HEX)
    ++ print "SIG: "
    ++ serialWrite (from buf 3) (uint16 (len - 3))
    ++ [EOL].

(** ** The sketch's globals and the recognition module *)

Section Sketch.

(** The module behind [myVR] is outside this file: its state is a type [D],
    and each method is a function of that state and of what the sketch
    passes, giving the [int] it returns, the contents of the reply buffer
    afterwards and the module's next state. *)
Variable D : Type.

Record VR : Type := {
  vr_train : D -> list Z -> list Z -> Z * list Z * D;
  vr_load : D -> list Z -> list Z -> Z * list Z * D;
  vr_clear : D -> Z * D;
  vr_checkRecognizer : D -> list Z -> Z * list Z * D;
  vr_checkRecord : D -> list Z -> Z * list Z * D;
  vr_checkRecords : D -> list Z -> list Z -> Z * list Z * D;
  vr_trainWithSignature :
    D -> Z -> list Z -> Z -> Z -> list Z -> Z * list Z * D;
  vr_checkSignature : D -> Z -> list Z -> Z * list Z * D;
  vr_recognize : D -> list Z -> Z -> Z * list Z * D
}.

Variable myVR : VR.

Record state : Type := mkState {
  cmd : list Z;        (* uint8_t cmd[CMD_BUF_LEN] *)
  paraAddr : Z;        (* uint8_t *paraAddr, as an offset into cmd *)
  buf : list Z;        (* uint8_t buf[200] *)
  records : list Z;    (* uint8_t records[7] *)
  dev : D;             (* the module behind myVR *)
  out : list event     (* everything done so far, oldest first *)
}.

(** A handler runs on the globals and may fail to terminate ([None]). *)
Definition M (A : Type) : Type := state -> option (A * state).

Definition ret {A : Type} (a : A) : M A := fun s => Some (a, s).

Definition bind {A B : Type} (m : M A) (k : A -> M B) : M B :=
  fun s => match m s with
           | Some (a, s') => k a s'
           | None => None
           end.

Notation "'do' x <- m ; k" := (bind m (fun x => k))
  (at level 10, x name, m at level 100, k at level 200).
Notation "m >> k" := (bind m (fun _ => k))
  (at level 61, right associativity).

Definition get : M state := fun s => Some (s, s).

Definition emit (es : list event) : M unit :=
  fun s => Some (tt, mkState (cmd s) (paraAddr s) (buf s) (records s)
                       (dev s) (out s ++ es)).

Definition set_paraAddr (a : Z) : M unit :=
  fun s => Some (tt, mkState (cmd s) a (buf s) (records s) (dev s) (out s)).

Definition set_record (i : Z) (v : Z) : M unit :=
  fun s => Some (tt, mkState (cmd s) (paraAddr s) (buf s)
                       (store (records s) (Z.to_nat i) (uint8 v))
                       (dev s) (out s)).

(** A call of a method that fills [buf]: log it, run it, keep its reply. *)
Definition delegate (c : call) (f : D -> list Z -> Z * list Z * D) : M Z :=
  fun s =>
    let '(r, b, d) := f (dev s) (buf s) in
    Some (r, mkState (cmd s) (paraAddr s) b (records s) d
               (out s ++ [Call c])).

(** [findPara(len, i, &paraAddr)]. *)
Definition findParaG (len i : Z) : M Z :=
  fun s => match findPara (cmd s) len i (paraAddr s) with
           | Some (n, a) => (set_paraAddr a >> ret n) s
           | None => None
           end.

(** [findPara(len, i, &lastAddr)] for a local [lastAddr]; an uninitialised
    local is read as 0. *)
Definition findParaL (len i : Z) : M (Z * Z) :=
  fun s => match findPara (cmd s) len i 0 with
           | Some r => Some (r, s)
           | None => None
           end.

(** The three statements every record argument goes through,
    [findPara(len, i, &paraAddr); records[k] = atoi((char * )paraAddr);
     if(records[k] == 0 && *paraAddr != '0') return -1;]:
    the result is [true] when the [return -1] is taken. *)
Definition recordArg (len i k : Z) : M bool :=
  do _ <- findParaG len i;
  do s <- get;
  do _ <- set_record k (atoi (from (cmd s) (paraAddr s)));
  do s <- get;
  ret ((byteAt (records s) k =? 0) && (byteAt (cmd s) (paraAddr s) !=? 48)).

(** [for(i=2; i<=paraNum; i++){ ... records[i-2] ... }] with [n] iterations
    left; [true] when an iteration returned -1. *)
Fixpoint recordArgs (n : nat) (len i : Z) : M bool :=
  match n with
  | O => ret false
  | S n' =>
      do bad <- recordArg len i (i - 2);
      if bad : bool then ret true else recordArgs n' len (i + 1)
  end.

Definition passed (s : state) (n : Z) : list Z :=
  firstn (Z.to_nat n) (records s).

Definition cmdTrain (len paraNum : Z) : M Z :=
  if (paraNum <? 2) || (8 <? paraNum) then ret (-1)
  else
    do bad <- recordArgs (Z.to_nat (paraNum - 1)) len 2;
    if bad : bool then ret (-1)
    else
      do s <- get;
      let recs := passed s (paraNum - 1) in
      do r <- delegate (Train recs) (fun d b => vr_train myVR d recs b);
      do s <- get;
      (if 0 <=? r then emit (printTrain (buf s) (uint8 r))
       else emit (println "Train failed.")) >>
      ret 0.

Definition cmdLoad (len paraNum : Z) : M Z :=
  if (paraNum <? 2) || (8 <? paraNum) then ret (-1)
  else
    do bad <- recordArgs (Z.to_nat (paraNum - 1)) len 2;
    if bad : bool then ret (-1)
    else
      do s <- get;
      let recs := passed s (paraNum - 1) in
      do r <- delegate (Load recs) (fun d b => vr_load myVR d recs b);
      emit printSeperator >>
      do s <- get;
      (if 0 <=? r then emit (printLoad (buf s) (uint8 r))
       else emit (println "Load failed.")) >>
      emit printSeperator >>
      ret 0.

Definition cmdClear (len paraNum : Z) : M Z :=
  if paraNum !=? 1 then ret (-1)
  else
    do r <- delegate Clear
              (fun d b => let '(r, d') := vr_clear myVR d in (r, b, d'));
    (if r =? 0
     then emit (printSeperator ++ println "Recognizer cleared."
                ++ printSeperator)
     else ret tt) >>
    ret 0.

Definition cmdVR (len paraNum : Z) : M Z :=
  if paraNum !=? 1 then ret (-1)
  else
    do r <- delegate CheckRecognizer (vr_checkRecognizer myVR);
    if r <=? 0 then ret (-1)
    else
      do s <- get;
      emit (printSeperator ++ printCheckRecognizer (buf s)
            ++ printSeperator) >>
      ret 0.

Definition cmdRecord (len paraNum : Z) : M Z :=
  if paraNum =? 1 then
    do r <- delegate CheckRecord (vr_checkRecord myVR);
    do s <- get;
    (if 0 <=? r then emit (printCheckRecord (buf s) r)
     else emit (println "Check record failed.")) >>
    ret 0
  else if paraNum <? 9 then
    do bad <- recordArgs (Z.to_nat (paraNum - 1)) len 2;
    if bad : bool then ret (-1)
    else
      do s <- get;
      let recs := passed s (paraNum - 1) in
      do r <- delegate (CheckRecords recs)
                (fun d b => vr_checkRecords myVR d b recs);
      do s <- get;
      (if 0 <=? r then emit (printSeperator ++ printCheckRecord (buf s) r)
       else emit (println "Check record failed.")) >>
      ret 0
  else ret (-1).

Definition cmdSigTrain (len paraNum : Z) : M Z :=
  if paraNum <? 2 then ret (-1)
  else
    do bad <- recordArg len 2 0;
    if bad : bool then ret (-1)
    else
      do _ <- findParaG len 3;
      do last <- findParaL len paraNum;
      do s <- get;
      let '(sig_len, lastAddr) := last in
      let sig_len := int16 (sig_len + uint16 (lastAddr - paraAddr s)) in
      let rec := byteAt (records s) 0 in
      do r <- delegate (TrainWithSignature rec (paraAddr s) sig_len)
                (fun d b => vr_trainWithSignature myVR d rec (cmd s)
                              (paraAddr s) sig_len b);
      do s <- get;
      (if 0 <=? r then emit (printSigTrain (buf s) (uint8 r))
       else emit (println "Train failed.")) >>
      ret 0.

Definition cmdGetSig (len paraNum : Z) : M Z :=
  if paraNum !=? 2 then ret (-1)
  else
    do bad <- recordArg len 2 0;
    if bad : bool then ret (-1)
    else
      do s <- get;
      let rec := byteAt (records s) 0 in
      do r <- delegate (CheckSignature rec)
                (fun d b => vr_checkSignature myVR d rec b);
      do s <- get;
      (if r =? 0 then emit (println "Signature isn't set.")
       else if 0 <? r
            then emit (print "Signature:" ++ printSignature (buf s) r
                       ++ [EOL])
            else emit (println "Get sig error.")) >>
      ret 0.

Definition cmdTest (len paraNum : Z) : M Z :=
  emit (println "TEST is not supported.") >> ret 0.

Definition cmdFunction : list (Z -> Z -> M Z) :=
  [cmdTrain; cmdLoad; cmdClear; cmdVR; cmdRecord; cmdSigTrain; cmdGetSig;
   cmdTest].

(** ** loop *)

(** The table search of [loop], [n] entries left; the result is the value of
    [i] when the [for] is left (by [break] or by [i == CMD_NUM]). *)
Fixpoint search (n : nat) (i : Z) (len paraNum paraLen : Z) : M Z :=
  match n with
  | O => ret i
  | S n' =>
      if paraLen =? nth (Z.to_nat i) cmdLen 0 then
        do s <- get;
        if compareCMD (from (cmd s) (paraAddr s))
             (nth (Z.to_nat i) cmdList []) paraLen =? 0
        then
          do r <- nth (Z.to_nat i) cmdFunction cmdTest len paraNum;
          (if r !=? 0 then emit (println "Command Format Error!")
           else ret tt) >>
          ret i
        else search n' (i + 1) len paraNum paraLen
      else search n' (i + 1) len paraNum paraLen
  end.

(** The first half of [loop], for the value [len] that [receiveCMD]
    returned. *)
Definition command (len : Z) : M unit :=
  if 0 <? len then
    do s <- get;
    if checkCMD (cmd s) len =? 0 then
      do paraNum <- (fun s => match checkParaNum (cmd s) len with
                              | Some n => Some (n, s)
                              | None => None
                              end);
      emit [Bytes (firstn (Z.to_nat len) (cmd s))] >>
      do paraLen <- findParaG len 1;
      do i <- search (Z.to_nat CMD_NUM) 0 len paraNum paraLen;
      if i =? CMD_NUM then emit (println "Unkonwn command") else ret tt
    else emit (println "Command format error")
  else ret tt.

(** The second half: one poll for a recognition result. *)
Definition poll : M unit :=
  do r <- delegate Recognize (fun d b => vr_recognize myVR d b 50);
  do s <- get;
  if 0 <? r then emit (printVR (buf s)) else ret tt.

Definition loop (len : Z) : M unit := command len >> poll.

End Sketch.

Arguments vr_train {D}.
Arguments vr_load {D}.
Arguments vr_clear {D}.
Arguments vr_checkRecognizer {D}.
Arguments vr_checkRecord {D}.
Arguments vr_checkRecords {D}.
Arguments vr_trainWithSignature {D}.
Arguments vr_checkSignature {D}.
Arguments vr_recognize {D}.
Arguments mkState {D}.
Arguments cmd {D}.
Arguments paraAddr {D}.
Arguments buf {D}.
Arguments records {D}.
Arguments dev {D}.
Arguments out {D}.
Arguments ret {D A}.
Arguments bind {D A B}.
Arguments get {D}.
Arguments emit {D}.
Arguments set_paraAddr {D}.
Arguments set_record {D}.
Arguments delegate {D}.
Arguments findParaG {D}.
Arguments findParaL {D}.
Arguments recordArg {D}.
Arguments recordArgs {D}.
Arguments passed {D}.
Arguments cmdTrain {D}.
Arguments cmdLoad {D}.
Arguments cmdClear {D}.
Arguments cmdVR {D}.
Arguments cmdRecord {D}.
Arguments cmdSigTrain {D}.
Arguments cmdGetSig {D}.
Arguments cmdTest {D}.
Arguments cmdFunction {D}.
Arguments search {D}.
Arguments command {D}.
Arguments poll {D}.
Arguments loop {D}.

(** ** Concrete surroundings for the examples *)

(** A module without state that answers every call with the same return
    value and the same buffer contents. *)
Definition answering (r : Z) (reply : list Z) : VR unit :=
  {| vr_train := fun d _ _ => (r, reply, d);
     vr_load := fun d _ _ => (r, reply, d);
     vr_clear := fun d => (r, d);
     vr_checkRecognizer := fun d _ => (r, reply, d);
     vr_checkRecord := fun d _ => (r, reply, d);
     vr_checkRecords := fun d _ _ => (r, reply, d);
     vr_trainWithSignature := fun d _ _ _ _ _ => (r, reply, d);
     vr_checkSignature := fun d _ _ => (r, reply, d);
     vr_recognize := fun d _ _ => (r, reply, d) |}.

(** The globals after [receiveCMD] has put [l] at the start of [cmd]: the
    rest of the 65 bytes is zero, as are [buf] and [records]. *)
Definition received (l : list Z) : state unit :=
  mkState (l ++ repeat 0 (65 - List.length l)%nat) 0 (repeat 0 200%nat)
          (repeat 0 7%nat) tt [].

(** The module calls among the events. *)
Fixpoint calls (es : list event) : list call :=
  match es with
  | Call c :: es' => c :: calls es'
  | _ :: es' => calls es'
  | [] => []
  end.

(** ** The vocabulary of the statements *)

(** What [receiveCMD] hands over: [len] bytes of [cmd], the last of them the
    newline that ended the line. *)
Definition terminated (cmd : list Z) (len : Z) : Prop :=
  0 < len /\ byteAt cmd (len - 1) = LF.

(** A token as the grammar has it: at least one byte, each of them a
    printable byte other than the space. *)
Definition graphic (c : Z) : Prop := 33 <= c <= 126.

Definition token (t : list Z) : Prop := t <> [] /\ Forall graphic t.

(** A separator: at least one byte, each a tab or a space. *)
Definition blanks (b : list Z) : Prop :=
  b <> [] /\ Forall (fun c => c = TAB \/ c = SP) b.

Definition digit (c : Z) : Prop := 48 <= c <= 57.

(** The decimal text of a number, most significant digit first and without
    leading zeros: what an operator types for a record number. This is the
    encoding the round-trip property speaks of; the sketch has no such
    function. *)
Fixpoint decimal_from (fuel : nat) (v : Z) (acc : list Z) : list Z :=
  match fuel with
  | O => acc
  | S fuel' =>
      let acc' := (48 + v mod 10) :: acc in
      if v <? 10 then acc' else decimal_from fuel' (v / 10) acc'
  end.

Definition decimal (v : Z) : list Z := decimal_from (S (Z.to_nat v)) v [].

(** The byte that is stored for an argument token, and the outcome of the
    test on it, written on the token alone. *)
Definition stored (t : list Z) : Z := uint8 (atoi t).

Definition refused (t : list Z) : bool :=
  (stored t =? 0) && (hd 0 t !=? 48).

(** The handler returned -1 and neither printed nor called the module. *)
Definition rejected {D : Type} (r : option (Z * state D)) (s : state D)
  : Prop :=
  exists s', r = Some (-1, s') /\ out s' = out s.

(** The handler returned 0 and its one call of the module was [c]. *)
Definition delegated {D : Type} (r : option (Z * state D)) (s : state D)
  (c : call) : Prop :=
  exists s', r = Some (0, s') /\ calls (out s') = calls (out s) ++ [c].

(** Entry [j] of the table is taken: the lengths agree and [compareCMD]
    returns 0. *)
Definition hits {D : Type} (s : state D) (paraLen j : Z) : bool :=
  (paraLen =? nth (Z.to_nat j) cmdLen 0)
  && (compareCMD (from (cmd s) (paraAddr s))
        (nth (Z.to_nat j) cmdList []) paraLen =? 0).

(** The part of a line after the command word: each argument token with
    the separator before it. *)
Definition body (segs : list (list Z * list Z)) : list Z :=
  flat_map (fun bt => fst bt ++ snd bt) segs.

Definition segments (segs : list (list Z * list Z)) : Prop :=
  Forall (fun bt => blanks (fst bt) /\ token (snd bt)) segs.

(** Where argument [k] starts, counted from the start of the body. *)
Definition offset (segs : list (list Z * list Z)) (k : nat) : Z :=
  len_of (body (firstn k segs)) + len_of (fst (nth k segs ([], []))).

Section Together.

Variables (D : Type) (myVR : VR D) (len paraNum : Z) (s : state D).

(** The three handlers that take a list of record numbers pass [vs] on. *)
Definition passes_list (vs : list Z) : Prop :=
  delegated (cmdTrain myVR len paraNum s) s (Train vs)
  /\ delegated (cmdLoad myVR len paraNum s) s (Load vs)
  /\ delegated (cmdRecord myVR len paraNum s) s (CheckRecords vs).

(** All three return the format error. *)
Definition refuses_list : Prop :=
  rejected (cmdTrain myVR len paraNum s) s
  /\ rejected (cmdLoad myVR len paraNum s) s
  /\ rejected (cmdRecord myVR len paraNum s) s.

(** The two handlers that take one record number, given two tokens, pass
    [v] on; sigtrain passes the span ([sigAddr], 0) with it. *)
Definition passes_one (v sigAddr : Z) : Prop :=
  delegated (cmdGetSig myVR len 2 s) s (CheckSignature v)
  /\ delegated (cmdSigTrain myVR len 2 s) s (TrainWithSignature v sigAddr 0).

(** Both return the format error. *)
Definition refuses_one : Prop :=
  rejected (cmdGetSig myVR len 2 s) s
  /\ rejected (cmdSigTrain myVR len 2 s) s.

End Together.

Arguments passes_list {D}.
Arguments refuses_list {D}.
Arguments passes_one {D}.
Arguments refuses_one {D}.

(** ** receiveCMD *)

(** [unsigned long] arithmetic. *)
Definition uint32 (z : Z) : Z := z mod 4294967296.

(** The serial port and the clock are outside the sketch: [rx] holds what
    the successive calls of [Serial.read()] return (-1 when nothing has
    arrived) and [clock] what those of [millis()] return. The state of
    [while(1)] is [cmd], [cmd_cnt] and [start_millis]; the result is the
    returned [int], [cmd] and [cmd_cnt] on return, and what is left of
    [rx] and [clock]. [None]: the lists end before the function returns. *)
Fixpoint receiveCMD_loop (rx clock : list Z) (cmd : list Z)
  (cmd_cnt start_millis : Z)
  : option (Z * list Z * Z * list Z * list Z) :=
  match rx with
  | [] => None
  | ret :: rx' =>
      (* if(millis() - start_millis > 100){ cmd_cnt = 0; return -1; } *)
      let expire cmd cmd_cnt start_millis clock :=
        match clock with
        | [] => None
        | now :: clock' =>
            if 100 <? uint32 (now - start_millis)
            then Some (-1, cmd, 0, rx', clock')
            else receiveCMD_loop rx' clock' cmd cmd_cnt start_millis
        end in
      if 0 <? ret then
        match clock with
        | [] => None
        | now :: clock' =>
            let start_millis := now in
            let cmd := store cmd (Z.to_nat cmd_cnt) (uint8 ret) in
            if byteAt cmd cmd_cnt =? LF
            then Some (cmd_cnt + 1, cmd, 0, rx', clock')
            else
              let cmd_cnt := uint8 (cmd_cnt + 1) in
              if cmd_cnt =? CMD_BUF_LEN
              then Some (-1, cmd, 0, rx', clock')
              else expire cmd cmd_cnt start_millis clock'
        end
      else expire cmd cmd_cnt start_millis clock
  end.

Definition receiveCMD (rx clock : list Z) (cmd : list Z) (cmd_cnt : Z)
  : option (Z * list Z * Z * list Z * list Z) :=
  match clock with
  | [] => None
  | start_millis :: clock' =>
      receiveCMD_loop rx clock' cmd cmd_cnt start_millis
  end.

(** ** Further words for the statements *)

(** A byte as [Serial.read()] delivers it inside a line: not 0, which
    [receiveCMD] drops, and not the newline. *)
Definition inner (c : Z) : Prop := 1 <= c <= 255 /\ c <> LF.

(** The clock values that one byte consumes: the new [start_millis] and the
    value compared with it. *)
Definition ticks (ps : list (Z * Z)) : list Z :=
  flat_map (fun p => [fst p; snd p]) ps.

(** No byte is followed by a gap of more than 100 ms. *)
Definition calm (ps : list (Z * Z)) : Prop :=
  Forall (fun p => uint32 (snd p - fst p) <= 100) ps.

(** What holds of the buffer while a line is being received: the bytes
    stored so far are line bytes. *)
Definition filling (cmd : list Z) (cnt : Z) : Prop :=
  List.length cmd = 65%nat /\ 0 <= cnt < 65
  /\ forall k, 0 <= k < cnt -> inner (byteAt cmd k).

(** The value of [start_millis] after the bytes whose clock values are
    [ps]: that of the last byte, or [start] when there was none. *)
Definition begun (ps : list (Z * Z)) (start : Z) : Z :=
  fold_left (fun _ p => fst p) ps start.

(** A byte that [checkCMD] lets pass: printable, or tab, carriage return
    or newline. *)
Definition allowed (c : Z) : Prop :=
  32 <= c <= 126 \/ c = TAB \/ c = CR \/ c = LF.

(** Bytes that are part of no token: tabs, spaces, carriage returns and
    newlines. *)
Definition stops (l : list Z) : Prop := Forall (fun c => inPara c = false) l.

(** Command word [j] of the table: the first [cmdLen[j]] bytes of row [j]
    of [cmdList]. *)
Definition cmdWord (j : nat) : list Z :=
  firstn (Z.to_nat (nth j cmdLen 0)) (nth j cmdList []).

(** The globals when the table search starts: the line has been echoed and
    [paraAddr] is on the first token. *)
Definition searching {D : Type} (s : state D) (len a : Z) : state D :=
  mkState (cmd s) a (buf s) (records s) (dev s)
          (out s ++ [Bytes (firstn (Z.to_nat len) (cmd s))]).

(** A step that neither prints nor calls the module. *)
Definition quiet {D A : Type} (m : M D A) : Prop :=
  forall s a s', m s = Some (a, s') -> out s' = out s /\ dev s' = dev s.

(** A handler that, when it returns -1, has neither printed nor called the
    module. *)
Definition fails_quietly {D : Type} (m : M D Z) : Prop :=
  forall s s', m s = Some (-1, s') -> out s' = out s /\ dev s' = dev s.

(** A handler, or the rest of one, that returns 0 when it returns. *)
Definition always_zero {D : Type} (m : M D Z) : Prop :=
  forall s r s', m s = Some (r, s') -> r = 0.

(** The request that handler [j] of the table makes of the module. *)
Definition requests (j : nat) (c : call) : Prop :=
  match j with
  | 0%nat => exists recs, c = Train recs
  | 1%nat => exists recs, c = Load recs
  | 2%nat => c = Clear
  | 3%nat => c = CheckRecognizer
  | 4%nat => c = CheckRecord \/ exists recs, c = CheckRecords recs
  | 5%nat => exists rec a n, c = TrainWithSignature rec a n
  | 6%nat => exists rec, c = CheckSignature rec
  | _ => False
  end.

(** What handler [j] has asked of the module when it returns [r]: with 0
    its one request, and nothing for "test"; with -1 nothing, or for "vr"
    its request, which failed. *)
Definition asked (j : nat) (r : Z) (cs : list call) : Prop :=
  (r = 0 /\ if (j <? 7)%nat then exists c, requests j c /\ cs = [c]
            else cs = [])
  \/ (r = -1 /\ (cs = [] \/ (j = 3%nat /\ cs = [CheckRecognizer]))).

(** A step that does not call the module. *)
Definition mute {D A : Type} (m : M D A) : Prop :=
  forall s a s', m s = Some (a, s') -> calls (out s') = calls (out s).

(** A step whose calls of the module, with its result, satisfy [P]. *)
Definition asks {D A : Type} (m : M D A) (P : A -> list call -> Prop)
  : Prop :=
  forall s a s', m s = Some (a, s') ->
    exists cs, calls (out s') = calls (out s) ++ cs /\ P a cs.

(** * Properties *)

(** ** Memory *)

Lemma neqb_true (a b : Z) : (a !=? b) = true <-> a <> b.
Proof. unfold neqb. rewrite negb_true_iff, Z.eqb_neq. tauto. Qed.

Lemma neqb_false (a b : Z) : (a !=? b) = false <-> a = b.
Proof. unfold neqb. rewrite negb_false_iff, Z.eqb_eq. tauto. Qed.

Lemma len_of_app (a b : list Z) : len_of (a ++ b) = len_of a + len_of b.
Proof. unfold len_of. rewrite length_app. lia. Qed.

Lemma len_of_cons (c : Z) (a : list Z) : len_of (c :: a) = 1 + len_of a.
Proof. unfold len_of. simpl List.length. lia. Qed.

Lemma len_of_nonneg (a : list Z) : 0 <= len_of a.
Proof. unfold len_of. lia. Qed.

Lemma from_app (a b : list Z) : from (a ++ b) (len_of a) = b.
Proof.
  unfold from, len_of. rewrite Nat2Z.id.
  induction a as [|x a IH]; simpl; auto.
Qed.

Lemma from_plus (m : list Z) (i k : Z) :
  0 <= i -> 0 <= k -> from m (i + k) = from (from m i) k.
Proof.
  intros Hi Hk. unfold from.
  rewrite Z2Nat.inj_add by lia.
  rewrite Nat.add_comm. symmetry. apply skipn_skipn.
Qed.

Lemma byteAt_from (m : list Z) (i : Z) : byteAt m i = hd 0 (from m i).
Proof.
  unfold byteAt, from. generalize (Z.to_nat i) as n.
  intros n. revert m. induction n as [|n IH]; intros [|x m]; simpl; auto.
Qed.

Lemma byteAt_plus (m : list Z) (i k : Z) :
  0 <= i -> 0 <= k -> byteAt m (i + k) = byteAt (from m i) k.
Proof.
  intros Hi Hk. rewrite !byteAt_from, from_plus by lia. reflexivity.
Qed.

Lemma from_step (m : list Z) (i : Z) (c : Z) (r : list Z) :
  0 <= i -> from m i = c :: r -> from m (i + 1) = r.
Proof.
  intros Hi H. rewrite from_plus by lia. rewrite H. reflexivity.
Qed.

(** ** compareCMD accepts equal bytes only *)

Lemma case_bit_both_ways (a b : Z) :
  (uint8 (b - a) = 0 \/ uint8 (b - a) = 32) ->
  (uint8 (a - b) = 0 \/ uint8 (a - b) = 32) ->
  uint8 (b - a) = 0 /\ uint8 (a - b) = 0.
Proof.
  unfold uint8. intros H1 H2.
  Z.div_mod_to_equations. lia.
Qed.

Lemma compareCMD_from_exact (p1 p2 : list Z) (n : nat) (i : Z) :
  compareCMD_from p1 p2 i n = 0 <->
  forall k, 0 <= k < Z.of_nat n ->
            uint8 (byteAt p2 (i + k) - byteAt p1 (i + k)) = 0.
Proof.
  revert i. induction n as [|n IH]; intros i.
  - simpl. split; auto. intros _ k Hk. lia.
  - cbn [compareCMD_from].
    destruct (uint8 (byteAt p2 i - byteAt p1 i) !=? 0) eqn:E1.
    + (* the two bytes differ *)
      apply neqb_true in E1.
      assert (Hno : ~ (forall k, 0 <= k < Z.of_nat (S n) ->
                          uint8 (byteAt p2 (i + k) - byteAt p1 (i + k)) = 0)).
      { intros H. apply E1. specialize (H 0). rewrite Z.add_0_r in H.
        apply H. lia. }
      destruct (uint8 (byteAt p2 i - byteAt p1 i) !=? 32) eqn:E2; cbn [andb].
      * split; [discriminate | tauto].
      * apply neqb_false in E2.
        destruct (uint8 (byteAt p1 i - byteAt p2 i) !=? 0) eqn:E3;
          destruct (uint8 (byteAt p1 i - byteAt p2 i) !=? 32) eqn:E4;
          cbn [andb]; try (split; [discriminate | tauto]).
        -- apply neqb_false in E4.
           destruct (case_bit_both_ways (byteAt p1 i) (byteAt p2 i));
             auto; tauto.
        -- apply neqb_false in E3.
           destruct (case_bit_both_ways (byteAt p1 i) (byteAt p2 i));
             auto; tauto.
        -- apply neqb_false in E3. apply neqb_false in E4. lia.
    + apply neqb_false in E1. cbn [andb].
      assert (E3 : uint8 (byteAt p1 i - byteAt p2 i) = 0).
      { revert E1. unfold uint8. intros E1.
        Z.div_mod_to_equations. lia. }
      rewrite E3. cbn. rewrite IH. split.
      * intros H k Hk. destruct (Z.eq_dec k 0) as [->|Hk0].
        -- rewrite Z.add_0_r. exact E1.
        -- replace (i + k) with (i + 1 + (k - 1)) by lia. apply H. lia.
      * intros H k Hk. replace (i + 1 + k) with (i + (k + 1)) by lia.
        apply H. lia.
Qed.

(** ** Lines that hold their newline *)

Lemma inPara_stop (c : Z) :
  inPara c = false <-> c = TAB \/ c = SP \/ c = CR \/ c = LF.
Proof.
  unfold inPara. rewrite !andb_false_iff, !neqb_false. tauto.
Qed.

Lemma inPara_notBlank (c : Z) : inPara c = true -> notBlank c = true.
Proof.
  unfold inPara, notBlank. rewrite !andb_true_iff. tauto.
Qed.

Lemma notBlank_false (c : Z) : notBlank c = false <-> c = TAB \/ c = SP.
Proof.
  unfold notBlank. rewrite andb_false_iff, !neqb_false. tauto.
Qed.

Lemma notBlank_stop (c : Z) :
  notBlank c = true -> inPara c = false -> c = CR \/ c = LF.
Proof.
  unfold notBlank, inPara.
  rewrite !andb_true_iff, !andb_false_iff, !neqb_true, !neqb_false. tauto.
Qed.

Lemma scanPara_nonneg (m : list Z) : 0 <= scanPara m.
Proof.
  induction m as [|c m IH]; cbn [scanPara]; [lia|]. destruct (inPara c); lia.
Qed.

Lemma scanPara_head_stop (m : list Z) :
  inPara (hd 0 m) = false -> scanPara m = 0.
Proof.
  destruct m as [|c m]; simpl; auto. intros ->. reflexivity.
Qed.

(** The scan does not pass a newline. *)
Lemma scanPara_before_newline (m : list Z) (k : nat) :
  nth k m 0 = LF -> scanPara m <= Z.of_nat k.
Proof.
  revert k. induction m as [|c m IH]; intros k H.
  - cbn [scanPara]. lia.
  - cbn [scanPara]. destruct k as [|k].
    + cbn [nth] in H. subst c. cbn. lia.
    + cbn [nth] in H. apply IH in H. destruct (inPara c); lia.
Qed.

(** It ends on a byte that stops it, or at the end of the memory. *)
Lemma scanPara_ends (m : list Z) :
  inPara (nth (Z.to_nat (scanPara m)) m 0) = false
  \/ scanPara m = len_of m.
Proof.
  induction m as [|c m IH].
  - right. reflexivity.
  - cbn [scanPara]. destruct (inPara c) eqn:E.
    + pose proof (scanPara_nonneg m).
      replace (Z.to_nat (1 + scanPara m)) with (S (Z.to_nat (scanPara m)))
        by lia.
      cbn [nth]. rewrite len_of_cons. destruct IH as [IH|IH]; [left|right];
        [exact IH | lia].
    + left. cbn [Z.to_nat nth]. exact E.
Qed.

Section Terminated.

Variables (cmd : list Z) (len : Z).
Hypothesis Hterm : terminated cmd len.

Lemma scan_stays (i : Z) :
  0 <= i < len -> i + scanPara (from cmd i) < len.
Proof.
  intros Hi. destruct Hterm as [Hlen Hlf].
  assert (H : nth (Z.to_nat (len - 1 - i)) (from cmd i) 0 = LF).
  { pose proof (byteAt_plus cmd i (len - 1 - i)) as E.
    unfold byteAt at 2 in E. rewrite <- E by lia.
    replace (i + (len - 1 - i)) with (len - 1) by lia. exact Hlf. }
  apply scanPara_before_newline in H. lia.
Qed.

Lemma scan_lands (i : Z) :
  0 <= i < len -> inPara (byteAt cmd (i + scanPara (from cmd i))) = false.
Proof.
  intros Hi. pose proof (scan_stays i Hi) as Hs.
  pose proof (scanPara_nonneg (from cmd i)) as Hn.
  rewrite byteAt_plus by lia. unfold byteAt at 1.
  destruct (scanPara_ends (from cmd i)) as [H|H]; auto.
  (* the scan cannot have run to the end of the memory: the newline is
     inside it *)
  exfalso. destruct Hterm as [Hlen Hlf].
  assert (E : byteAt cmd (len - 1) = byteAt (from cmd i) (len - 1 - i)).
  { rewrite <- byteAt_plus by lia. f_equal. lia. }
  rewrite Hlf in E. unfold byteAt in E.
  destruct (Nat.lt_ge_cases (Z.to_nat (len - 1 - i))
              (List.length (from cmd i))) as [L|L].
  - unfold len_of in H. lia.
  - rewrite nth_overflow in E by exact L. discriminate.
Qed.

Lemma newline_not_blank (i : Z) :
  0 <= i < len -> notBlank (byteAt cmd i) = false -> i + 1 < len.
Proof.
  intros Hi Hb. destruct Hterm as [Hlen Hlf].
  destruct (Z.eq_dec i (len - 1)) as [->|]; [|lia].
  rewrite Hlf in Hb. discriminate.
Qed.

End Terminated.

(** ** checkParaNum always returns *)

Lemma checkParaNum_loop_total (cmd : list Z) (len : Z) (fuel : nat) :
  forall i cnt, 0 <= i -> (Z.to_nat (len - i) < fuel)%nat ->
    exists n, checkParaNum_loop fuel cmd len i cnt = Some n /\ cnt <= n.
Proof.
  induction fuel as [|fuel IH]; intros i cnt Hi Hf; [lia|].
  cbn [checkParaNum_loop]. destruct (i <? len) eqn:E.
  - apply Z.ltb_lt in E.
    pose proof (scanPara_nonneg (from cmd i)) as Hs.
    destruct (inPara (byteAt cmd i)).
    + destruct (IH (i + scanPara (from cmd i) + 1) (cnt + 1)) as (n & Hn & Hc);
        [lia | lia |]. exists n. split; [exact Hn | lia].
    + destruct (IH (i + 1) cnt) as (n & Hn & Hc); [lia | lia |].
      exists n. split; [exact Hn | lia].
  - exists cnt. split; [reflexivity | lia].
Qed.

Theorem checkParaNum_total (cmd : list Z) (len : Z) :
  exists n, checkParaNum cmd len = Some n /\ 0 <= n.
Proof.
  unfold checkParaNum. apply checkParaNum_loop_total; lia.
Qed.

Lemma checkParaNum_loop_counts (cmd : list Z) (len : Z) (fuel : nat) :
  forall i cnt n, checkParaNum_loop fuel cmd len i cnt = Some n -> cnt <= n.
Proof.
  induction fuel as [|fuel IH]; intros i cnt n H; [discriminate|].
  cbn [checkParaNum_loop] in H. destruct (i <? len).
  - destruct (inPara (byteAt cmd i)); apply IH in H; lia.
  - injection H as <-. lia.
Qed.

(** ** findPara on a line that holds its newline *)

Lemma findPara_loop_more (cmd : list Z) (len p a0 : Z) (fuel : nat) :
  forall fuel' i cnt r,
    findPara_loop fuel cmd len p a0 i cnt = Some r ->
    (fuel <= fuel')%nat ->
    findPara_loop fuel' cmd len p a0 i cnt = Some r.
Proof.
  induction fuel as [|fuel IH]; intros fuel' i cnt r H Hf; [discriminate|].
  destruct fuel' as [|fuel']; [lia|].
  cbn [findPara_loop] in *. destruct (i <? len); auto.
  destruct (notBlank (byteAt cmd i)).
  - destruct (p =? cnt + 1); auto. apply IH; [exact H | lia].
  - apply IH; [exact H | lia].
Qed.

Section FindPara.

Variables (cmd : list Z) (len : Z).
Hypothesis Hterm : terminated cmd len.
Variables (p a0 : Z).

(** Every index from 1 on is answered with a length, never with -1: the
    scan does not get past the line's first carriage return or newline. *)
Lemma findPara_loop_finds (fuel : nat) :
  forall i cnt,
    0 <= i < len -> 0 <= cnt < p ->
    (Z.to_nat (len - i) + Z.to_nat (p - cnt) <= fuel)%nat ->
    exists n a, findPara_loop fuel cmd len p a0 i cnt = Some (n, a)
                /\ 0 <= n /\ i <= a /\ a + n < len.
Proof.
  induction fuel as [|fuel IH]; intros i cnt Hi Hc Hf; [lia|].
  cbn [findPara_loop]. destruct (i <? len) eqn:E; [|apply Z.ltb_ge in E; lia].
  pose proof (scanPara_nonneg (from cmd i)) as Hs.
  pose proof (scan_stays cmd len Hterm i Hi) as Hst.
  destruct (notBlank (byteAt cmd i)) eqn:Eb.
  - destruct (p =? cnt + 1) eqn:Ep.
    + exists (scanPara (from cmd i)), i. repeat split; auto; lia.
    + apply Z.eqb_neq in Ep.
      destruct (IH (i + scanPara (from cmd i)) (cnt + 1))
        as (n & a & H & Hn & Ha & Han); [lia | lia | lia |].
      exists n, a. repeat split; auto; lia.
  - pose proof (newline_not_blank cmd len Hterm i Hi Eb).
    destruct (IH (i + 1) cnt) as (n & a & H' & Hn & Ha & Han);
      [lia | lia | lia |].
    exists n, a. repeat split; auto; lia.
Qed.

(** On a carriage return or newline the loop stays where it is and counts
    up to the index asked for. *)
Lemma findPara_loop_spins (fuel : nat) :
  forall i cnt r,
    0 <= i < len -> cnt < p ->
    notBlank (byteAt cmd i) = true -> inPara (byteAt cmd i) = false ->
    findPara_loop fuel cmd len p a0 i cnt = Some r -> r = (0, i).
Proof.
  induction fuel as [|fuel IH]; intros i cnt r Hi Hc Hb Hin H; [discriminate|].
  cbn [findPara_loop] in H.
  destruct (i <? len) eqn:E; [|apply Z.ltb_ge in E; lia].
  rewrite Hb in H.
  assert (Hs : scanPara (from cmd i) = 0).
  { apply scanPara_head_stop. rewrite <- byteAt_from. exact Hin. }
  rewrite Hs in H. destruct (p =? cnt + 1) eqn:Ep.
  - congruence.
  - apply Z.eqb_neq in Ep. rewrite Z.add_0_r in H.
    apply (IH i (cnt + 1)); auto. lia.
Qed.

(** An index beyond [checkParaNum]'s count is answered with length 0. *)
Lemma findPara_loop_beyond (fuel : nat) :
  forall i cnt r total,
    0 <= i < len ->
    (exists fuel', checkParaNum_loop fuel' cmd len i cnt = Some total) ->
    total < p ->
    findPara_loop fuel cmd len p a0 i cnt = Some r ->
    fst r = 0 /\ inPara (byteAt cmd (snd r)) = false
    /\ notBlank (byteAt cmd (snd r)) = true.
Proof.
  induction fuel as [|fuel IH]; intros i cnt r total Hi [fuel' Hck] Hp H;
    [discriminate|].
  pose proof (checkParaNum_loop_counts _ _ _ _ _ _ Hck) as Hcnt.
  destruct (inPara (byteAt cmd i)) eqn:Ein.
  - (* inside a parameter: both loops count it *)
    destruct fuel' as [|fuel']; [discriminate|].
    cbn [checkParaNum_loop] in Hck. cbn [findPara_loop] in H.
    destruct (i <? len) eqn:E; [|apply Z.ltb_ge in E; lia].
    rewrite Ein in Hck. rewrite (inPara_notBlank _ Ein) in H.
    pose proof (checkParaNum_loop_counts _ _ _ _ _ _ Hck) as Hcnt'.
    destruct (p =? cnt + 1) eqn:Ep; [apply Z.eqb_eq in Ep; lia|].
    pose proof (scanPara_nonneg (from cmd i)) as Hs.
    pose proof (scan_stays cmd len Hterm i Hi) as Hst.
    pose proof (scan_lands cmd len Hterm i Hi) as Hl.
    apply (IH (i + scanPara (from cmd i)) (cnt + 1) r total); auto; [lia|].
    exists (S fuel'). cbn [checkParaNum_loop].
    destruct (i + scanPara (from cmd i) <? len) eqn:E';
      [|apply Z.ltb_ge in E'; lia].
    rewrite Hl. exact Hck.
  - destruct (notBlank (byteAt cmd i)) eqn:Eb.
    + (* a carriage return or newline *)
      apply findPara_loop_spins in H; auto; [|lia].
      subst r. simpl. auto.
    + (* a tab or space *)
      destruct fuel' as [|fuel']; [discriminate|].
      cbn [checkParaNum_loop] in Hck. cbn [findPara_loop] in H.
      destruct (i <? len) eqn:E; [|apply Z.ltb_ge in E; lia].
      rewrite Ein in Hck. rewrite Eb in H.
      pose proof (newline_not_blank cmd len Hterm i Hi Eb).
      apply (IH (i + 1) cnt r total); auto; [lia|].
      exists fuel'. exact Hck.
Qed.

End FindPara.

(** [findPara] returns a length for every index from 1 on. *)
Theorem findPara_never_NotFound (cmd : list Z) (len p a0 : Z) :
  terminated cmd len -> 1 <= p ->
  exists n a, findPara cmd len p a0 = Some (n, a) /\ 0 <= n /\ 0 <= a
              /\ a + n < len.
Proof.
  intros Hterm Hp. unfold findPara, findPara_fuel.
  destruct Hterm as [Hlen Hlf].
  destruct (findPara_loop_finds cmd len (conj Hlen Hlf) p a0
              (S (Z.to_nat len + Z.to_nat p)) 0 0)
    as (n & a & H & Hn & Ha & Han); [lia | lia | lia |].
  exists n, a. auto.
Qed.

(** X1. Past the number of parameters that [checkParaNum] counts, the length
    is 0 and the address is that of a carriage return or newline. *)
Theorem findPara_beyond_count (cmd : list Z) (len p a0 total : Z) :
  terminated cmd len -> checkParaNum cmd len = Some total -> total < p ->
  exists a, findPara cmd len p a0 = Some (0, a)
            /\ (byteAt cmd a = CR \/ byteAt cmd a = LF).
Proof.
  intros Hterm Hck Hp.
  destruct (checkParaNum_total cmd len) as (n & Hn & Hn0).
  assert (n = total) by congruence. subst n.
  destruct (findPara_never_NotFound cmd len p a0 Hterm) as (n & a & H & _);
    [lia|].
  pose proof H as H'. unfold findPara in H'.
  apply (findPara_loop_beyond cmd len Hterm p a0 _ 0 0 (n, a) total) in H'.
  - simpl in H'. destruct H' as (-> & Hin & Hb).
    exists a. split; [exact H|]. apply notBlank_stop; auto.
  - destruct Hterm. lia.
  - exists (S (Z.to_nat len)). exact Hck.
  - exact Hp.
Qed.

(** ** A command word and one argument *)

Lemma graphic_inPara (c : Z) : graphic c -> inPara c = true.
Proof.
  unfold graphic, inPara, TAB, SP, CR, LF. intros H.
  rewrite !andb_true_iff, !neqb_true. lia.
Qed.

Lemma graphic_not_space (c : Z) : graphic c -> isspace c = false.
Proof.
  unfold graphic, isspace. intros H.
  rewrite orb_false_iff, andb_false_iff, Z.eqb_neq, !Z.leb_gt. lia.
Qed.

Lemma token_pos (t : list Z) : token t -> 0 < len_of t.
Proof.
  intros [H _]. destruct t; [congruence|]. rewrite len_of_cons.
  pose proof (len_of_nonneg t). lia.
Qed.

Lemma blanks_pos (b : list Z) : blanks b -> 0 < len_of b.
Proof.
  intros [H _]. destruct b; [congruence|]. rewrite len_of_cons.
  pose proof (len_of_nonneg b). lia.
Qed.

Lemma token_head (t r : list Z) : token t -> graphic (hd 0 (t ++ r)).
Proof.
  intros [H F]. destruct t; [congruence|]. inversion F; auto.
Qed.

Lemma blanks_head (b r : list Z) :
  blanks b -> inPara (hd 0 (b ++ r)) = false.
Proof.
  intros [H F]. destruct b as [|c b]; [congruence|]. inversion F; subst.
  apply inPara_stop. simpl. tauto.
Qed.

Lemma scanPara_graphic (t r : list Z) :
  Forall graphic t -> inPara (hd 0 r) = false ->
  scanPara (t ++ r) = len_of t.
Proof.
  intros F Hr. induction F as [|c t Hc F IH].
  - simpl. apply scanPara_head_stop. exact Hr.
  - rewrite <- app_comm_cons. cbn [scanPara].
    rewrite (graphic_inPara c Hc), IH, len_of_cons. reflexivity.
Qed.

Section Steps.

Variables (cmd : list Z) (len p a0 : Z).

Lemma findPara_loop_token (fuel : nat) (i cnt : Z) (t r : list Z) :
  0 <= i < len -> from cmd i = t ++ r -> token t ->
  inPara (hd 0 r) = false ->
  findPara_loop (S fuel) cmd len p a0 i cnt =
  if p =? cnt + 1 then Some (len_of t, i)
  else findPara_loop fuel cmd len p a0 (i + len_of t) (cnt + 1).
Proof.
  intros Hi Hf Ht Hr. cbn [findPara_loop].
  destruct (i <? len) eqn:E; [|apply Z.ltb_ge in E; lia].
  rewrite byteAt_from, Hf.
  rewrite (inPara_notBlank _ (graphic_inPara _ (token_head t r Ht))).
  rewrite (scanPara_graphic t r (proj2 Ht) Hr). reflexivity.
Qed.

Lemma findPara_loop_blanks (b : list Z) :
  Forall (fun c => c = TAB \/ c = SP) b ->
  forall (fuel : nat) (i cnt : Z) (r : list Z),
    0 <= i -> i + len_of b <= len -> from cmd i = b ++ r ->
    findPara_loop (List.length b + fuel) cmd len p a0 i cnt =
    findPara_loop fuel cmd len p a0 (i + len_of b) cnt.
Proof.
  induction 1 as [|c b Hc F IH]; intros fuel i cnt r Hi Hl Hf.
  - simpl. unfold len_of. simpl. rewrite Z.add_0_r. reflexivity.
  - rewrite len_of_cons in *. pose proof (len_of_nonneg b).
    cbn [List.length Nat.add findPara_loop].
    destruct (i <? len) eqn:E; [|apply Z.ltb_ge in E; lia].
    rewrite byteAt_from, Hf. cbn [app hd].
    rewrite (proj2 (notBlank_false c) Hc).
    rewrite (IH fuel (i + 1) cnt r); [f_equal; lia | lia | lia |].
    apply (from_step cmd i c); auto.
Qed.

Lemma findPara_loop_stop (fuel : nat) :
  forall (i cnt : Z),
    0 <= i < len -> cnt < p ->
    byteAt cmd i = CR \/ byteAt cmd i = LF ->
    (Z.to_nat (p - cnt) <= fuel)%nat ->
    findPara_loop fuel cmd len p a0 i cnt = Some (0, i).
Proof.
  induction fuel as [|fuel IH]; intros i cnt Hi Hc Hb Hf; [lia|].
  cbn [findPara_loop].
  destruct (i <? len) eqn:E; [|apply Z.ltb_ge in E; lia].
  assert (Hnb : notBlank (byteAt cmd i) = true)
    by (destruct Hb as [-> | ->]; reflexivity).
  assert (Hs : scanPara (from cmd i) = 0).
  { apply scanPara_head_stop. rewrite <- byteAt_from.
    destruct Hb as [-> | ->]; reflexivity. }
  rewrite Hnb, Hs. destruct (p =? cnt + 1) eqn:Ep; [reflexivity|].
  apply Z.eqb_neq in Ep. rewrite Z.add_0_r. apply IH; auto; lia.
Qed.

End Steps.

(** The buffer holds a command word, a separator, one argument and then a
    carriage return or newline; what follows is arbitrary. *)
Section OneArgument.

Variables (w b t rest : list Z) (c : Z) (len a0 : Z).
Hypothesis Hw : token w.
Hypothesis Hb : blanks b.
Hypothesis Ht : token t.
Hypothesis Hc : c = CR \/ c = LF.
Hypothesis Hlen : len_of w + len_of b + len_of t < len.

Local Abbreviation cmd0 := (w ++ b ++ t ++ c :: rest).

Lemma oneArg_from_b : from cmd0 (len_of w) = b ++ t ++ c :: rest.
Proof. apply from_app. Qed.

Lemma oneArg_from_t : from cmd0 (len_of w + len_of b) = t ++ c :: rest.
Proof.
  rewrite app_assoc, <- len_of_app. apply from_app.
Qed.

Lemma oneArg_from_c :
  from cmd0 (len_of w + len_of b + len_of t) = c :: rest.
Proof.
  replace (w ++ b ++ t ++ c :: rest) with (((w ++ b) ++ t) ++ c :: rest)
    by (rewrite <- !app_assoc; reflexivity).
  rewrite <- !len_of_app. apply from_app.
Qed.

Lemma stop_c : inPara c = false.
Proof. destruct Hc as [-> | ->]; reflexivity. Qed.

Lemma oneArg_first : findPara cmd0 len 1 a0 = Some (len_of w, 0).
Proof.
  pose proof (token_pos w Hw). pose proof (blanks_pos b Hb).
  pose proof (token_pos t Ht).
  unfold findPara, findPara_fuel.
  rewrite (findPara_loop_token cmd0 len 1 a0 _ 0 0 w (b ++ t ++ c :: rest));
    auto; [lia | apply blanks_head; exact Hb].
Qed.

Lemma oneArg_second :
  findPara cmd0 len 2 a0 = Some (len_of t, len_of w + len_of b).
Proof.
  pose proof (token_pos w Hw). pose proof (blanks_pos b Hb).
  pose proof (token_pos t Ht).
  unfold findPara.
  apply (findPara_loop_more cmd0 len 2 a0 (S (List.length b + 1))).
  2:{ unfold findPara_fuel, len_of in *. lia. }
  rewrite (findPara_loop_token cmd0 len 2 a0 _ 0 0 w (b ++ t ++ c :: rest));
    auto; [| lia | apply blanks_head; exact Hb].
  cbn [Z.eqb Z.add Pos.eqb].
  rewrite (findPara_loop_blanks cmd0 len 2 a0 b (proj2 Hb) 1 _ _
             (t ++ c :: rest)); [| lia | lia | apply oneArg_from_b].
  rewrite (findPara_loop_token cmd0 len 2 a0 _ _ _ t (c :: rest));
    auto; [lia | apply oneArg_from_t | apply stop_c].
Qed.

Lemma oneArg_third :
  findPara cmd0 len 3 a0 = Some (0, len_of w + len_of b + len_of t).
Proof.
  pose proof (token_pos w Hw). pose proof (blanks_pos b Hb).
  pose proof (token_pos t Ht).
  unfold findPara.
  apply (findPara_loop_more cmd0 len 3 a0 (S (List.length b + 2))).
  2:{ unfold findPara_fuel, len_of in *. lia. }
  rewrite (findPara_loop_token cmd0 len 3 a0 _ 0 0 w (b ++ t ++ c :: rest));
    auto; [| lia | apply blanks_head; exact Hb].
  cbn [Z.eqb Z.add Pos.eqb].
  rewrite (findPara_loop_blanks cmd0 len 3 a0 b (proj2 Hb) 2 _ _
             (t ++ c :: rest)); [| lia | lia | apply oneArg_from_b].
  rewrite (findPara_loop_token cmd0 len 3 a0 _ _ _ t (c :: rest));
    auto; [| lia | apply oneArg_from_t | apply stop_c].
  cbn [Z.eqb Z.add Pos.eqb].
  apply findPara_loop_stop; [lia | lia | | simpl; lia].
  rewrite byteAt_from, oneArg_from_c. exact Hc.
Qed.

End OneArgument.

(** ** atoi on a token *)

Lemma atoi_digits_cut (t r : list Z) (c : Z) :
  isdigit c = false ->
  forall acc, atoi_digits (t ++ c :: r) acc = atoi_digits t acc.
Proof.
  intros Hc. induction t as [|x t IH]; intros acc.
  - simpl. rewrite Hc. reflexivity.
  - rewrite <- app_comm_cons. cbn [atoi_digits]. rewrite IH. reflexivity.
Qed.

Lemma atoi_cut (t r : list Z) (c : Z) :
  token t -> isdigit c = false -> atoi (t ++ c :: r) = atoi t.
Proof.
  intros [Hne F] Hc. destruct t as [|x t]; [congruence|].
  inversion F as [|? ? Hx _]; subst.
  rewrite <- app_comm_cons. cbn [atoi].
  rewrite (graphic_not_space x Hx).
  rewrite !(atoi_digits_cut t r c Hc).
  destruct (x =? 45); auto. destruct (x =? 43); auto.
  cbn [atoi_digits]. rewrite (atoi_digits_cut t r c Hc). reflexivity.
Qed.

(** ** Decimal text *)

Lemma decimal_from_value (fuel : nat) :
  forall v acc, 0 <= v -> (Z.to_nat v < fuel)%nat ->
    atoi_digits (decimal_from fuel v acc) 0 = atoi_digits acc v.
Proof.
  induction fuel as [|fuel IH]; intros v acc Hv Hf; [lia|].
  cbn [decimal_from]. destruct (v <? 10) eqn:E.
  - apply Z.ltb_lt in E. cbn [atoi_digits].
    rewrite Z.mod_small by lia.
    replace (isdigit (48 + v)) with true
      by (symmetry; unfold isdigit; apply andb_true_iff; lia).
    f_equal. lia.
  - apply Z.ltb_ge in E.
    rewrite IH; [| apply Z.div_pos; lia |].
    + cbn [atoi_digits].
      pose proof (Z.mod_pos_bound v 10 ltac:(lia)).
      replace (isdigit (48 + v mod 10)) with true
        by (symmetry; unfold isdigit; apply andb_true_iff; lia).
      f_equal. pose proof (Z.div_mod v 10 ltac:(lia)). lia.
    + assert (v / 10 < v) by (apply Z.div_lt; lia). lia.
Qed.

Lemma decimal_from_shape (fuel : nat) :
  forall v acc, 0 <= v -> (Z.to_nat v < fuel)%nat ->
    exists d ds, decimal_from fuel v acc = d :: ds ++ acc
                 /\ digit d /\ (d = 48 -> v = 0) /\ Forall digit ds.
Proof.
  induction fuel as [|fuel IH]; intros v acc Hv Hf; [lia|].
  cbn [decimal_from]. destruct (v <? 10) eqn:E.
  - apply Z.ltb_lt in E. exists (48 + v mod 10), [].
    rewrite Z.mod_small by lia. unfold digit.
    split; [reflexivity|]. split; [lia|]. split; [lia | constructor].
  - apply Z.ltb_ge in E.
    assert (H1 : v / 10 < v) by (apply Z.div_lt; lia).
    assert (H2 : 1 <= v / 10)
      by (apply Z.div_le_lower_bound; lia).
    destruct (IH (v / 10) ((48 + v mod 10) :: acc))
      as (d & ds & Heq & Hd & Hz & Hds); [lia | lia |].
    exists d, (ds ++ [48 + v mod 10]). rewrite Heq, <- app_assoc.
    split; [reflexivity|]. split; [exact Hd|].
    split; [intros Ed; apply Hz in Ed; lia|].
    apply Forall_app. split; auto. constructor; auto.
    pose proof (Z.mod_pos_bound v 10 ltac:(lia)). unfold digit. lia.
Qed.

Lemma decimal_shape (v : Z) :
  0 <= v ->
  exists d ds, decimal v = d :: ds /\ digit d /\ (d = 48 -> v = 0)
               /\ Forall digit ds.
Proof.
  intros Hv. destruct (decimal_from_shape (S (Z.to_nat v)) v [])
    as (d & ds & Heq & H); [lia | lia |].
  exists d, ds. rewrite app_nil_r in Heq. auto.
Qed.

Lemma digit_graphic (c : Z) : digit c -> graphic c.
Proof. unfold digit, graphic. lia. Qed.

Lemma decimal_token (v : Z) : 0 <= v -> token (decimal v).
Proof.
  intros Hv. destruct (decimal_shape v Hv) as (d & ds & -> & Hd & _ & Hds).
  split; [discriminate|]. constructor.
  - apply digit_graphic, Hd.
  - eapply Forall_impl; [|exact Hds]. apply digit_graphic.
Qed.

Lemma decimal_head (v : Z) : 0 < v -> hd 0 (decimal v) <> 48.
Proof.
  intros Hv. destruct (decimal_shape v) as (d & ds & -> & _ & Hz & _);
    [lia|]. simpl. intros E. apply Hz in E. lia.
Qed.

(** Reading the decimal text of a number gives the number back. *)
Lemma atoi_decimal (v : Z) : 0 <= v -> atoi (decimal v) = v.
Proof.
  intros Hv. destruct (decimal_shape v Hv) as (d & ds & Heq & Hd & _).
  pose proof (decimal_from_value (S (Z.to_nat v)) v [] Hv ltac:(lia)) as H.
  fold (decimal v) in H. cbn [atoi_digits] in H. rewrite <- H at 2.
  rewrite Heq. cbn [atoi].
  rewrite (graphic_not_space d (digit_graphic d Hd)).
  unfold digit in Hd.
  destruct (d =? 45) eqn:E1; [apply Z.eqb_eq in E1; lia|].
  destruct (d =? 43) eqn:E2; [apply Z.eqb_eq in E2; lia|].
  reflexivity.
Qed.

(** ** What a handler did *)

Lemma calls_app (a b : list event) : calls (a ++ b) = calls a ++ calls b.
Proof.
  induction a as [|e a IH]; simpl; auto. destruct e; simpl; congruence.
Qed.

Ltac quiet :=
  repeat first
    [ rewrite calls_app
    | match goal with
      | |- context [if ?c then _ else _] => destruct c
      end ];
  try reflexivity.

Lemma calls_printSeperator : calls printSeperator = [].
Proof. reflexivity. Qed.

Lemma calls_printTrain (b : list Z) (l : Z) : calls (printTrain b l) = [].
Proof.
  assert (H : forall fuel i, calls (printTrain_from fuel b l i) = []).
  { induction fuel as [|fuel IH]; intros i; cbn [printTrain_from]; auto.
    destruct (i <? l - 1); auto. rewrite !calls_app, IH. quiet. }
  unfold printTrain. destruct (l =? 0); auto. rewrite !calls_app, H. quiet.
Qed.

Lemma calls_printLoad (b : list Z) (l : Z) : calls (printLoad b l) = [].
Proof.
  assert (H : forall fuel i, calls (printLoad_from fuel b l i) = []).
  { induction fuel as [|fuel IH]; intros i; cbn [printLoad_from]; auto.
    destruct (i <? l - 1); auto. rewrite !calls_app, IH. quiet. }
  unfold printLoad. destruct (l =? 0); auto. rewrite !calls_app, H. quiet.
Qed.

Lemma calls_printCheckRecord (b : list Z) (n : Z) :
  calls (printCheckRecord b n) = [].
Proof.
  assert (H : forall fuel i, calls (printCheckRecord_from fuel b i) = []).
  { induction fuel as [|fuel IH]; intros i; cbn [printCheckRecord_from]; auto.
    destruct (i <? byteAt b 0 * 2); auto. rewrite !calls_app, IH. quiet. }
  unfold printCheckRecord. rewrite !calls_app, H. quiet.
Qed.

Lemma calls_printSignature (b : list Z) (l : Z) :
  calls (printSignature b l) = [].
Proof.
  unfold printSignature. generalize 0 at 1. generalize (Z.to_nat l).
  induction n as [|n IH]; intros i; cbn [printSignature_from]; auto.
  rewrite calls_app, IH. quiet.
Qed.

Lemma calls_printSigTrain (b : list Z) (l : Z) :
  calls (printSigTrain b l) = [].
Proof. unfold printSigTrain, serialWrite. quiet. Qed.

Ltac told :=
  cbn [out]; rewrite ?calls_app, ?calls_printTrain, ?calls_printLoad,
    ?calls_printCheckRecord, ?calls_printSigTrain, ?calls_printSignature,
    ?calls_printSeperator;
  cbn [calls app]; rewrite ?app_nil_r; reflexivity.

Ltac settle := eexists; (split; [reflexivity | told]).

(** ** The record array *)

Lemma store_first (a : list Z) (v : Z) :
  a <> [] -> byteAt (store a 0 v) 0 = v /\ firstn 1 (store a 0 v) = [v].
Proof. destruct a; [congruence|]. intros _. split; reflexivity. Qed.

Lemma records_nonempty {D : Type} (s : state D) :
  List.length (records s) = 7%nat -> records s <> [].
Proof. destruct (records s); simpl; congruence. Qed.

Lemma span_closed (a n : Z) : int16 (n + uint16 (a - (a + n))) = 0.
Proof.
  unfold int16, uint16. replace (a - (a + n)) with (- n) by lia.
  Z.div_mod_to_equations. lia.
Qed.

(** ** The handlers on a command with one argument *)

Section OneRecord.

Variables (D : Type) (myVR : VR D) (s : state D).
Variables (w b t rest : list Z) (c : Z) (len : Z).
Hypothesis Hw : token w.
Hypothesis Hb : blanks b.
Hypothesis Ht : token t.
Hypothesis Hc : c = CR \/ c = LF.
Hypothesis Hcmd : cmd s = w ++ b ++ t ++ c :: rest.
Hypothesis Hlen : len_of w + len_of b + len_of t < len.
Hypothesis Hrec : List.length (records s) = 7%nat.

Local Abbreviation at_t := (len_of w + len_of b).

Lemma stop_not_digit : isdigit c = false.
Proof. destruct Hc as [-> | ->]; reflexivity. Qed.

Lemma recordArg_oneArg :
  recordArg len 2 0 s =
  Some (refused t,
        mkState (cmd s) at_t (buf s) (store (records s) 0 (stored t)) (dev s)
                (out s)).
Proof.
  pose proof (oneArg_second w b t rest c len (paraAddr s) Hw Hb Ht Hc Hlen)
    as H2.
  pose proof (oneArg_from_t w b t rest c) as Hf.
  rewrite <- Hcmd in H2, Hf.
  unfold recordArg, bind, findParaG. rewrite H2.
  unfold set_paraAddr, set_record, ret, get, bind.
  cbn [cmd paraAddr records buf dev out].
  rewrite Hf, (atoi_cut t rest c Ht stop_not_digit).
  destruct (store_first (records s) (uint8 (atoi t)) (records_nonempty s Hrec))
    as [Hs _].
  change (Z.to_nat 0) with 0%nat. rewrite Hs, byteAt_from, Hf.
  destruct Ht as [Hne _]. destruct t; [congruence|]. reflexivity.
Qed.

Lemma first_oneArg :
  byteAt (store (records s) 0 (stored t)) 0 = stored t.
Proof.
  apply (store_first (records s) (stored t) (records_nonempty s Hrec)).
Qed.

Ltac run_on r b' d' f :=
  unfold bind, get, delegate, passed, ret, emit;
  cbn [records dev buf out cmd paraAddr];
  change (Z.to_nat (2 - 1)) with 1%nat;
  rewrite ?first_oneArg;
  destruct f as [[r b'] d'].

Lemma cmdGetSig_oneArg :
  if refused t then rejected (cmdGetSig myVR len 2 s) s
  else delegated (cmdGetSig myVR len 2 s) s (CheckSignature (stored t)).
Proof.
  destruct (refused t) eqn:E; unfold rejected, delegated, cmdGetSig;
    change (2 !=? 2) with false; cbv iota;
    unfold bind at 1; rewrite recordArg_oneArg, E.
  - eexists. split; reflexivity.
  - run_on r b' d' (vr_checkSignature myVR (dev s) (stored t) (buf s)).
    destruct (r =? 0); [settle|]. destruct (0 <? r); settle.
Qed.

Lemma cmdSigTrain_oneArg :
  if refused t then rejected (cmdSigTrain myVR len 2 s) s
  else delegated (cmdSigTrain myVR len 2 s) s
         (TrainWithSignature (stored t)
            (len_of w + len_of b + len_of t) 0).
Proof.
  pose proof (fun a0 => oneArg_second w b t rest c len a0 Hw Hb Ht Hc Hlen)
    as H2.
  pose proof (fun a0 => oneArg_third w b t rest c len a0 Hw Hb Ht Hc Hlen)
    as H3.
  rewrite <- Hcmd in H2, H3.
  destruct (refused t) eqn:E; unfold rejected, delegated, cmdSigTrain;
    change (2 <? 2) with false; cbv iota;
    unfold bind at 1; rewrite recordArg_oneArg, E.
  - eexists. split; reflexivity.
  - unfold bind at 1. unfold findParaG. cbn [cmd paraAddr]. rewrite H3.
    unfold bind at 1. unfold set_paraAddr at 1.
    cbn [cmd paraAddr buf records dev out].
    unfold ret at 1.
    unfold bind at 1. unfold findParaL. cbn [cmd]. rewrite H2.
    unfold bind at 1. unfold get at 1. cbn [paraAddr].
    rewrite span_closed.
    run_on r b' d'
      (vr_trainWithSignature myVR (dev s) (stored t) (cmd s)
         (at_t + len_of t) 0 (buf s)).
    destruct (0 <=? r); settle.
Qed.

End OneRecord.

(** ** Any number of arguments *)

Lemma body_cons (b t : list Z) (segs : list (list Z * list Z)) :
  body ((b, t) :: segs) = b ++ t ++ body segs.
Proof. unfold body. cbn [flat_map fst snd]. rewrite app_assoc. reflexivity. Qed.

Lemma stop_not_a_digit (x : Z) : inPara x = false -> isdigit x = false.
Proof.
  intros H. apply inPara_stop in H.
  destruct H as [-> | [-> | [-> | ->]]]; reflexivity.
Qed.

Lemma body_then_stop (segs : list (list Z * list Z)) (c : Z)
  (rest : list Z) :
  segments segs -> inPara c = false ->
  exists x r, body segs ++ c :: rest = x :: r /\ inPara x = false.
Proof.
  intros Hs Hc. destruct Hs as [|[b t] segs [Hb Ht] Hs].
  - exists c, rest. auto.
  - rewrite body_cons. cbn [fst] in Hb. destruct Hb as [Hne Hf].
    destruct b as [|x b]; [congruence|]. inversion Hf; subst.
    exists x, (b ++ t ++ body segs ++ c :: rest). split.
    + rewrite <- !app_assoc. reflexivity.
    + apply inPara_stop. tauto.
Qed.

Section Segments.

Variables (cmd : list Z) (len p a0 : Z) (c : Z) (rest : list Z).
Hypothesis Hc : inPara c = false.

Lemma findPara_loop_segments (segs : list (list Z * list Z)) :
  segments segs ->
  forall (k : nat) (i cnt : Z) (b t : list Z),
    nth_error segs k = Some (b, t) ->
    0 <= i -> i + len_of (body segs) < len ->
    from cmd i = body segs ++ c :: rest ->
    p = cnt + Z.of_nat k + 1 ->
    findPara_loop (List.length (body segs)) cmd len p a0 i cnt
    = Some (len_of t, i + offset segs k)
    /\ exists x r, from cmd (i + offset segs k) = t ++ x :: r
                   /\ inPara x = false.
Proof.
  induction 1 as [|[b0 t0] segs [Hb Ht] Hs IH];
    intros k i cnt b t Hk Hi Hlen Hfrom Hp.
  - destruct k; discriminate.
  - cbn [fst snd] in Hb, Ht.
    rewrite body_cons in Hfrom, Hlen |- *.
    rewrite !len_of_app in Hlen.
    pose proof (blanks_pos b0 Hb) as Hb0. pose proof (token_pos t0 Ht) as Ht0.
    pose proof (len_of_nonneg (body segs)) as Hbody.
    assert (Hfrom_t : from cmd (i + len_of b0) = t0 ++ body segs ++ c :: rest).
    { rewrite from_plus by lia. rewrite Hfrom, <- app_assoc.
      rewrite from_app. rewrite <- app_assoc. reflexivity. }
    assert (Hfrom_n : from cmd (i + len_of b0 + len_of t0)
                      = body segs ++ c :: rest).
    { rewrite from_plus by lia. rewrite Hfrom_t. apply from_app. }
    destruct (body_then_stop segs c rest Hs Hc) as (x & r & Ex & Hx).
    rewrite length_app.
    rewrite (findPara_loop_blanks cmd len p a0 b0 (proj2 Hb) _ i cnt
               ((t0 ++ body segs) ++ c :: rest));
      [| lia | lia | rewrite Hfrom, <- !app_assoc; reflexivity].
    assert (Hfuel : exists f, List.length (t0 ++ body segs) = S f
                              /\ (List.length (body segs) <= f)%nat).
    { destruct Ht as [Hne _]. destruct t0 as [|y t0]; [congruence|].
      exists (List.length (t0 ++ body segs)). split; [reflexivity|].
      rewrite length_app. lia. }
    destruct Hfuel as (f & -> & Hf).
    rewrite (findPara_loop_token cmd len p a0 f (i + len_of b0) cnt t0
               (body segs ++ c :: rest)); [| lia | exact Hfrom_t | exact Ht |].
    2:{ rewrite Ex. exact Hx. }
    destruct k as [|k].
    + (* the first token of the body is the one asked for *)
      cbn [nth_error] in Hk. injection Hk as <- <-.
      replace (p =? cnt + 1) with true by (symmetry; apply Z.eqb_eq; lia).
      unfold offset. cbn [firstn nth fst body flat_map].
      change (len_of []) with 0. rewrite Z.add_0_l. split; [reflexivity|].
      exists x, r. rewrite Hfrom_t, Ex. auto.
    + cbn [nth_error] in Hk.
      replace (p =? cnt + 1) with false by (symmetry; apply Z.eqb_neq; lia).
      destruct (IH k (i + len_of b0 + len_of t0) (cnt + 1) b t Hk)
        as [Hfind Hnext]; [lia | lia | exact Hfrom_n | lia |].
      assert (Hoff : offset ((b0, t0) :: segs) (S k)
                     = len_of b0 + len_of t0 + offset segs k).
      { unfold offset. cbn [firstn nth]. rewrite body_cons, !len_of_app. lia. }
      rewrite Hoff.
      replace (i + (len_of b0 + len_of t0 + offset segs k))
        with (i + len_of b0 + len_of t0 + offset segs k) by lia.
      split; [|exact Hnext].
      apply (findPara_loop_more cmd len p a0 (List.length (body segs)));
        [exact Hfind | exact Hf].
Qed.

End Segments.

(** The buffer holds a command word and then any number of arguments, ended
    by a carriage return or newline. *)
Section Arguments.

Variables (w : list Z) (segs : list (list Z * list Z)) (c : Z)
          (rest : list Z) (len : Z).
Hypothesis Hw : token w.
Hypothesis Hsegs : segments segs.
Hypothesis Hc : c = CR \/ c = LF.
Hypothesis Hlen : len_of w + len_of (body segs) < len.

Local Abbreviation cmd0 := (w ++ body segs ++ c :: rest).

Lemma findPara_argument (k : nat) (b t : list Z) (a0 : Z) :
  nth_error segs k = Some (b, t) ->
  findPara cmd0 len (Z.of_nat k + 2) a0
  = Some (len_of t, len_of w + offset segs k)
  /\ exists x r, from cmd0 (len_of w + offset segs k) = t ++ x :: r
                 /\ inPara x = false.
Proof.
  intros Hk.
  assert (Hstop : inPara c = false) by (destruct Hc as [-> | ->]; reflexivity).
  pose proof (token_pos w Hw) as Hw0.
  pose proof (len_of_nonneg (body segs)) as Hb0.
  destruct (findPara_loop_segments cmd0 len (Z.of_nat k + 2) a0 c rest Hstop
              segs Hsegs k (len_of w) 1 b t Hk)
    as [Hfind Hnext]; [lia | lia | apply from_app | lia |].
  split; [|exact Hnext].
  destruct (body_then_stop segs c rest Hsegs Hstop) as (x & r & Ex & Hx).
  unfold findPara, findPara_fuel.
  rewrite (findPara_loop_token cmd0 len (Z.of_nat k + 2) a0 _ 0 0 w
             (body segs ++ c :: rest)); [| lia | reflexivity | exact Hw |].
  2:{ rewrite Ex. exact Hx. }
  replace (Z.of_nat k + 2 =? 0 + 1) with false
    by (symmetry; apply Z.eqb_neq; lia).
  apply (findPara_loop_more cmd0 len (Z.of_nat k + 2) a0
           (List.length (body segs))); [exact Hfind|].
  unfold len_of in *. lia.
Qed.

End Arguments.

(** ** The record array, entry by entry *)

Lemma length_store (a : list Z) (k : nat) (v : Z) :
  List.length (store a k v) = List.length a.
Proof.
  revert k. induction a as [|x a IH]; intros [|k]; simpl; auto.
Qed.

Lemma store_same (a : list Z) (k : nat) (v : Z) :
  (k < List.length a)%nat -> byteAt (store a k v) (Z.of_nat k) = v.
Proof.
  unfold byteAt. rewrite Nat2Z.id. revert k.
  induction a as [|x a IH]; intros [|k] H; simpl in *; try lia; auto.
  apply IH. lia.
Qed.

Lemma firstn_store (a : list Z) (k : nat) (v : Z) :
  (k < List.length a)%nat ->
  firstn (S k) (store a k v) = firstn k a ++ [v].
Proof.
  revert k. induction a as [|x a IH]; intros [|k] H; simpl in *; try lia; auto.
  f_equal. apply IH. lia.
Qed.

Lemma skipn_nth_error {A : Type} (l : list A) (j : nat) (x : A) :
  nth_error l j = Some x -> skipn j l = x :: skipn (S j) l.
Proof.
  revert j. induction l as [|y l IH]; intros [|j] H; simpl in *;
    try discriminate.
  - congruence.
  - apply IH. exact H.
Qed.

(** ** The handlers on a command with several arguments *)

Section Records.

Variable D : Type.
Variables (w : list Z) (segs : list (list Z * list Z)) (c : Z)
          (rest : list Z) (len : Z).
Hypothesis Hw : token w.
Hypothesis Hsegs : segments segs.
Hypothesis Hc : c = CR \/ c = LF.
Hypothesis Hlen : len_of w + len_of (body segs) < len.

Local Abbreviation cmd0 := (w ++ body segs ++ c :: rest).
Local Abbreviation ts := (map snd segs).

Lemma recordArg_argument (s1 : state D) (k : nat) (b t : list Z) :
  nth_error segs k = Some (b, t) ->
  cmd s1 = cmd0 ->
  (k < List.length (records s1))%nat ->
  recordArg len (Z.of_nat k + 2) (Z.of_nat k) s1 =
  Some (refused t,
        mkState (cmd s1) (len_of w + offset segs k) (buf s1)
                (store (records s1) k (stored t)) (dev s1) (out s1)).
Proof.
  intros Hk Hcmd Hrec.
  destruct (findPara_argument w segs c rest len Hw Hsegs Hc Hlen k b t
              (paraAddr s1) Hk) as (Hfind & x & r & Hfrom & Hx).
  rewrite <- Hcmd in Hfind, Hfrom.
  unfold recordArg, bind, findParaG. rewrite Hfind.
  unfold set_paraAddr, set_record, ret, get, bind.
  cbn [cmd paraAddr records buf dev out].
  assert (Ht : token t).
  { apply nth_error_In in Hk. unfold segments in Hsegs.
    rewrite Forall_forall in Hsegs. apply (Hsegs _ Hk). }
  rewrite Hfrom, (atoi_cut t r x Ht (stop_not_a_digit x Hx)).
  rewrite Nat2Z.id. fold (stored t).
  rewrite (store_same _ _ _ Hrec), byteAt_from, Hfrom.
  destruct Ht as [Hne _]. destruct t; [congruence|]. reflexivity.
Qed.

Lemma recordArgs_arguments (n : nat) :
  forall (j : nat) (s1 : state D),
    cmd s1 = cmd0 ->
    (j + n <= List.length segs)%nat ->
    (j + n <= List.length (records s1))%nat ->
    exists s',
      recordArgs n len (Z.of_nat j + 2) s1
      = Some (existsb refused (firstn n (skipn j ts)), s')
      /\ cmd s' = cmd s1 /\ buf s' = buf s1 /\ dev s' = dev s1
      /\ out s' = out s1
      /\ (existsb refused (firstn n (skipn j ts)) = false ->
          firstn (j + n) (records s')
          = firstn j (records s1) ++ map stored (firstn n (skipn j ts))).
Proof.
  induction n as [|n IH]; intros j s1 Hcmd Hj Hr.
  - exists s1. cbn [recordArgs firstn existsb map]. unfold ret.
    rewrite Nat.add_0_r, app_nil_r. repeat split; reflexivity.
  - destruct (nth_error segs j) as [[b t]|] eqn:Hk.
    2:{ apply nth_error_None in Hk. lia. }
    assert (Hts : nth_error ts j = Some t)
      by (apply (map_nth_error snd j segs Hk)).
    rewrite (skipn_nth_error ts j t Hts).
    cbn [firstn existsb map recordArgs].
    replace (Z.of_nat j + 2 - 2) with (Z.of_nat j) by lia.
    unfold bind at 1.
    rewrite (recordArg_argument s1 j b t Hk Hcmd) by lia.
    destruct (refused t) eqn:Et; cbn [orb].
    + eexists. split; [reflexivity|]. cbn [cmd buf dev out].
      repeat split; try reflexivity. discriminate.
    + replace (Z.of_nat j + 2 + 1) with (Z.of_nat (S j) + 2) by lia.
      destruct (IH (S j)
                  (mkState (cmd s1) (len_of w + offset segs j) (buf s1)
                     (store (records s1) j (stored t)) (dev s1) (out s1)))
        as (s' & Hrun & H1 & H2 & H3 & H4 & H5);
        [ exact Hcmd | lia | cbn [records]; rewrite length_store; lia |].
      exists s'. cbn [cmd buf dev out records] in *.
      split; [exact Hrun|]. repeat split; auto.
      intros Hno. specialize (H5 Hno).
      replace (j + S n)%nat with (S j + n)%nat by lia. rewrite H5.
      rewrite firstn_store by lia. rewrite <- app_assoc. reflexivity.
Qed.

(** All arguments go through the test, in order. *)
Lemma recordArgs_all (s : state D) :
  cmd s = cmd0 ->
  (List.length segs <= List.length (records s))%nat ->
  exists s',
    recordArgs (List.length segs) len 2 s = Some (existsb refused ts, s')
    /\ cmd s' = cmd s /\ buf s' = buf s /\ dev s' = dev s /\ out s' = out s
    /\ (existsb refused ts = false ->
        firstn (List.length segs) (records s') = map stored ts).
Proof.
  intros Hcmd Hr.
  destruct (recordArgs_arguments (List.length segs) 0 s Hcmd)
    as (s' & Hrun & H1 & H2 & H3 & H4 & H5); [lia | lia |].
  cbn [skipn Nat.add firstn app] in *.
  assert (E : firstn (List.length segs) ts = ts).
  { apply firstn_all2. rewrite length_map. lia. }
  rewrite E in *. exists s'. repeat split; auto.
Qed.

End Records.

Section ListHandlers.

Variables (D : Type) (myVR : VR D) (s : state D).
Variables (w : list Z) (segs : list (list Z * list Z)) (c : Z)
          (rest : list Z) (len : Z).
Hypothesis Hw : token w.
Hypothesis Hsegs : segments segs.
Hypothesis Hc : c = CR \/ c = LF.
Hypothesis Hcmd : cmd s = w ++ body segs ++ c :: rest.
Hypothesis Hlen : len_of w + len_of (body segs) < len.
Hypothesis Hrec : List.length (records s) = 7%nat.
Hypothesis Hn : (1 <= List.length segs <= 7)%nat.

Local Abbreviation ts := (map snd segs).
Local Abbreviation paraNum := (Z.of_nat (List.length segs) + 1).

Lemma arity_ok :
  (paraNum <? 2) || (8 <? paraNum) = false
  /\ (paraNum =? 1) = false /\ (paraNum <? 9) = true
  /\ Z.to_nat (paraNum - 1) = List.length segs.
Proof.
  rewrite orb_false_iff, !Z.ltb_ge, Z.eqb_neq, Z.ltb_lt. lia.
Qed.

Ltac enter :=
  destruct arity_ok as (G1 & G2 & G3 & G4);
  destruct (recordArgs_all D w segs c rest len Hw Hsegs Hc Hlen s Hcmd)
    as (s' & Hrun & E1 & E2 & E3 & E4 & E5); [lia|];
  unfold rejected, delegated.

Ltac leave r b' d' f :=
  unfold bind, get, delegate, passed, ret, emit;
  match goal with G : Z.to_nat _ = _ |- _ => rewrite ?G end;
  match goal with E : _ -> firstn _ _ = _ |- _ => rewrite (E eq_refl) end;
  match goal with E : dev _ = dev _ |- _ => rewrite ?E end;
  match goal with E : buf _ = buf _ |- _ => rewrite ?E end;
  destruct f as [[r b'] d'].

Lemma cmdTrain_arguments :
  if existsb refused ts
  then rejected (cmdTrain myVR len paraNum s) s
  else delegated (cmdTrain myVR len paraNum s) s (Train (map stored ts)).
Proof.
  enter. destruct (existsb refused ts); unfold cmdTrain; rewrite G1, G4;
    unfold bind at 1; rewrite Hrun.
  - exists s'. split; [reflexivity | exact E4].
  - leave r b' d' (vr_train myVR (dev s) (map stored ts) (buf s)).
    destruct (0 <=? r); eexists; (split; [reflexivity|]);
      cbn [out]; rewrite E4; told.
Qed.

Lemma cmdLoad_arguments :
  if existsb refused ts
  then rejected (cmdLoad myVR len paraNum s) s
  else delegated (cmdLoad myVR len paraNum s) s (Load (map stored ts)).
Proof.
  enter. destruct (existsb refused ts); unfold cmdLoad; rewrite G1, G4;
    unfold bind at 1; rewrite Hrun.
  - exists s'. split; [reflexivity | exact E4].
  - leave r b' d' (vr_load myVR (dev s) (map stored ts) (buf s)).
    destruct (0 <=? r); eexists; (split; [reflexivity|]);
      cbn [out]; rewrite E4; told.
Qed.

Lemma cmdRecord_arguments :
  if existsb refused ts
  then rejected (cmdRecord myVR len paraNum s) s
  else delegated (cmdRecord myVR len paraNum s) s
         (CheckRecords (map stored ts)).
Proof.
  enter. destruct (existsb refused ts); unfold cmdRecord;
    rewrite G2, G3, G4; unfold bind at 1; rewrite Hrun.
  - exists s'. split; [reflexivity | exact E4].
  - leave r b' d' (vr_checkRecords myVR (dev s) (buf s) (map stored ts)).
    destruct (0 <=? r); eexists; (split; [reflexivity|]);
      cbn [out]; rewrite E4; told.
Qed.

Lemma list_outcome :
  if existsb refused ts then refuses_list myVR len paraNum s
  else passes_list myVR len paraNum s (map stored ts).
Proof.
  pose proof cmdTrain_arguments as H1.
  pose proof cmdLoad_arguments as H2.
  pose proof cmdRecord_arguments as H3.
  unfold refuses_list, passes_list. destruct (existsb refused ts); auto.
Qed.

End ListHandlers.

(** ** clear *)

Lemma cmdClear_arity {D : Type} (myVR : VR D) (len paraNum : Z)
  (s : state D) :
  (paraNum <> 1 -> cmdClear myVR len paraNum s = Some (-1, s))
  /\ (paraNum = 1 -> delegated (cmdClear myVR len paraNum s) s Clear).
Proof.
  unfold cmdClear. split.
  - intros H. apply neqb_true in H. rewrite H. reflexivity.
  - intros ->. change (1 !=? 1) with false. cbv iota.
    unfold delegated, bind, delegate, ret, emit.
    destruct (vr_clear myVR (dev s)) as [r d']. cbn [out].
    destruct (r =? 0); eexists; (split; [reflexivity|]); cbn [out];
      rewrite ?calls_app; cbn [calls app]; rewrite ?app_nil_r; reflexivity.
Qed.

Lemma graphic_bytes (l : list Z) :
  forallb (fun c => (33 <=? c) && (c <=? 126)) l = true -> Forall graphic l.
Proof.
  rewrite forallb_forall, Forall_forall. intros H x Hx.
  specialize (H x Hx). apply andb_true_iff in H. unfold graphic. lia.
Qed.

(** ** The table search *)

Lemma search_step {D : Type} (myVR : VR D) (n : nat)
  (i len paraNum paraLen : Z) (s : state D) :
  search myVR (S n) i len paraNum paraLen s =
  if hits s paraLen i then
    bind (nth (Z.to_nat i) (cmdFunction myVR) cmdTest len paraNum)
      (fun r =>
         bind (if r !=? 0 then emit (println "Command Format Error!")
               else ret tt)
           (fun _ => ret i)) s
  else search myVR n (i + 1) len paraNum paraLen s.
Proof.
  cbn [search]. unfold hits.
  destruct (paraLen =? nth (Z.to_nat i) cmdLen 0); [|reflexivity].
  unfold bind at 1. unfold get at 1. cbn [andb].
  destruct (compareCMD _ _ _ =? 0); reflexivity.
Qed.

(** ** The outcome of the test, on the tokens *)

Lemma stored_decimal (v : Z) : 0 <= v -> stored (decimal v) = v mod 256.
Proof.
  intros Hv. unfold stored, uint8. rewrite atoi_decimal by exact Hv.
  reflexivity.
Qed.

Lemma refused_decimal (v : Z) :
  0 <= v -> refused (decimal v) = (v mod 256 =? 0) && negb (v =? 0).
Proof.
  intros Hv. unfold refused. rewrite stored_decimal by exact Hv.
  destruct (v mod 256 =? 0) eqn:E; [|reflexivity]. cbn [andb].
  destruct (v =? 0) eqn:Ev.
  - apply Z.eqb_eq in Ev. subst v. reflexivity.
  - apply Z.eqb_neq in Ev. apply neqb_true. apply decimal_head. lia.
Qed.

Lemma refused_some (ts : list (list Z)) :
  existsb refused ts = true <->
  exists t, In t ts /\ stored t = 0 /\ hd 0 t <> 48.
Proof.
  rewrite existsb_exists. unfold refused.
  split; intros (t & Hin & H); exists t; (split; [exact Hin|]).
  - apply andb_true_iff in H. destruct H as [H1 H2].
    apply Z.eqb_eq in H1. apply neqb_true in H2. auto.
  - destruct H as [H1 H2]. apply andb_true_iff.
    split; [apply Z.eqb_eq | apply neqb_true]; auto.
Qed.

Lemma refused_none (ts : list (list Z)) :
  existsb refused ts = false <->
  forall t, In t ts -> stored t = 0 -> hd 0 t = 48.
Proof.
  split.
  - intros H t Hin Hz. destruct (Z.eq_dec (hd 0 t) 48) as [E|E]; auto.
    assert (existsb refused ts = true) by (apply refused_some; eauto).
    congruence.
  - intros H. destruct (existsb refused ts) eqn:E; auto.
    apply refused_some in E. destruct E as (t & Hin & Hz & Hh).
    specialize (H t Hin Hz). congruence.
Qed.

Lemma body_one (b t : list Z) : body [(b, t)] = b ++ t.
Proof.
  rewrite body_cons. cbn [body flat_map]. rewrite app_nil_r. reflexivity.
Qed.

(** The two handlers that take one record number, on a command with one
    argument. *)
Lemma one_outcome {D : Type} (myVR : VR D) (s : state D)
  (w b t rest : list Z) :
  token w -> blanks b -> token t ->
  cmd s = w ++ body [(b, t)] ++ LF :: rest ->
  List.length (records s) = 7%nat ->
  let len := len_of w + len_of (body [(b, t)]) + 1 in
  if refused t then refuses_one myVR len s
  else passes_one myVR len s (stored t) (len - 1).
Proof.
  intros Hw Hb Ht Hcmd Hrec len. unfold len. clear len.
  rewrite body_one in Hcmd |- *. rewrite <- app_assoc in Hcmd.
  rewrite len_of_app.
  assert (Hlen : len_of w + len_of b + len_of t
                 < len_of w + (len_of b + len_of t) + 1) by lia.
  pose proof (cmdGetSig_oneArg D myVR s w b t rest LF _ Hw Hb Ht
                (or_intror eq_refl) Hcmd Hlen Hrec) as H1.
  pose proof (cmdSigTrain_oneArg D myVR s w b t rest LF _ Hw Hb Ht
                (or_intror eq_refl) Hcmd Hlen Hrec) as H2.
  unfold refuses_one, passes_one.
  replace (len_of w + (len_of b + len_of t) + 1 - 1)
    with (len_of w + len_of b + len_of t) by lia.
  destruct (refused t); auto.
Qed.

(** * The properties of the specification, C1 to C10 *)

(** X2. [compareCMD] returns 0 exactly when the compared bytes are equal
    modulo 256: a pair that differs by the case bit fails the second of the
    two tests. *)
Theorem compareCMD_equal_bytes (para1 para2 : list Z) (len : Z) :
  compareCMD para1 para2 len = 0 <->
  forall k, 0 <= k < len -> uint8 (byteAt para2 k - byteAt para1 k) = 0.
Proof.
  unfold compareCMD. rewrite compareCMD_from_exact. split.
  - intros H k Hk. apply (H k). lia.
  - intros H k Hk. apply (H k). lia.
Qed.

(** C1. The specification has it that a command word in another letter
    case is matched and dispatched like the lower-case one. On the line
    "TRAIN 0 2 14" the code does not: [compareCMD] returns -1 for "TRAIN"
    against "train", and the line is answered as an unknown command, while
    "train 0 2 14" calls the training of records 0, 2 and 14. *)
Theorem upper_case_command_is_unknown :
  compareCMD (bytes "TRAIN") (row "train") 5 = -1
  /\ compareCMD (bytes "train") (row "train") 5 = 0
  /\ (exists s',
        command (answering 0 []) 13 (received (line "train 0 2 14"))
        = Some (tt, s')
        /\ out s' = [Bytes (line "train 0 2 14"); Call (Train [0; 2; 14]);
                     Text "Train Finish."; EOL])
  /\ (exists s',
        command (answering 0 []) 13 (received (line "TRAIN 0 2 14"))
        = Some (tt, s')
        /\ out s' = [Bytes (line "TRAIN 0 2 14"); Text "Unkonwn command";
                     EOL]).
Proof.
  split; [reflexivity|]. split; [reflexivity|].
  split; eexists; (split; [vm_compute; reflexivity | reflexivity]).
Qed.

(** C2. The specification has it that [findPara] returns -1 for every
    index beyond the count of [checkParaNum]. On the line "train 0", which
    has 2 parameters, index 3 (and index 9) is answered with length 0 at
    the newline; and on a line with a carriage return inside, "a" CR "b",
    which has 2 parameters, index 2 is answered with length 0 at the
    carriage return. *)
Theorem findPara_past_the_count :
  checkParaNum (line "train 0") 8 = Some 2
  /\ findPara (line "train 0") 8 3 0 = Some (0, 7)
  /\ findPara (line "train 0") 8 9 0 = Some (0, 7)
  /\ checkParaNum (bytes "a" ++ CR :: line "b") 4 = Some 2
  /\ findPara (bytes "a" ++ CR :: line "b") 4 2 0 = Some (0, 1)
  /\ findPara (bytes "a" ++ CR :: line "b") 4 3 0 = Some (0, 1).
Proof. repeat split; reflexivity. Qed.

(** C3. The specification has it that a length returned by [findPara] is
    at least 1. On the line "clear" index 2 is answered with length 0, and
    on the line "train 0" ended by carriage return and newline index 3 is
    answered with length 0 at the carriage return. *)
Theorem findPara_zero_length :
  findPara (line "clear") 6 2 0 = Some (0, 5)
  /\ findPara (bytes "train 0" ++ [CR; LF]) 9 3 0 = Some (0, 7).
Proof. split; reflexivity. Qed.

(** C4, counterexample. The token "00" is not the token "0", its stored
    value is 0, and [cmdTrain] passes record 0 on instead of returning the
    format error. *)
Lemma double_zero_is_accepted :
  bytes "00" <> bytes "0"
  /\ stored (bytes "00") = 0
  /\ delegated (cmdTrain (answering 0 []) 9 2 (received (line "train 00")))
       (received (line "train 00")) (Train [0])
  /\ ~ rejected (cmdTrain (answering 0 []) 9 2 (received (line "train 00")))
         (received (line "train 00")).
Proof.
  split; [discriminate|]. split; [reflexivity|]. split.
  - eexists. split; [vm_compute; reflexivity | reflexivity].
  - intros [s' [H _]]. vm_compute in H. discriminate.
Qed.

(** C4, amended. An argument token whose stored value is 0 is accepted as
    record 0 when its first byte is the character 0, whatever follows it,
    and is invalid when its first byte is anything else: train, load and
    record pass the stored values of all their arguments on when every
    argument stored as 0 starts with the character 0, and return the format
    error when one does not; getsig and sigtrain do the same with their one
    record number. *)
Theorem record_zero_by_first_byte {D : Type} (myVR : VR D) (s : state D)
  (w : list Z) (segs : list (list Z * list Z)) (rest : list Z) :
  token w -> segments segs -> (1 <= List.length segs <= 7)%nat ->
  cmd s = w ++ body segs ++ LF :: rest ->
  List.length (records s) = 7%nat ->
  let len := len_of w + len_of (body segs) + 1 in
  let paraNum := Z.of_nat (List.length segs) + 1 in
  let ts := map snd segs in
  ((forall t, In t ts -> stored t = 0 -> hd 0 t = 48) ->
   passes_list myVR len paraNum s (map stored ts))
  /\ ((exists t, In t ts /\ stored t = 0 /\ hd 0 t <> 48) ->
      refuses_list myVR len paraNum s)
  /\ (forall b t, segs = [(b, t)] ->
        ((stored t = 0 -> hd 0 t = 48) ->
         passes_one myVR len s (stored t) (len - 1))
        /\ (stored t = 0 /\ hd 0 t <> 48 -> refuses_one myVR len s)).
Proof.
  intros Hw Hsegs Hn Hcmd Hrec len paraNum ts.
  pose proof (list_outcome D myVR s w segs LF rest len Hw Hsegs
                (or_intror eq_refl) Hcmd ltac:(unfold len; lia) Hrec Hn)
    as H.
  fold ts in H. fold paraNum in H. split; [|split].
  - intros Hall. apply refused_none in Hall. rewrite Hall in H. exact H.
  - intros Hex. apply refused_some in Hex. rewrite Hex in H. exact H.
  - intros b t E. subst segs.
    inversion Hsegs as [|? ? [Hb Ht] _]; subst. cbn [fst snd] in Hb, Ht.
    pose proof (one_outcome myVR s w b t rest Hw Hb Ht Hcmd Hrec) as H1.
    cbv zeta in H1. fold len in H1. unfold refused in H1. split.
    + intros Hz. destruct (stored t =? 0) eqn:E0; [|exact H1].
      apply Z.eqb_eq in E0. apply Hz in E0. apply neqb_false in E0.
      rewrite E0 in H1. exact H1.
    + intros [Hz Hh]. apply Z.eqb_eq in Hz. apply neqb_true in Hh.
      rewrite Hz, Hh in H1. exact H1.
Qed.

(** C4, witness: the line "train 00 7", passed on as records 0 and 7. *)
Lemma record_zero_by_first_byte_witness :
  passes_list (answering 0 []) 11 3 (received (line "train 00 7")) [0; 7].
Proof.
  apply (record_zero_by_first_byte (answering 0 [])
           (received (line "train 00 7")) (bytes "train")
           [([SP], bytes "00"); ([SP], bytes "7")] (repeat 0 54%nat)).
  - split; [discriminate | apply graphic_bytes; reflexivity].
  - repeat constructor; try discriminate;
      try (right; reflexivity); apply graphic_bytes; reflexivity.
  - cbn [List.length]. lia.
  - reflexivity.
  - reflexivity.
  - intros t [<- | [<- | []]] Hz; [reflexivity | discriminate Hz].
Defined.

(** C5, counterexample. The tokens "255" and "300" are outside 0-254, and
    [cmdTrain] and [cmdLoad] pass them on, as records 255 and 44. *)
Lemma out_of_range_record_is_passed :
  delegated (cmdTrain (answering 0 []) 10 2 (received (line "train 255")))
    (received (line "train 255")) (Train [255])
  /\ delegated (cmdTrain (answering 0 []) 10 2 (received (line "train 300")))
       (received (line "train 300")) (Train [44])
  /\ delegated (cmdLoad (answering 0 []) 9 2 (received (line "load 255")))
       (received (line "load 255")) (Load [255])
  /\ ~ rejected (cmdTrain (answering 0 []) 10 2
                   (received (line "train 255")))
         (received (line "train 255")).
Proof.
  repeat split;
    try (eexists; split; [vm_compute; reflexivity | reflexivity]).
  intros [s' [H _]]. vm_compute in H. discriminate.
Qed.

(** C5, amended. The train and load handlers do not check a range: the
    decimal value of each argument is stored modulo 256 and the stored
    values are passed on, except that a value other than 0 whose residue is
    0 gets the format error. *)
Theorem record_number_is_reduced {D : Type} (myVR : VR D) (s : state D)
  (w : list Z) (segs : list (list Z * list Z)) (rest : list Z)
  (vs : list Z) :
  token w -> segments segs -> (1 <= List.length segs <= 7)%nat ->
  map snd segs = map decimal vs ->
  Forall (fun v => 0 <= v <= 32767) vs ->
  cmd s = w ++ body segs ++ LF :: rest ->
  List.length (records s) = 7%nat ->
  let len := len_of w + len_of (body segs) + 1 in
  let paraNum := Z.of_nat (List.length segs) + 1 in
  ((forall v, In v vs -> v = 0 \/ v mod 256 <> 0) ->
   delegated (cmdTrain myVR len paraNum s) s
     (Train (map (fun v => v mod 256) vs))
   /\ delegated (cmdLoad myVR len paraNum s) s
        (Load (map (fun v => v mod 256) vs)))
  /\ ((exists v, In v vs /\ v <> 0 /\ v mod 256 = 0) ->
      rejected (cmdTrain myVR len paraNum s) s
      /\ rejected (cmdLoad myVR len paraNum s) s).
Proof.
  intros Hw Hsegs Hn Hts Hvs Hcmd Hrec len paraNum.
  pose proof (list_outcome D myVR s w segs LF rest len Hw Hsegs
                (or_intror eq_refl) Hcmd ltac:(unfold len; lia) Hrec Hn)
    as H.
  fold paraNum in H. rewrite Hts in H. rewrite Forall_forall in Hvs.
  assert (Hmap : map stored (map decimal vs) = map (fun v => v mod 256) vs).
  { rewrite map_map. apply map_ext_in. intros v Hv.
    apply stored_decimal. apply Hvs in Hv. lia. }
  rewrite Hmap in H. split.
  - intros Hall.
    assert (E : existsb refused (map decimal vs) = false).
    { apply refused_none. intros t Hin Hz.
      apply in_map_iff in Hin. destruct Hin as (v & <- & Hv).
      pose proof (Hvs v Hv) as Hr.
      rewrite stored_decimal in Hz by lia.
      destruct (Hall v Hv) as [-> | Hm]; [reflexivity | contradiction]. }
    rewrite E in H. destruct H as (H1 & H2 & _). auto.
  - intros (v & Hv & Hv0 & Hm).
    assert (E : existsb refused (map decimal vs) = true).
    { apply refused_some. exists (decimal v).
      pose proof (Hvs v Hv) as Hr. split; [apply in_map; exact Hv|].
      split; [rewrite stored_decimal by lia; exact Hm|].
      apply decimal_head. lia. }
    rewrite E in H. destruct H as (H1 & H2 & _). auto.
Qed.

(** C5, witness: the line "train 300 255", passed on as records 44 and
    255. *)
Lemma record_number_is_reduced_witness :
  delegated
    (cmdTrain (answering 0 []) 14 3 (received (line "train 300 255")))
    (received (line "train 300 255")) (Train [44; 255]).
Proof.
  apply (record_number_is_reduced (answering 0 [])
           (received (line "train 300 255")) (bytes "train")
           [([SP], bytes "300"); ([SP], bytes "255")] (repeat 0 51%nat)
           [300; 255]).
  - split; [discriminate | apply graphic_bytes; reflexivity].
  - repeat constructor; try discriminate;
      try (right; reflexivity); apply graphic_bytes; reflexivity.
  - cbn [List.length]. lia.
  - reflexivity.
  - repeat constructor; lia.
  - reflexivity.
  - reflexivity.
  - intros v [<- | [<- | []]]; right; discriminate.
Defined.

(** With the right arity, [cmdVR] returns -1 whenever the module's
    [checkRecognizer] returns 0 or less. *)
Lemma cmdVR_returns_module_failure {D : Type} (myVR : VR D) (len : Z)
  (s : state D) :
  fst (fst (vr_checkRecognizer myVR (dev s) (buf s))) <= 0 ->
  exists s', cmdVR myVR len 1 s = Some (-1, s')
             /\ out s' = out s ++ [Call CheckRecognizer].
Proof.
  intros H. unfold cmdVR. change (1 !=? 1) with false. cbv iota.
  unfold bind, delegate.
  destruct (vr_checkRecognizer myVR (dev s) (buf s)) as [[r b'] d'].
  cbn [fst] in H.
  replace (r <=? 0) with true by (symmetry; apply Z.leb_le; lia).
  eexists. split; reflexivity.
Qed.

(** C6. The specification has it that a failure of the module is never
    reported as a format error. On the line "vr" with a module whose
    [checkRecognizer] returns -1 the handler returns -1 and the line is
    answered with "Command Format Error!"; on the line "train 0" with a
    module whose [train] returns -1 the handler prints "Train failed." and
    no format error. *)
Theorem cmdVR_reports_format_error :
  (exists s', cmdVR (answering (-1) []) 3 1 (received (line "vr"))
              = Some (-1, s'))
  /\ (exists s',
        command (answering (-1) []) 3 (received (line "vr")) = Some (tt, s')
        /\ out s' = [Bytes (line "vr"); Call CheckRecognizer;
                     Text "Command Format Error!"; EOL])
  /\ (exists s',
        command (answering (-1) []) 8 (received (line "train 0"))
        = Some (tt, s')
        /\ out s' = [Bytes (line "train 0"); Call (Train [0]);
                     Text "Train failed."; EOL]).
Proof.
  split; [eexists; vm_compute; reflexivity|].
  split; eexists; (split; [vm_compute; reflexivity | reflexivity]).
Qed.

(** C7. A line whose first token is "clear" and which has a number of
    parameters other than 1 is echoed and answered with "Command Format
    Error!", and nothing else is done: the module is not called. [cmdClear]
    itself returns -1 and leaves the globals alone for every [paraNum]
    other than 1, so the module's [clear] is reached with [paraNum = 1]
    only. *)
Theorem clear_with_arguments {D : Type} (myVR : VR D) (s : state D)
  (len n c0 : Z) (rest : list Z) :
  cmd s = bytes "clear" ++ c0 :: rest ->
  c0 = TAB \/ c0 = SP ->
  5 < len ->
  checkCMD (cmd s) len = 0 ->
  checkParaNum (cmd s) len = Some n ->
  n <> 1 ->
  (exists s',
     command myVR len s = Some (tt, s')
     /\ out s' = out s ++ [Bytes (firstn (Z.to_nat len) (cmd s));
                           Text "Command Format Error!"; EOL])
  /\ (forall paraNum s0,
        paraNum <> 1 -> cmdClear myVR len paraNum s0 = Some (-1, s0)).
Proof.
  intros Hcmd Hc0 Hlen Hok Hn Hn1. split.
  2:{ intros paraNum s0 H. apply cmdClear_arity. exact H. }
  assert (H1 : forall a0, findPara (cmd s) len 1 a0 = Some (5, 0)).
  { intros a0. unfold findPara, findPara_fuel.
    rewrite (findPara_loop_token (cmd s) len 1 a0 _ 0 0 (bytes "clear")
               (c0 :: rest)); [reflexivity | lia | exact Hcmd | |].
    - split; [discriminate|]. apply graphic_bytes. reflexivity.
    - apply inPara_stop. simpl. tauto. }
  assert (Hother : compareCMD (from (cmd s) 0) (row "train") 5 = -1)
    by (rewrite Hcmd; reflexivity).
  assert (Hsame : compareCMD (from (cmd s) 0) (row "clear") 5 = 0)
    by (rewrite Hcmd; reflexivity).
  unfold command.
  replace (0 <? len) with true by (symmetry; apply Z.ltb_lt; lia).
  unfold bind at 1. unfold get at 1. rewrite Hok. change (0 =? 0) with true.
  cbv iota. unfold bind at 1. rewrite Hn.
  unfold bind at 1. unfold emit at 1.
  unfold bind at 1. unfold findParaG. cbn [cmd paraAddr]. rewrite H1.
  unfold bind at 1. unfold set_paraAddr at 1.
  cbn [cmd paraAddr buf records dev out].
  unfold ret at 1.
  change (Z.to_nat CMD_NUM) with 8%nat.
  unfold bind at 1.
  rewrite search_step.
  replace (hits _ 5 0) with false
    by (unfold hits; cbn [cmd paraAddr];
        change (nth (Z.to_nat 0) cmdList []) with (row "train");
        rewrite Hother; reflexivity).
  rewrite search_step.
  replace (hits _ 5 (0 + 1)) with false by reflexivity.
  rewrite search_step.
  replace (hits _ 5 (0 + 1 + 1)) with true
    by (unfold hits; cbn [cmd paraAddr];
        change (nth (Z.to_nat (0 + 1 + 1)) cmdList []) with (row "clear");
        rewrite Hsame; reflexivity).
  change (nth (Z.to_nat (0 + 1 + 1)) (cmdFunction myVR) cmdTest)
    with (cmdClear myVR).
  unfold bind at 1.
  match goal with
  | |- context [cmdClear myVR len n ?st] =>
      rewrite (proj1 (cmdClear_arity myVR len n st) Hn1)
  end.
  eexists. split; [reflexivity|]. cbn [out]. rewrite <- app_assoc. reflexivity.
Qed.

(** C7, witness: the line "clear extra", which has 2 parameters. *)
Lemma clear_with_arguments_witness :
  exists s',
    command (answering 0 []) 12 (received (line "clear extra"))
    = Some (tt, s')
    /\ out s' = [Bytes (line "clear extra"); Text "Command Format Error!";
                 EOL].
Proof.
  destruct (clear_with_arguments (answering 0 [])
              (received (line "clear extra")) 12 2 SP
              (bytes "extra" ++ LF :: repeat 0 53%nat)) as [H _];
    [ reflexivity | right; reflexivity | lia | reflexivity | reflexivity
    | discriminate | exact H ].
Defined.

(** C8. The train reply 02 05 00 07 FE of length 5 is printed as success
    count 2, record 5 "Trained" and record 7 "Train Time Out"; a train or
    load reply of length 0 is printed as the one line that reports success,
    with no record pairs, whatever the buffer holds. *)
Theorem train_reply_printed :
  (forall rest,
     printTrain ([2; 5; 0; 7; 254] ++ rest) 5 =
     [Text "Train success: "; Num 2 DEC; EOL;
      Text "Record "; Num 5 DEC; Text tab; Text "Trained"; EOL;
      Text "Record "; Num 7 DEC; Text tab; Text "Train Time Out"; EOL])
  /\ (forall buf, printTrain buf 0 = [Text "Train Finish."; EOL])
  /\ (forall buf, printLoad buf 0 = [Text "Load Successfully."; EOL]).
Proof.
  split; [intros rest; reflexivity|]. split; intros buf; reflexivity.
Qed.

(** C9. Reading the decimal text of record numbers gives them back: when
    the argument tokens are the decimal texts of values in 0..254, [atoi]
    of each token is its value and train, load and record pass the values
    on, as do getsig and sigtrain with their one record number; the tokens
    "0" and "00" are both read as 0 and passed on; the token "abc" gets the
    format error. *)
Theorem record_number_round_trip {D : Type} (myVR : VR D) (s : state D)
  (w : list Z) (segs : list (list Z * list Z)) (rest : list Z) :
  token w -> segments segs -> (1 <= List.length segs <= 7)%nat ->
  cmd s = w ++ body segs ++ LF :: rest ->
  List.length (records s) = 7%nat ->
  let len := len_of w + len_of (body segs) + 1 in
  let paraNum := Z.of_nat (List.length segs) + 1 in
  let ts := map snd segs in
  (forall vs, Forall (fun v => 0 <= v <= 254) vs -> ts = map decimal vs ->
     map atoi ts = vs /\ passes_list myVR len paraNum s vs)
  /\ (forall b v, 0 <= v <= 254 -> segs = [(b, decimal v)] ->
        passes_one myVR len s v (len - 1))
  /\ (forall b, segs = [(b, bytes "0")] ->
        atoi (bytes "0") = 0
        /\ passes_list myVR len paraNum s [0]
        /\ passes_one myVR len s 0 (len - 1))
  /\ (forall b, segs = [(b, bytes "00")] ->
        atoi (bytes "00") = 0
        /\ passes_list myVR len paraNum s [0]
        /\ passes_one myVR len s 0 (len - 1))
  /\ (forall b, segs = [(b, bytes "abc")] ->
        refuses_list myVR len paraNum s /\ refuses_one myVR len s).
Proof.
  intros Hw Hsegs Hn Hcmd Hrec len paraNum ts.
  pose proof (list_outcome D myVR s w segs LF rest len Hw Hsegs
                (or_intror eq_refl) Hcmd ltac:(unfold len; lia) Hrec Hn)
    as H.
  fold ts in H. fold paraNum in H.
  assert (Hone : forall b t, segs = [(b, t)] ->
            if refused t then refuses_one myVR len s
            else passes_one myVR len s (stored t) (len - 1)).
  { intros b t E. subst segs.
    inversion Hsegs as [|? ? [Hb Ht] _]; subst. cbn [fst snd] in Hb, Ht.
    exact (one_outcome myVR s w b t rest Hw Hb Ht Hcmd Hrec). }
  split; [|split; [|split; [|split]]].
  - intros vs Hvs E. rewrite Forall_forall in Hvs.
    assert (Hat : map atoi ts = vs).
    { rewrite E, map_map. rewrite <- (map_id vs) at 2.
      apply map_ext_in. intros v Hv. apply atoi_decimal.
      apply Hvs in Hv. lia. }
    assert (Hst : map stored ts = vs).
    { rewrite E, map_map. rewrite <- (map_id vs) at 2.
      apply map_ext_in. intros v Hv. apply Hvs in Hv.
      rewrite stored_decimal by lia. apply Z.mod_small. lia. }
    assert (Hno : existsb refused ts = false).
    { apply refused_none. intros t Hin Hz. rewrite E in Hin.
      apply in_map_iff in Hin. destruct Hin as (v & <- & Hv).
      apply Hvs in Hv. rewrite stored_decimal in Hz by lia.
      rewrite Z.mod_small in Hz by lia. subst v. reflexivity. }
    rewrite Hno, Hst in H. auto.
  - intros b v Hv E. specialize (Hone b (decimal v) E).
    rewrite refused_decimal, stored_decimal in Hone by lia.
    rewrite Z.mod_small in Hone by lia.
    destruct (v =? 0); cbn [andb negb] in Hone; exact Hone.
  - intros b E. specialize (Hone b _ E). subst segs.
    split; [reflexivity|]. split; [exact H | exact Hone].
  - intros b E. specialize (Hone b _ E). subst segs.
    split; [reflexivity|]. split; [exact H | exact Hone].
  - intros b E. specialize (Hone b _ E). subst segs.
    split; [exact H | exact Hone].
Qed.

(** C9, witness: the line "train 0 2 14", passed on as records 0, 2 and
    14. *)
Lemma record_number_round_trip_witness :
  map atoi [bytes "0"; bytes "2"; bytes "14"] = [0; 2; 14]
  /\ passes_list (answering 0 []) 13 4 (received (line "train 0 2 14"))
       [0; 2; 14].
Proof.
  apply (record_number_round_trip (answering 0 [])
           (received (line "train 0 2 14")) (bytes "train")
           [([SP], bytes "0"); ([SP], bytes "2"); ([SP], bytes "14")]
           (repeat 0 52%nat)).
  - split; [discriminate | apply graphic_bytes; reflexivity].
  - repeat constructor; try discriminate;
      try (right; reflexivity); apply graphic_bytes; reflexivity.
  - cbn [List.length]. lia.
  - reflexivity.
  - reflexivity.
  - repeat constructor; lia.
  - reflexivity.
Defined.




(** X3. When sigtrain is given two tokens, the second an accepted record
    number that is directly followed by the carriage return or newline,
    [findPara] for index 3 returns length 0 at that byte, the handler
    returns 0, and the module is called with the record number and the
    empty span at that byte. *)
Lemma sigtrain_without_signature {D : Type} (myVR : VR D) (s : state D)
  (w b t rest : list Z) (c len : Z) :
  token w -> blanks b -> token t -> c = CR \/ c = LF ->
  cmd s = w ++ b ++ t ++ c :: rest ->
  len_of w + len_of b + len_of t < len ->
  List.length (records s) = 7%nat ->
  refused t = false ->
  let stop := len_of w + len_of b + len_of t in
  findPara (cmd s) len 3 (len_of w + len_of b) = Some (0, stop)
  /\ delegated (cmdSigTrain myVR len 2 s) s
       (TrainWithSignature (stored t) stop 0).
Proof.
  intros Hw Hb Ht Hc Hcmd Hlen Hrec Hok stop. split.
  - rewrite Hcmd. apply oneArg_third; assumption.
  - pose proof (cmdSigTrain_oneArg D myVR s w b t rest c len Hw Hb Ht Hc
                  Hcmd Hlen Hrec) as H.
    rewrite Hok in H. exact H.
Qed.

(** An instance: the line "sigtrain 7". *)
Lemma sigtrain_without_signature_witness :
  findPara (cmd (received (line "sigtrain 7"))) 11 3 9 = Some (0, 10)
  /\ delegated
       (cmdSigTrain (answering 0 []) 11 2 (received (line "sigtrain 7")))
       (received (line "sigtrain 7")) (TrainWithSignature 7 10 0).
Proof.
  apply (sigtrain_without_signature (answering 0 [])
           (received (line "sigtrain 7")) (bytes "sigtrain") [SP]
           (bytes "7") (repeat 0 54%nat) LF 11).
  - split; [discriminate | apply graphic_bytes; reflexivity].
  - split; [discriminate | repeat constructor; right; reflexivity].
  - split; [discriminate | apply graphic_bytes; reflexivity].
  - right. reflexivity.
  - reflexivity.
  - reflexivity.
  - reflexivity.
  - reflexivity.
Defined.

(** * Further properties of the sketch *)

(** ** receiveCMD *)

Lemma store_split (a : list Z) (n : nat) (v : Z) :
  (n < List.length a)%nat ->
  store a n v = firstn n a ++ v :: skipn (S n) a.
Proof.
  revert n. induction a as [|x a IH]; intros [|n] H; simpl in *; try lia.
  - reflexivity.
  - f_equal. apply IH. lia.
Qed.

Lemma skipn_store (a : list Z) (n k : nat) (v : Z) :
  (n < k)%nat -> skipn k (store a n v) = skipn k a.
Proof.
  revert n k. induction a as [|x a IH]; intros [|n] [|k] H; simpl; try lia;
    auto. apply IH. lia.
Qed.

Lemma byteAt_store_other (a : list Z) (n : nat) (v k : Z) :
  0 <= k -> k <> Z.of_nat n -> byteAt (store a n v) k = byteAt a k.
Proof.
  intros Hk Hne. unfold byteAt.
  assert (Z.to_nat k <> n) by lia. generalize dependent (Z.to_nat k).
  intros m Hm. clear Hk Hne k. revert n m Hm.
  induction a as [|x a IH]; intros [|n] [|m] Hm; simpl; auto; try lia.
Qed.

Lemma receiveCMD_loop_returns (rx : list Z) :
  Forall (fun r => -1 <= r <= 255) rx ->
  forall clock cmd cnt start len cmd' cnt' rx' clock',
    filling cmd cnt ->
    receiveCMD_loop rx clock cmd cnt start
    = Some (len, cmd', cnt', rx', clock') ->
    cnt' = 0 /\ List.length cmd' = 65%nat
    /\ (len = -1
        \/ (cnt < len <= 65 /\ byteAt cmd' (len - 1) = LF
            /\ forall k, 0 <= k < len - 1 -> inner (byteAt cmd' k))).
Proof.
  induction 1 as [|ret rx Hret Hrx IH];
    intros clock cmd cnt start len cmd' cnt' rx' clock' Hfill Hrun;
    [discriminate|].
  destruct Hfill as (Hlen & Hcnt & Hin).
  cbn [receiveCMD_loop] in Hrun.
  (* the timeout test, whatever the buffer is by then *)
  assert (Hexpire : forall cmd1 cnt1 start1 clock1,
    filling cmd1 cnt1 -> cnt <= cnt1 ->
    match clock1 with
    | [] => None
    | now :: clock2 =>
        if 100 <? uint32 (now - start1)
        then Some (-1, cmd1, 0, rx, clock2)
        else receiveCMD_loop rx clock2 cmd1 cnt1 start1
    end = Some (len, cmd', cnt', rx', clock') ->
    cnt' = 0 /\ List.length cmd' = 65%nat
    /\ (len = -1
        \/ (cnt < len <= 65 /\ byteAt cmd' (len - 1) = LF
            /\ forall k, 0 <= k < len - 1 -> inner (byteAt cmd' k)))).
  { intros cmd1 cnt1 start1 clock1 Hf1 Hle Hgo.
    destruct clock1 as [|now clock2]; [discriminate|].
    destruct (100 <? uint32 (now - start1)).
    - injection Hgo as <- <- <- _ _. destruct Hf1 as (L & _). auto.
    - destruct (IH _ _ _ _ _ _ _ _ _ Hf1 Hgo) as (A & B & [C | C]); auto.
      split; [exact A|]. split; [exact B|]. right. intuition lia. }
  destruct (0 <? ret) eqn:Epos.
  - apply Z.ltb_lt in Epos.
    destruct clock as [|now clock1]; [discriminate|].
    assert (Hu : uint8 ret = ret) by (unfold uint8; apply Z.mod_small; lia).
    rewrite Hu in Hrun.
    assert (Hat : byteAt (store cmd (Z.to_nat cnt) ret) cnt = ret).
    { rewrite <- (Z2Nat.id cnt) at 2 by lia. apply store_same. lia. }
    assert (Hl1 : List.length (store cmd (Z.to_nat cnt) ret) = 65%nat)
      by (rewrite length_store; exact Hlen).
    assert (Hold : forall k, 0 <= k < cnt ->
              inner (byteAt (store cmd (Z.to_nat cnt) ret) k)).
    { intros k Hk. rewrite byteAt_store_other by lia. apply Hin. exact Hk. }
    rewrite Hat in Hrun. destruct (ret =? LF) eqn:Elf.
    + apply Z.eqb_eq in Elf. injection Hrun as <- <- <- _ _.
      split; [reflexivity|]. split; [exact Hl1|]. right.
      replace (cnt + 1 - 1) with cnt by lia.
      split; [lia|]. split; [rewrite Hat; exact Elf | exact Hold].
    + apply Z.eqb_neq in Elf.
      assert (Hc1 : uint8 (cnt + 1) = cnt + 1)
        by (unfold uint8; apply Z.mod_small; lia).
      rewrite Hc1 in Hrun. unfold CMD_BUF_LEN in Hrun.
      destruct (cnt + 1 =? 64 + 1) eqn:Efull.
      * injection Hrun as <- <- <- _ _. auto.
      * apply Z.eqb_neq in Efull.
        apply (Hexpire (store cmd (Z.to_nat cnt) ret) (cnt + 1) now clock1);
          [| lia | exact Hrun].
        split; [exact Hl1|]. split; [lia|]. intros k Hk.
        destruct (Z.eq_dec k cnt) as [->|Hne].
        -- rewrite Hat. unfold inner. lia.
        -- apply Hold. lia.
  - apply (Hexpire cmd cnt start clock); [| lia | exact Hrun].
    split; [exact Hlen|]. split; [exact Hcnt | exact Hin].
Qed.

(** X4. Whenever [receiveCMD] returns, [cmd_cnt] is 0 again, and the value is
    either -1 or the length, at most 65, of a line that [cmd] now holds:
    its last byte is the newline, and the bytes before it are not 0 and not
    newlines. *)
Theorem receiveCMD_returns_a_line (rx clock cmd : list Z)
  (len : Z) (cmd' : list Z) (cnt' : Z) (rx' clock' : list Z) :
  Forall (fun r => -1 <= r <= 255) rx ->
  List.length cmd = 65%nat ->
  receiveCMD rx clock cmd 0 = Some (len, cmd', cnt', rx', clock') ->
  cnt' = 0 /\ List.length cmd' = 65%nat
  /\ (len = -1
      \/ (0 < len <= CMD_BUF_LEN /\ terminated cmd' len
          /\ forall k, 0 <= k < len - 1 -> inner (byteAt cmd' k))).
Proof.
  intros Hrx Hlen Hrun. unfold receiveCMD in Hrun.
  destruct clock as [|t0 clock]; [discriminate|].
  destruct (receiveCMD_loop_returns rx Hrx _ _ 0 _ _ _ _ _ _
              ltac:(split; [exact Hlen | split; [lia | intros; lia]]) Hrun)
    as (A & B & [C | (C1 & C2 & C3)]); auto.
  split; [exact A|]. split; [exact B|]. right. unfold terminated, CMD_BUF_LEN.
  split; [lia|]. split; [split; [lia | exact C2] | exact C3].
Qed.

(** [start_millis] after the bytes that consumed [ps]. *)
Lemma receiveCMD_returns_a_line_witness :
  0 = 0 /\ List.length (line "vr" ++ repeat 0 62%nat) = 65%nat
  /\ (3 = -1
      \/ (0 < 3 <= CMD_BUF_LEN
          /\ terminated (line "vr" ++ repeat 0 62%nat) 3
          /\ forall k, 0 <= k < 3 - 1 ->
                       inner (byteAt (line "vr" ++ repeat 0 62%nat) k))).
Proof.
  apply (receiveCMD_returns_a_line [-1; 118; 114; -1; 10; 99]
           [0; 1; 2; 3; 4; 5; 6; 7; 8] (repeat 0 65%nat) 3
           (line "vr" ++ repeat 0 62%nat) 0 [99] [8]).
  - apply Forall_forall.
    intros y [<- | [<- | [<- | [<- | [<- | [<- | []]]]]]]; lia.
  - reflexivity.
  - reflexivity.
Defined.

Lemma inner_positive (x : Z) :
  inner x -> (0 <? x) = true /\ uint8 x = x /\ (x =? LF) = false.
Proof.
  intros [H1 H2]. split; [apply Z.ltb_lt; lia|].
  split; [unfold uint8; apply Z.mod_small; lia | apply Z.eqb_neq; exact H2].
Qed.

(** Bytes that arrive one after the other, none of them a newline, with no
    gap of more than 100 ms, are stored in order. *)
Lemma receiveCMD_loop_stores (l : list Z) :
  Forall inner l ->
  forall (ps : list (Z * Z)) (n : nat) (cmd : list Z) (start : Z)
         (rx clock : list Z),
    List.length ps = List.length l -> calm ps ->
    List.length cmd = 65%nat -> (n + List.length l < 65)%nat ->
    receiveCMD_loop (l ++ rx) (ticks ps ++ clock) cmd (Z.of_nat n) start
    = receiveCMD_loop rx clock
        (firstn n cmd ++ l ++ skipn (n + List.length l) cmd)
        (Z.of_nat (n + List.length l)) (begun ps start).
Proof.
  induction 1 as [|x l Hx Hl IH]; intros ps n cmd start rx clock Hps Hcalm
    Hlen Hn.
  - destruct ps; [|discriminate]. cbn [app ticks flat_map begun fold_left].
    rewrite Nat.add_0_r, firstn_skipn. reflexivity.
  - destruct ps as [|[a b] ps]; [discriminate|].
    cbn [List.length] in *. injection Hps as Hps.
    apply Forall_cons_iff in Hcalm. destruct Hcalm as [Hab Hcalm].
    cbn [fst snd] in Hab.
    destruct (inner_positive x Hx) as (E1 & E2 & E3).
    cbn [app ticks flat_map fst snd receiveCMD_loop].
    rewrite E1, E2, Nat2Z.id.
    rewrite (store_same cmd n x) by lia. rewrite E3.
    assert (Hc1 : uint8 (Z.of_nat n + 1) = Z.of_nat (S n))
      by (unfold uint8; rewrite Z.mod_small; lia).
    rewrite Hc1.
    replace (Z.of_nat (S n) =? CMD_BUF_LEN) with false
      by (symmetry; apply Z.eqb_neq; unfold CMD_BUF_LEN; lia).
    replace (100 <? uint32 (b - a)) with false
      by (symmetry; apply Z.ltb_ge; exact Hab).
    fold (ticks ps).
    rewrite (IH ps (S n) (store cmd n x) a rx clock Hps Hcalm);
      [| rewrite length_store; exact Hlen | lia].
    rewrite firstn_store by lia. rewrite skipn_store by lia.
    replace (S n + List.length l)%nat with (n + S (List.length l))%nat
      by lia.
    rewrite <- !app_assoc. reflexivity.
Qed.

(** X5. A line of at most 65 bytes that arrives without a gap of more than
    100 ms is returned whole: the value is its length, newline included,
    [cmd] starts with its bytes, and the input after it is left for the
    next call. *)
Theorem receiveCMD_returns_the_line (l rx clock cmd : list Z)
  (ps : list (Z * Z)) (t0 t1 : Z) :
  Forall inner l -> (List.length l < 65)%nat ->
  List.length ps = List.length l -> calm ps ->
  List.length cmd = 65%nat ->
  receiveCMD (l ++ LF :: rx) (t0 :: ticks ps ++ t1 :: clock) cmd 0
  = Some (len_of l + 1, l ++ LF :: skipn (S (List.length l)) cmd, 0, rx,
          clock).
Proof.
  intros Hl Hn Hps Hcalm Hlen. unfold receiveCMD.
  pose proof (receiveCMD_loop_stores l Hl ps 0 cmd t0 (LF :: rx) (t1 :: clock)
                Hps Hcalm Hlen ltac:(lia)) as Hgo.
  change (Z.of_nat 0) with 0 in Hgo. rewrite Hgo. clear Hgo.
  cbn [Nat.add firstn app receiveCMD_loop]. change (0 <? LF) with true.
  cbv iota. change (uint8 LF) with LF. rewrite Nat2Z.id.
  assert (Hl1 : (List.length l
                 < List.length (l ++ skipn (List.length l) cmd))%nat).
  { rewrite length_app, length_skipn. lia. }
  rewrite (store_same _ _ LF Hl1). change (LF =? LF) with true. cbv iota.
  rewrite (store_split _ _ LF Hl1).
  rewrite firstn_app, Nat.sub_diag, firstn_all. cbn [firstn].
  rewrite app_nil_r.
  replace (skipn (S (List.length l)) (l ++ skipn (List.length l) cmd))
    with (skipn (S (List.length l)) cmd).
  - reflexivity.
  - rewrite skipn_app. rewrite (skipn_all2 l) by lia.
    replace (S (List.length l) - List.length l)%nat with 1%nat by lia.
    rewrite skipn_skipn. reflexivity.
Qed.

Lemma receiveCMD_returns_the_line_witness :
  receiveCMD (line "vr" ++ [99]) [5; 5; 9; 12; 60; 61; 70]
             (repeat 0 65%nat) 0
  = Some (3, line "vr" ++ repeat 0 62%nat, 0, [99], [70]).
Proof.
  assert (H1 : Forall inner (bytes "vr"))
    by (change (bytes "vr") with [118; 114]; apply Forall_forall;
        intros y [<- | [<- | []]]; unfold inner, LF; lia).
  assert (H2 : calm [(5, 9); (12, 60)])
    by (apply Forall_forall; intros y [<- | [<- | []]];
        unfold uint32; cbn; lia).
  exact (receiveCMD_returns_the_line (bytes "vr") [99] [70]
           (repeat 0 65%nat) [(5, 9); (12, 60)] 5 61 H1 ltac:(cbn; lia)
           eq_refl H2 eq_refl).
Defined.

(** X6. 65 bytes without a newline fill the buffer: the call returns -1 after
    the 65th byte and starts over, and the bytes after it are left for the
    next call. *)
Theorem receiveCMD_overflow (l rx clock cmd : list Z) (x : Z)
  (ps : list (Z * Z)) (t0 t1 : Z) :
  Forall inner l -> inner x -> List.length l = 64%nat ->
  List.length ps = 64%nat -> calm ps ->
  List.length cmd = 65%nat ->
  receiveCMD (l ++ x :: rx) (t0 :: ticks ps ++ t1 :: clock) cmd 0
  = Some (-1, l ++ [x], 0, rx, clock).
Proof.
  intros Hl Hx Hn Hps Hcalm Hlen. unfold receiveCMD.
  pose proof (receiveCMD_loop_stores l Hl ps 0 cmd t0 (x :: rx) (t1 :: clock)
                ltac:(lia) Hcalm Hlen ltac:(lia)) as Hgo.
  change (Z.of_nat 0) with 0 in Hgo. rewrite Hgo. clear Hgo.
  destruct (inner_positive x Hx) as (E1 & E2 & E3).
  cbn [Nat.add firstn app receiveCMD_loop]. rewrite E1, E2, Nat2Z.id.
  assert (Hl1 : (List.length l
                 < List.length (l ++ skipn (List.length l) cmd))%nat).
  { rewrite length_app, length_skipn. lia. }
  rewrite (store_same _ _ x Hl1), E3, Hn.
  change (uint8 (Z.of_nat 64 + 1) =? CMD_BUF_LEN) with true. cbv iota.
  rewrite <- Hn. rewrite (store_split _ _ x Hl1).
  rewrite firstn_app, Nat.sub_diag, firstn_all. cbn [firstn].
  rewrite app_nil_r. rewrite skipn_all2; [reflexivity|].
  rewrite length_app, length_skipn. lia.
Qed.

Lemma receiveCMD_overflow_witness :
  receiveCMD (repeat 97 64%nat ++ [98; 99]) (0 :: repeat 1 129%nat)
             (repeat 0 65%nat) 0
  = Some (-1, repeat 97 64%nat ++ [98], 0, [99], []).
Proof.
  assert (H1 : Forall inner (repeat 97 64%nat))
    by (apply Forall_forall; intros y Hy; apply repeat_spec in Hy; subst y;
        unfold inner, LF; lia).
  assert (H2 : calm (repeat (1, 1) 64%nat))
    by (apply Forall_forall; intros y Hy; apply repeat_spec in Hy; subst y;
        unfold uint32; cbn; lia).
  exact (receiveCMD_overflow (repeat 97 64%nat) [99] [] (repeat 0 65%nat) 98
           (repeat (1, 1) 64%nat) 0 1 H1 ltac:(unfold inner, LF; lia)
           eq_refl eq_refl H2 eq_refl).
Defined.

(** X7. When the line has not ended and a read finds nothing more than 100 ms
    after the last byte, the call returns -1 and starts over: the bytes
    received so far are not part of the next line. *)
Theorem receiveCMD_timeout (l rx clock cmd : list Z) (r now : Z)
  (ps : list (Z * Z)) (t0 : Z) :
  Forall inner l -> (List.length l < 65)%nat ->
  List.length ps = List.length l -> calm ps ->
  List.length cmd = 65%nat ->
  r <= 0 -> 100 < uint32 (now - begun ps t0) ->
  receiveCMD (l ++ r :: rx) (t0 :: ticks ps ++ now :: clock) cmd 0
  = Some (-1, l ++ skipn (List.length l) cmd, 0, rx, clock).
Proof.
  intros Hl Hn Hps Hcalm Hlen Hr Hgap. unfold receiveCMD.
  pose proof (receiveCMD_loop_stores l Hl ps 0 cmd t0 (r :: rx) (now :: clock)
                Hps Hcalm Hlen ltac:(lia)) as Hgo.
  change (Z.of_nat 0) with 0 in Hgo. rewrite Hgo. clear Hgo.
  cbn [Nat.add firstn app receiveCMD_loop].
  replace (0 <? r) with false by (symmetry; apply Z.ltb_ge; exact Hr).
  replace (100 <? uint32 (now - begun ps t0)) with true
    by (symmetry; apply Z.ltb_lt; exact Hgap).
  reflexivity.
Qed.

Lemma receiveCMD_timeout_witness :
  receiveCMD (bytes "vr" ++ [-1; 10]) [5; 5; 9; 12; 60; 113; 120]
             (repeat 0 65%nat) 0
  = Some (-1, bytes "vr" ++ repeat 0 63%nat, 0, [10], [120]).
Proof.
  assert (H1 : Forall inner (bytes "vr"))
    by (change (bytes "vr") with [118; 114]; apply Forall_forall;
        intros y [<- | [<- | []]]; unfold inner, LF; lia).
  assert (H2 : calm [(5, 9); (12, 60)])
    by (apply Forall_forall; intros y [<- | [<- | []]];
        unfold uint32; cbn; lia).
  exact (receiveCMD_timeout (bytes "vr") [10] [120] (repeat 0 65%nat) (-1)
           113 [(5, 9); (12, 60)] 5 H1 ltac:(cbn; lia) eq_refl H2 eq_refl
           ltac:(lia) ltac:(unfold uint32; cbn; lia)).
Defined.

(** ** checkCMD *)

Lemma checkCMD_from_spec (cmd : list Z) (n : nat) :
  forall i,
    (checkCMD_from cmd i n = 0 \/ checkCMD_from cmd i n = -1)
    /\ (checkCMD_from cmd i n = 0 <->
        forall k, 0 <= k < Z.of_nat n -> allowed (byteAt cmd (i + k))).
Proof.
  induction n as [|n IH]; intros i.
  - cbn [checkCMD_from]. split; [auto|]. split; auto. intros _ k Hk. lia.
  - cbn [checkCMD_from]. destruct (IH (i + 1)) as [Hr Hiff].
    assert (Hshift :
      (forall k, 0 <= k < Z.of_nat (S n) -> allowed (byteAt cmd (i + k)))
      <-> allowed (byteAt cmd i)
          /\ (forall k, 0 <= k < Z.of_nat n ->
                        allowed (byteAt cmd (i + 1 + k)))).
    { split.
      - intros H. split.
        + specialize (H 0). rewrite Z.add_0_r in H. apply H. lia.
        + intros k Hk. replace (i + 1 + k) with (i + (k + 1)) by lia.
          apply H. lia.
      - intros [H0 H] k Hk. destruct (Z.eq_dec k 0) as [->|Hk0].
        + rewrite Z.add_0_r. exact H0.
        + replace (i + k) with (i + 1 + (k - 1)) by lia. apply H. lia. }
    rewrite Hshift. unfold allowed, TAB, SP, CR, LF in *.
    destruct ((31 <? byteAt cmd i) && (byteAt cmd i <? 127)) eqn:E1.
    + apply andb_true_iff in E1. destruct E1 as [E1 E2].
      apply Z.ltb_lt in E1. apply Z.ltb_lt in E2.
      split; [exact Hr|]. rewrite Hiff.
      split; [intros H; split; [lia|exact H]|tauto].
    + apply andb_false_iff in E1. rewrite !Z.ltb_ge in E1.
      destruct ((byteAt cmd i =? 9) || (byteAt cmd i =? 32)
                || (byteAt cmd i =? 13) || (byteAt cmd i =? 10)) eqn:E2.
      * rewrite !orb_true_iff, !Z.eqb_eq in E2.
        split; [exact Hr|]. rewrite Hiff.
        split; [intros H; split; [lia|exact H]|tauto].
      * rewrite !orb_false_iff, !Z.eqb_neq in E2.
        split; [auto|]. split; [discriminate|]. intros [H0 _]. lia.
Qed.

(** X8. [checkCMD] returns 0 when every byte of the line is printable or a
    tab, carriage return or newline, and -1 otherwise. *)
Theorem checkCMD_accepts_allowed_bytes (cmd : list Z) (len : Z) :
  (checkCMD cmd len = 0 \/ checkCMD cmd len = -1)
  /\ (checkCMD cmd len = 0 <->
      forall k, 0 <= k < len -> allowed (byteAt cmd k)).
Proof.
  unfold checkCMD. destruct (checkCMD_from_spec cmd (Z.to_nat len) 0)
    as [Hr Hiff].
  split; [exact Hr|]. rewrite Hiff. split; intros H k Hk; apply (H k); lia.
Qed.

(** X9. A line with a byte that is not allowed is answered with "Command format
    error" and nothing else: it is not echoed and no handler runs. *)
Theorem command_refuses_other_bytes {D : Type} (myVR : VR D) (s : state D)
  (len k : Z) :
  0 <= k < len -> ~ allowed (byteAt (cmd s) k) ->
  command myVR len s = emit (println "Command format error") s.
Proof.
  intros Hk Hbad. unfold command.
  replace (0 <? len) with true by (symmetry; apply Z.ltb_lt; lia).
  unfold bind at 1. unfold get at 1.
  unfold checkCMD.
  destruct (checkCMD_from_spec (cmd s) (Z.to_nat len) 0) as [[H0 | H1] Hiff].
  - exfalso. apply Hbad. apply (proj1 Hiff H0 k). lia.
  - rewrite H1. reflexivity.
Qed.

Lemma command_refuses_other_bytes_witness :
  command (answering 0 []) 4 (received [118; 7; 114; 10])
  = emit (println "Command format error") (received [118; 7; 114; 10]).
Proof.
  apply (command_refuses_other_bytes (answering 0 [])
           (received [118; 7; 114; 10]) 4 1).
  - lia.
  - change (byteAt (cmd (received [118; 7; 114; 10])) 1) with 7.
    unfold allowed, TAB, CR, LF. lia.
Defined.

(** ** The scanners on a line of tokens *)

Lemma blank_is_stop (b : list Z) :
  Forall (fun c => c = TAB \/ c = SP) b -> stops b.
Proof.
  intros H. eapply Forall_impl; [|exact H]. intros c Hc. cbv beta in *.
  apply inPara_stop. destruct Hc; auto.
Qed.

Section CountSteps.

Variables (cmd : list Z) (len : Z).

Lemma checkParaNum_loop_stop (fuel : nat) (i cnt x : Z) (r : list Z) :
  0 <= i < len -> from cmd i = x :: r -> inPara x = false ->
  checkParaNum_loop (S fuel) cmd len i cnt
  = checkParaNum_loop fuel cmd len (i + 1) cnt.
Proof.
  intros Hi Hf Hx. cbn [checkParaNum_loop].
  destruct (i <? len) eqn:E; [|apply Z.ltb_ge in E; lia].
  rewrite byteAt_from, Hf. cbn [hd]. rewrite Hx. reflexivity.
Qed.

Lemma checkParaNum_loop_stops (st : list Z) :
  stops st ->
  forall (fuel : nat) (i cnt : Z) (r : list Z),
    0 <= i -> i + len_of st <= len -> from cmd i = st ++ r ->
    checkParaNum_loop (List.length st + fuel) cmd len i cnt
    = checkParaNum_loop fuel cmd len (i + len_of st) cnt.
Proof.
  induction 1 as [|x st Hx Hst IH]; intros fuel i cnt r Hi Hl Hf.
  - cbn [List.length Nat.add]. change (len_of []) with 0.
    rewrite Z.add_0_r. reflexivity.
  - rewrite len_of_cons in *. pose proof (len_of_nonneg st).
    cbn [List.length Nat.add].
    rewrite (checkParaNum_loop_stop _ i cnt x (st ++ r));
      [| lia | exact Hf | exact Hx].
    rewrite (IH fuel (i + 1) cnt r); [f_equal; lia | lia | lia |].
    apply (from_step cmd i x); [lia | exact Hf].
Qed.

Lemma checkParaNum_loop_token (fuel : nat) (i cnt x : Z) (t r : list Z) :
  0 <= i < len -> from cmd i = t ++ x :: r -> token t ->
  inPara x = false ->
  checkParaNum_loop (S fuel) cmd len i cnt
  = checkParaNum_loop fuel cmd len (i + len_of t + 1) (cnt + 1).
Proof.
  intros Hi Hf Ht Hx. cbn [checkParaNum_loop].
  destruct (i <? len) eqn:E; [|apply Z.ltb_ge in E; lia].
  rewrite byteAt_from, Hf.
  rewrite (graphic_inPara _ (token_head t (x :: r) Ht)).
  rewrite (scanPara_graphic t (x :: r) (proj2 Ht)); [reflexivity | exact Hx].
Qed.

Lemma checkParaNum_loop_end (fuel : nat) (cnt : Z) :
  checkParaNum_loop (S fuel) cmd len len cnt = Some cnt.
Proof.
  cbn [checkParaNum_loop]. rewrite Z.ltb_irrefl. reflexivity.
Qed.

End CountSteps.

Section Count.

Variables (cmd : list Z) (len : Z) (tail rest : list Z).
Hypothesis Htail : stops tail.

Lemma checkParaNum_loop_tokens (segs : list (list Z * list Z)) :
  segments segs ->
  forall (fuel : nat) (i cnt : Z) (t : list Z),
    token t -> 0 <= i ->
    from cmd i = t ++ body segs ++ tail ++ LF :: rest ->
    i + len_of t + len_of (body segs) + len_of tail + 1 = len ->
    (Z.to_nat (len - i) < fuel)%nat ->
    checkParaNum_loop fuel cmd len i cnt
    = Some (cnt + 1 + Z.of_nat (List.length segs)).
Proof.
  induction 1 as [|[b1 t1] segs [Hb1 Ht1] Hs IH];
    intros fuel i cnt t Ht Hi Hf Hl Hfuel.
  - (* the last token: only the tail and the newline follow *)
    cbn [body flat_map app List.length] in *. change (len_of []) with 0 in Hl.
    pose proof (token_pos t Ht). pose proof (len_of_nonneg tail).
    assert (Hall : stops (tail ++ [LF])).
    { apply Forall_app. split; [exact Htail|]. repeat constructor. }
    assert (E : tail ++ LF :: rest = (tail ++ [LF]) ++ rest)
      by (rewrite <- app_assoc; reflexivity).
    rewrite E in Hf.
    destruct (tail ++ [LF]) as [|x st] eqn:Est.
    { destruct tail; discriminate. }
    assert (Hlen_st : len_of (x :: st) = len_of tail + 1).
    { rewrite <- Est, len_of_app. reflexivity. }
    rewrite len_of_cons in Hlen_st.
    apply Forall_cons_iff in Hall. destruct Hall as [Hx Hst].
    destruct fuel as [|fuel]; [lia|].
    rewrite (checkParaNum_loop_token cmd len fuel i cnt x t (st ++ rest));
      [| lia | exact Hf | exact Ht | exact Hx].
    assert (Hf1 : from cmd (i + len_of t + 1) = st ++ rest).
    { replace (i + len_of t + 1) with (i + (len_of t + 1)) by lia.
      rewrite from_plus by lia. rewrite Hf.
      replace (t ++ (x :: st) ++ rest) with ((t ++ [x]) ++ st ++ rest)
        by (rewrite <- app_assoc; reflexivity).
      replace (len_of t + 1) with (len_of (t ++ [x]))
        by (rewrite len_of_app; reflexivity).
      apply from_app. }
    pose proof (len_of_nonneg st).
    replace fuel with (List.length st + (fuel - List.length st))%nat
      by (unfold len_of in *; lia).
    rewrite (checkParaNum_loop_stops cmd len st Hst _ _ _ rest);
      [| lia | lia | exact Hf1].
    replace (i + len_of t + 1 + len_of st) with len by lia.
    destruct (fuel - List.length st)%nat as [|f] eqn:Ef;
      [unfold len_of in *; lia|].
    rewrite checkParaNum_loop_end. f_equal. cbn. lia.
  - cbn [fst snd] in Hb1, Ht1. rewrite body_cons in Hf, Hl.
    rewrite !len_of_app in Hl.
    pose proof (token_pos t Ht). pose proof (token_pos t1 Ht1).
    pose proof (len_of_nonneg (body segs)). pose proof (len_of_nonneg tail).
    destruct Hb1 as [Hne Hb1]. destruct b1 as [|x b1]; [congruence|].
    apply Forall_cons_iff in Hb1. destruct Hb1 as [Hx Hb1'].
    rewrite len_of_cons in Hl. pose proof (len_of_nonneg b1).
    assert (Hx' : inPara x = false) by (apply inPara_stop; tauto).
    destruct fuel as [|fuel]; [lia|].
    rewrite (checkParaNum_loop_token cmd len fuel i cnt x t
               (b1 ++ t1 ++ body segs ++ tail ++ LF :: rest));
      [| lia | rewrite Hf, <- !app_assoc; reflexivity | exact Ht | exact Hx'].
    assert (Hf1 : from cmd (i + len_of t + 1)
                  = b1 ++ t1 ++ body segs ++ tail ++ LF :: rest).
    { replace (i + len_of t + 1) with (i + (len_of t + 1)) by lia.
      rewrite from_plus by lia. rewrite Hf.
      replace (t ++ ((x :: b1) ++ t1 ++ body segs) ++ tail ++ LF :: rest)
        with ((t ++ [x]) ++ b1 ++ t1 ++ body segs ++ tail ++ LF :: rest)
        by (rewrite <- !app_assoc; reflexivity).
      replace (len_of t + 1) with (len_of (t ++ [x]))
        by (rewrite len_of_app; reflexivity).
      apply from_app. }
    replace fuel with (List.length b1 + (fuel - List.length b1))%nat
      by (unfold len_of in *; lia).
    rewrite (checkParaNum_loop_stops cmd len b1 (blank_is_stop b1 Hb1') _ _ _
               (t1 ++ body segs ++ tail ++ LF :: rest));
      [| lia | lia | exact Hf1].
    rewrite (IH _ _ _ t1 Ht1);
      [f_equal; cbn [List.length]; lia | lia | | lia |].
    + rewrite from_plus by lia. rewrite Hf1. apply from_app.
    + unfold len_of in *. lia.
Qed.

End Count.

(** X10. On a line made of a command word and arguments, separated by tabs and
    spaces, with anything that is not part of a token before the word and
    before the newline, [checkParaNum] counts the word and each argument
    once. *)
Theorem checkParaNum_counts_tokens (lead w : list Z)
  (segs : list (list Z * list Z)) (tail rest : list Z) :
  stops lead -> token w -> segments segs -> stops tail ->
  let cmd := lead ++ w ++ body segs ++ tail ++ LF :: rest in
  let len := len_of lead + len_of w + len_of (body segs) + len_of tail + 1 in
  checkParaNum cmd len = Some (1 + Z.of_nat (List.length segs)).
Proof.
  intros Hlead Hw Hsegs Htail cmd len. unfold checkParaNum.
  pose proof (len_of_nonneg lead). pose proof (token_pos w Hw).
  pose proof (len_of_nonneg (body segs)). pose proof (len_of_nonneg tail).
  replace (S (Z.to_nat len))
    with (List.length lead + (S (Z.to_nat len) - List.length lead))%nat
    by (unfold len, len_of in *; lia).
  rewrite (checkParaNum_loop_stops cmd len lead Hlead _ 0 0
             (w ++ body segs ++ tail ++ LF :: rest));
    [| lia | unfold len; lia | reflexivity].
  rewrite (checkParaNum_loop_tokens cmd len tail rest Htail segs Hsegs _ _ _ w
             Hw); [reflexivity | lia | apply from_app | unfold len; lia |].
  unfold len, len_of in *. lia.
Qed.

Lemma checkParaNum_counts_tokens_witness :
  checkParaNum (bytes "  train 0" ++ [TAB] ++ bytes "2 " ++ [CR; LF]) 14
  = Some 3.
Proof.
  assert (H1 : stops [SP; SP]) by (repeat constructor).
  assert (H2 : token (bytes "train"))
    by (split; [discriminate | apply graphic_bytes; reflexivity]).
  assert (H3 : segments [([SP], bytes "0"); ([TAB], bytes "2")])
    by (repeat constructor; try discriminate;
        try (right; reflexivity); try (left; reflexivity);
        apply graphic_bytes; reflexivity).
  assert (H4 : stops [SP; CR]) by (repeat constructor).
  exact (checkParaNum_counts_tokens [SP; SP] (bytes "train")
           [([SP], bytes "0"); ([TAB], bytes "2")] [SP; CR] [] H1 H2 H3 H4).
Defined.

(** X11. On such a line [findPara] answers index 1 with the command word and
    index k+2 with argument k: the address is that of the token's first
    byte, the length is the token's, and the bytes there are the token. *)
Theorem findPara_finds_each_token (lead w : list Z)
  (segs : list (list Z * list Z)) (c : Z) (rest : list Z) (len a0 : Z) :
  Forall (fun x => x = TAB \/ x = SP) lead -> token w -> segments segs ->
  c = CR \/ c = LF ->
  len_of lead + len_of w + len_of (body segs) < len ->
  let cmd := lead ++ w ++ body segs ++ c :: rest in
  findPara cmd len 1 a0 = Some (len_of w, len_of lead)
  /\ forall (k : nat) (b t : list Z),
       nth_error segs k = Some (b, t) ->
       let a := len_of lead + len_of w + offset segs k in
       findPara cmd len (Z.of_nat k + 2) a0 = Some (len_of t, a)
       /\ firstn (List.length t) (from cmd a) = t.
Proof.
  intros Hlead Hw Hsegs Hc Hlen cmd.
  assert (Hstop : inPara c = false) by (destruct Hc as [-> | ->]; reflexivity).
  pose proof (len_of_nonneg lead). pose proof (token_pos w Hw).
  pose proof (len_of_nonneg (body segs)).
  destruct (body_then_stop segs c rest Hsegs Hstop) as (x & r & Ex & Hx).
  assert (Hfw : from cmd (len_of lead) = w ++ body segs ++ c :: rest)
    by apply from_app.
  assert (Hfb : from cmd (len_of lead + len_of w) = body segs ++ c :: rest).
  { rewrite from_plus by lia. rewrite Hfw. apply from_app. }
  assert (Hgo : forall p fuel,
    findPara_loop (List.length lead + S fuel) cmd len p a0 0 0
    = if p =? 0 + 1 then Some (len_of w, 0 + len_of lead)
      else findPara_loop fuel cmd len p a0 (0 + len_of lead + len_of w)
             (0 + 1)).
  { intros p fuel.
    rewrite (findPara_loop_blanks cmd len p a0 lead Hlead _ 0 0
               (w ++ body segs ++ c :: rest)); [| lia | lia | reflexivity].
    apply (findPara_loop_token cmd len p a0 fuel _ 0 w
             (body segs ++ c :: rest)); [lia | exact Hfw | exact Hw |].
    rewrite Ex. exact Hx. }
  split.
  - unfold findPara.
    apply (findPara_loop_more cmd len 1 a0 (List.length lead + 1)).
    + rewrite Hgo. reflexivity.
    + unfold findPara_fuel, len_of in *. lia.
  - intros k b t Hk a.
    destruct (findPara_loop_segments cmd len (Z.of_nat k + 2) a0 c rest Hstop
                segs Hsegs k (len_of lead + len_of w) 1 b t Hk)
      as (Hfind & x' & r' & Hfrom & _); [lia | lia | exact Hfb | lia |].
    replace (len_of lead + len_of w + offset segs k) with a in * by reflexivity.
    split.
    + unfold findPara.
      apply (findPara_loop_more cmd len (Z.of_nat k + 2) a0
               (List.length lead + S (List.length (body segs)))).
      * rewrite Hgo.
        replace (Z.of_nat k + 2 =? 0 + 1) with false
          by (symmetry; apply Z.eqb_neq; lia).
        exact Hfind.
      * unfold findPara_fuel, len_of in *. lia.
    + rewrite Hfrom. rewrite firstn_app, Nat.sub_diag, firstn_all.
      cbn [firstn]. apply app_nil_r.
Qed.

Lemma findPara_finds_each_token_witness :
  findPara (bytes " train 0 14" ++ [CR; LF]) 13 3 0 = Some (2, 9)
  /\ firstn 2 (from (bytes " train 0 14" ++ [CR; LF]) 9) = bytes "14".
Proof.
  assert (H1 : Forall (fun x => x = TAB \/ x = SP) [SP])
    by (repeat constructor; right; reflexivity).
  assert (H2 : token (bytes "train"))
    by (split; [discriminate | apply graphic_bytes; reflexivity]).
  assert (H3 : segments [([SP], bytes "0"); ([SP], bytes "14")])
    by (repeat constructor; try discriminate;
        try (right; reflexivity); apply graphic_bytes; reflexivity).
  assert (H4 : CR = CR \/ CR = LF) by (left; reflexivity).
  assert (H5 : len_of [SP] + len_of (bytes "train")
               + len_of (body [([SP], bytes "0"); ([SP], bytes "14")]) < 13)
    by (cbn; lia).
  exact (proj2 (findPara_finds_each_token [SP] (bytes "train")
                  [([SP], bytes "0"); ([SP], bytes "14")] CR [LF] 13 0
                  H1 H2 H3 H4 H5) 1%nat [SP] (bytes "14") eq_refl).
Defined.

(** ** The table search *)

Lemma byteAt_cons (x : Z) (l : list Z) (k : Z) :
  0 <= k -> byteAt (x :: l) (k + 1) = byteAt l k.
Proof.
  intros Hk. unfold byteAt.
  replace (Z.to_nat (k + 1)) with (S (Z.to_nat k)) by lia. reflexivity.
Qed.

Lemma same_bytes (w : list Z) :
  forall (nm r1 r2 : list Z),
    List.length w = List.length nm ->
    Forall (fun x => 0 <= x < 256) w -> Forall (fun x => 0 <= x < 256) nm ->
    (forall k, 0 <= k < len_of w ->
               uint8 (byteAt (nm ++ r2) k - byteAt (w ++ r1) k) = 0)
    <-> w = nm.
Proof.
  induction w as [|x w IH]; intros [|y nm] r1 r2 Hl Hw Hn;
    try discriminate.
  - split; auto. intros _ k Hk. change (len_of []) with 0 in Hk. lia.
  - apply Forall_cons_iff in Hw. destruct Hw as [Hx Hw].
    apply Forall_cons_iff in Hn. destruct Hn as [Hy Hn].
    injection Hl as Hl. rewrite len_of_cons.
    pose proof (len_of_nonneg w) as Hw0.
    specialize (IH nm r1 r2 Hl Hw Hn). split.
    + intros H. assert (x = y).
      { specialize (H 0 ltac:(lia)). cbn in H. unfold uint8 in H.
        Z.div_mod_to_equations. lia. }
      subst y. f_equal. apply IH. intros k Hk.
      specialize (H (k + 1) ltac:(lia)).
      rewrite <- !app_comm_cons, !byteAt_cons in H by lia. exact H.
    + intros E. injection E as -> ->. intros k Hk.
      destruct (Z.eq_dec k 0) as [->|Hk0].
      * cbn. rewrite Z.sub_diag. reflexivity.
      * replace k with (k - 1 + 1) by lia.
        rewrite <- !app_comm_cons, !byteAt_cons by lia.
        apply (proj2 IH eq_refl). lia.
Qed.

Lemma graphic_is_byte (w : list Z) :
  Forall graphic w -> Forall (fun x => 0 <= x < 256) w.
Proof.
  intros H. eapply Forall_impl; [|exact H]. unfold graphic. intros; lia.
Qed.

Lemma hits_word {D : Type} (s1 : state D) (w r : list Z) (j : nat) :
  (j < 8)%nat -> token w ->
  from (cmd s1) (paraAddr s1) = w ++ r ->
  hits s1 (len_of w) (Z.of_nat j) = true <-> w = cmdWord j.
Proof.
  intros Hj [Hne Hw] Hf. unfold hits. rewrite Hf, Nat2Z.id.
  unfold compareCMD.
  rewrite andb_true_iff, !Z.eqb_eq, compareCMD_from_exact.
  assert (Hrow : exists pad, nth j cmdList [] = cmdWord j ++ pad).
  { exists (skipn (Z.to_nat (nth j cmdLen 0)) (nth j cmdList [])).
    unfold cmdWord. symmetry. apply firstn_skipn. }
  destruct Hrow as [pad Hrow].
  assert (Hlen : len_of (cmdWord j) = nth j cmdLen 0
                 /\ Forall (fun x => 0 <= x < 256) (cmdWord j)).
  { do 8 (destruct j as [|j]; [split; [reflexivity|repeat constructor; lia]|]).
    lia. }
  destruct Hlen as [Hlen Hbytes]. rewrite Hrow.
  split.
  - intros [El H]. rewrite <- Hlen in El.
    apply (same_bytes w (cmdWord j) r pad);
      [unfold len_of in El; lia | apply graphic_is_byte; exact Hw
      | exact Hbytes |].
    intros k Hk. apply (H k). unfold len_of in *. lia.
  - intros E. split; [rewrite E; exact Hlen|].
    intros k Hk. rewrite <- E.
    apply (proj2 (same_bytes w w r pad eq_refl (graphic_is_byte w Hw)
                    (graphic_is_byte w Hw)) eq_refl).
    unfold len_of in *. lia.
Qed.

Lemma search_misses {D : Type} (myVR : VR D) (len paraNum paraLen : Z)
  (s1 : state D) (n : nat) :
  forall i,
    (forall k, (k < n)%nat -> hits s1 paraLen (i + Z.of_nat k) = false) ->
    search myVR n i len paraNum paraLen s1 = Some (i + Z.of_nat n, s1).
Proof.
  induction n as [|n IH]; intros i H.
  - cbn [search]. unfold ret. rewrite Z.add_0_r. reflexivity.
  - rewrite search_step. pose proof (H 0%nat ltac:(lia)) as H0.
    rewrite Z.add_0_r in H0. rewrite H0. rewrite IH.
    + f_equal. f_equal. lia.
    + intros k Hk. replace (i + 1 + Z.of_nat k) with (i + Z.of_nat (S k))
        by lia. apply H. lia.
Qed.

Lemma search_finds {D : Type} (myVR : VR D) (len paraNum paraLen : Z)
  (s1 : state D) (n : nat) :
  forall i (j : nat),
    (j < n)%nat ->
    (forall k, (k < j)%nat -> hits s1 paraLen (i + Z.of_nat k) = false) ->
    hits s1 paraLen (i + Z.of_nat j) = true ->
    search myVR n i len paraNum paraLen s1
    = bind (nth (Z.to_nat (i + Z.of_nat j)) (cmdFunction myVR) cmdTest
              len paraNum)
        (fun r =>
           bind (if r !=? 0 then emit (println "Command Format Error!")
                 else ret tt)
             (fun _ => ret (i + Z.of_nat j))) s1.
Proof.
  induction n as [|n IH]; intros i j Hj Hmiss Hhit; [lia|].
  rewrite search_step. destruct j as [|j].
  - rewrite Z.add_0_r in *. rewrite Hhit. reflexivity.
  - pose proof (Hmiss 0%nat ltac:(lia)) as H0. rewrite Z.add_0_r in H0.
    rewrite H0.
    replace (i + Z.of_nat (S j)) with (i + 1 + Z.of_nat j) in * by lia.
    apply IH; [lia | | exact Hhit].
    intros k Hk. replace (i + 1 + Z.of_nat k) with (i + Z.of_nat (S k))
      by lia. apply Hmiss. lia.
Qed.

Section Dispatch.

Variables (D : Type) (myVR : VR D) (s : state D).
Variables (lead w rest : list Z) (c0 len : Z).
Hypothesis Hlead : Forall (fun x => x = TAB \/ x = SP) lead.
Hypothesis Hw : token w.
Hypothesis Hc0 : inPara c0 = false.
Hypothesis Hcmd : cmd s = lead ++ w ++ c0 :: rest.
Hypothesis Hlen : len_of lead + len_of w < len.
Hypothesis Hok : checkCMD (cmd s) len = 0.

Lemma first_token (a0 : Z) :
  findPara (cmd s) len 1 a0 = Some (len_of w, len_of lead).
Proof.
  pose proof (len_of_nonneg lead). pose proof (token_pos w Hw).
  unfold findPara.
  apply (findPara_loop_more (cmd s) len 1 a0 (List.length lead + 1)).
  - rewrite (findPara_loop_blanks (cmd s) len 1 a0 lead Hlead _ 0 0
               (w ++ c0 :: rest)); [| lia | lia | exact Hcmd].
    rewrite (findPara_loop_token (cmd s) len 1 a0 _ _ 0 w (c0 :: rest));
      [reflexivity | lia | | exact Hw | exact Hc0].
    rewrite Hcmd. apply from_app.
  - unfold findPara_fuel, len_of in *. lia.
Qed.

Lemma command_searches (n : Z) :
  checkParaNum (cmd s) len = Some n ->
  command myVR len s
  = bind (search myVR 8 0 len n (len_of w))
      (fun i => if i =? CMD_NUM then emit (println "Unkonwn command")
                else ret tt)
      (searching s len (len_of lead)).
Proof.
  intros Hn. pose proof (len_of_nonneg lead). pose proof (token_pos w Hw).
  unfold command.
  replace (0 <? len) with true by (symmetry; apply Z.ltb_lt; lia).
  unfold bind at 1. unfold get at 1. rewrite Hok.
  change (0 =? 0) with true. cbv iota.
  unfold bind at 1. rewrite Hn.
  unfold bind at 1. unfold emit at 1.
  unfold bind at 1. unfold findParaG. cbn [cmd paraAddr].
  rewrite first_token.
  unfold bind at 1. unfold set_paraAddr at 1.
  cbn [cmd paraAddr buf records dev out]. unfold ret at 1.
  reflexivity.
Qed.

Lemma searching_from :
  from (cmd (searching s len (len_of lead)))
       (paraAddr (searching s len (len_of lead))) = w ++ c0 :: rest.
Proof. cbn [searching cmd paraAddr]. rewrite Hcmd. apply from_app. Qed.

End Dispatch.

(** X12. A line whose first token is, byte for byte, word [j] of the command
    table is echoed and handed to handler [j] with the line length and the
    parameter count; "Command Format Error!" follows when the handler
    returns a value other than 0, and nothing else is printed. Tabs and
    spaces before the word are skipped. *)
Theorem command_runs_the_handler {D : Type} (myVR : VR D) (s : state D)
  (lead w rest : list Z) (c0 len : Z) (j : nat) :
  Forall (fun x => x = TAB \/ x = SP) lead -> token w ->
  inPara c0 = false ->
  cmd s = lead ++ w ++ c0 :: rest ->
  len_of lead + len_of w < len ->
  checkCMD (cmd s) len = 0 ->
  (j < 8)%nat -> w = cmdWord j ->
  exists n,
    checkParaNum (cmd s) len = Some n
    /\ command myVR len s
       = bind (nth j (cmdFunction myVR) cmdTest len n)
           (fun r => if r !=? 0
                     then emit (println "Command Format Error!")
                     else ret tt)
           (searching s len (len_of lead)).
Proof.
  intros Hlead Hw Hc0 Hcmd Hlen Hok Hj E.
  destruct (checkParaNum_total (cmd s) len) as (n & Hn & _).
  exists n. split; [exact Hn|].
  rewrite (command_searches D myVR s lead w rest c0 len Hlead Hw Hc0 Hcmd
             Hlen Hok n Hn).
  pose proof (searching_from D s lead w rest c0 len Hcmd) as Hf.
  unfold bind at 1.
  rewrite (search_finds myVR len n (len_of w) _ 8 0 j Hj).
  - rewrite Z.add_0_l, Nat2Z.id. unfold bind.
    destruct (nth j (cmdFunction myVR) cmdTest len n _) as [[r s2]|];
      [|reflexivity].
    assert (Ej : (Z.of_nat j =? CMD_NUM) = false)
      by (apply Z.eqb_neq; unfold CMD_NUM; lia).
    destruct (r !=? 0); unfold emit, ret; rewrite Ej; reflexivity.
  - intros k Hk. rewrite Z.add_0_l.
    destruct (hits _ (len_of w) (Z.of_nat k)) eqn:Eh; [|reflexivity].
    apply (hits_word _ w (c0 :: rest) k ltac:(lia) Hw Hf) in Eh.
    exfalso. rewrite E in Eh.
    do 8 (destruct j as [|j];
          [do 8 (destruct k as [|k]; [try discriminate Eh; lia|]); lia|]).
    lia.
  - rewrite Z.add_0_l. apply (hits_word _ w (c0 :: rest) j Hj Hw Hf).
    exact E.
Qed.

Lemma command_runs_the_handler_witness :
  exists n,
    checkParaNum (cmd (received (line "  getsig 3"))) 11 = Some n
    /\ command (answering 0 []) 11 (received (line "  getsig 3"))
       = bind (cmdGetSig (answering 0 []) 11 n)
           (fun r => if r !=? 0
                     then emit (println "Command Format Error!")
                     else ret tt)
           (searching (received (line "  getsig 3")) 11 2).
Proof.
  assert (H1 : Forall (fun x => x = TAB \/ x = SP) [SP; SP])
    by (repeat constructor; right; reflexivity).
  assert (H2 : token (bytes "getsig"))
    by (split; [discriminate | apply graphic_bytes; reflexivity]).
  exact (command_runs_the_handler (answering 0 [])
           (received (line "  getsig 3")) [SP; SP] (bytes "getsig")
           (bytes "3" ++ LF :: repeat 0 54%nat) SP 11 6 H1 H2 eq_refl
           eq_refl ltac:(cbn; lia) eq_refl ltac:(lia) eq_refl).
Defined.

(** X13. A line whose first token is none of the eight words of the table, in
    exactly their spelling, is echoed and answered with "Unkonwn command";
    no handler runs. *)
Theorem command_unknown_word {D : Type} (myVR : VR D) (s : state D)
  (lead w rest : list Z) (c0 len : Z) :
  Forall (fun x => x = TAB \/ x = SP) lead -> token w ->
  inPara c0 = false ->
  cmd s = lead ++ w ++ c0 :: rest ->
  len_of lead + len_of w < len ->
  checkCMD (cmd s) len = 0 ->
  (forall j, (j < 8)%nat -> w <> cmdWord j) ->
  command myVR len s
  = emit (println "Unkonwn command") (searching s len (len_of lead)).
Proof.
  intros Hlead Hw Hc0 Hcmd Hlen Hok Hno.
  destruct (checkParaNum_total (cmd s) len) as (n & Hn & _).
  rewrite (command_searches D myVR s lead w rest c0 len Hlead Hw Hc0 Hcmd
             Hlen Hok n Hn).
  pose proof (searching_from D s lead w rest c0 len Hcmd) as Hf.
  unfold bind. rewrite (search_misses myVR len n (len_of w) _ 8 0).
  - reflexivity.
  - intros k Hk. rewrite Z.add_0_l.
    destruct (hits _ (len_of w) (Z.of_nat k)) eqn:Eh; [|reflexivity].
    apply (hits_word _ w (c0 :: rest) k Hk Hw Hf) in Eh.
    exfalso. exact (Hno k Hk Eh).
Qed.

Lemma command_unknown_word_witness :
  command (answering 0 []) 6 (received (line "Clear"))
  = emit (println "Unkonwn command")
      (searching (received (line "Clear")) 6 0).
Proof.
  assert (H2 : token (bytes "Clear"))
    by (split; [discriminate | apply graphic_bytes; reflexivity]).
  assert (H3 : forall j, (j < 8)%nat -> bytes "Clear" <> cmdWord j).
  { intros j Hj. do 8 (destruct j as [|j]; [discriminate|]). lia. }
  exact (command_unknown_word (answering 0 []) (received (line "Clear"))
           [] (bytes "Clear") (repeat 0 59%nat) LF 6 (Forall_nil _) H2
           eq_refl eq_refl ltac:(cbn; lia) eq_refl H3).
Defined.

(** ** A format error comes before any effect *)

Section Quiet.

Variable D : Type.

Lemma quiet_bind {A B : Type} (m : M D A) (k : A -> M D B) :
  quiet m -> (forall a, quiet (k a)) -> quiet (bind m k).
Proof.
  intros Hm Hk s b s' H. unfold bind in H.
  destruct (m s) as [[a s1]|] eqn:E; [|discriminate].
  destruct (Hm _ _ _ E) as [A1 A2]. destruct (Hk a _ _ _ H) as [B1 B2].
  split; congruence.
Qed.

Lemma quiet_ret {A : Type} (a : A) : quiet (@ret D A a).
Proof. intros s x s' H. injection H as _ <-. auto. Qed.

Lemma quiet_get : quiet (@get D).
Proof. intros s x s' H. injection H as _ <-. auto. Qed.

Lemma quiet_set_record (i v : Z) : quiet (@set_record D i v).
Proof. intros s x s' H. injection H as _ <-. auto. Qed.

Lemma quiet_findParaG (len i : Z) : quiet (@findParaG D len i).
Proof.
  intros s n s' H. unfold findParaG in H.
  destruct (findPara (cmd s) len i (paraAddr s)) as [[n' a]|];
    [|discriminate].
  injection H as _ <-. auto.
Qed.

Lemma quiet_recordArg (len i k : Z) : quiet (@recordArg D len i k).
Proof.
  unfold recordArg.
  repeat first [ apply quiet_findParaG | apply quiet_get
               | apply quiet_set_record | apply quiet_ret
               | apply quiet_bind; [|intros ?] ].
Qed.

Lemma quiet_recordArgs (n : nat) :
  forall len i, quiet (@recordArgs D n len i).
Proof.
  induction n as [|n IH]; intros len i; cbn [recordArgs].
  - apply quiet_ret.
  - apply quiet_bind; [apply quiet_recordArg|].
    intros [|]; [apply quiet_ret | apply IH].
Qed.

Lemma always_zero_ret : always_zero (@ret D Z 0).
Proof. intros s r s' H. injection H as <- _. reflexivity. Qed.

Lemma always_zero_bind {A : Type} (m : M D A) (k : A -> M D Z) :
  (forall a, always_zero (k a)) -> always_zero (bind m k).
Proof.
  intros Hk s r s' H. unfold bind in H.
  destruct (m s) as [[a s1]|]; [|discriminate]. eapply Hk. exact H.
Qed.

Lemma fails_quietly_zero (m : M D Z) : always_zero m -> fails_quietly m.
Proof. intros Hm s s' H. apply Hm in H. discriminate. Qed.

Lemma fails_quietly_ret (r : Z) : fails_quietly (@ret D Z r).
Proof. intros s s' H. injection H as _ <-. auto. Qed.

Lemma fails_quietly_bind {A : Type} (m : M D A) (k : A -> M D Z) :
  quiet m -> (forall a, fails_quietly (k a)) -> fails_quietly (bind m k).
Proof.
  intros Hm Hk s s' H. unfold bind in H.
  destruct (m s) as [[a s1]|] eqn:E; [|discriminate].
  destruct (Hm _ _ _ E) as [A1 A2]. destruct (Hk a _ _ H) as [B1 B2].
  split; congruence.
Qed.

End Quiet.

Ltac zero_all :=
  repeat first
    [ apply always_zero_ret
    | apply always_zero_bind; intros ?
    | match goal with
      | |- always_zero (if ?c then _ else _) => destruct c
      | |- always_zero (let '(_, _) := ?p in _) => destruct p
      end ].

Ltac after_arguments :=
  intros [|]; [apply fails_quietly_ret | apply fails_quietly_zero; zero_all].

(** X16. When a handler other than that of "vr" returns -1, it has neither
    printed nor called the module: the format error is found before any
    effect. The handler of "vr" may have made its one call. *)
Theorem format_error_before_any_effect {D : Type} (myVR : VR D)
  (j : nat) (len paraNum : Z) (s s' : state D) :
  nth j (cmdFunction myVR) cmdTest len paraNum s = Some (-1, s') ->
  (j <> 3%nat -> out s' = out s /\ dev s' = dev s)
  /\ (j = 3%nat ->
      out s' = out s \/ out s' = out s ++ [Call CheckRecognizer]).
Proof.
  intros H. split.
  - intros Hj.
    assert (G : fails_quietly
                  (nth j (cmdFunction myVR) cmdTest len paraNum)).
    { destruct j as [|[|[|[|[|[|[|[|j]]]]]]]]; cbn [nth cmdFunction];
        [| | | | | | | |destruct j].
      - unfold cmdTrain. destruct (_ || _); [apply fails_quietly_ret|].
        apply fails_quietly_bind; [apply quiet_recordArgs | after_arguments].
      - unfold cmdLoad. destruct (_ || _); [apply fails_quietly_ret|].
        apply fails_quietly_bind; [apply quiet_recordArgs | after_arguments].
      - unfold cmdClear. destruct (_ !=? _); [apply fails_quietly_ret|].
        apply fails_quietly_zero; zero_all.
      - congruence.
      - unfold cmdRecord. destruct (_ =? _);
          [apply fails_quietly_zero; zero_all|].
        destruct (_ <? _); [|apply fails_quietly_ret].
        apply fails_quietly_bind; [apply quiet_recordArgs | after_arguments].
      - unfold cmdSigTrain. destruct (_ <? _); [apply fails_quietly_ret|].
        apply fails_quietly_bind; [apply quiet_recordArg | after_arguments].
      - unfold cmdGetSig. destruct (_ !=? _); [apply fails_quietly_ret|].
        apply fails_quietly_bind; [apply quiet_recordArg | after_arguments].
      - unfold cmdTest. apply fails_quietly_zero; zero_all.
      - unfold cmdTest. apply fails_quietly_zero; zero_all.
      - unfold cmdTest. apply fails_quietly_zero; zero_all. }
    apply G. exact H.
  - intros ->. cbn [nth cmdFunction] in H. unfold cmdVR in H.
    destruct (paraNum !=? 1); [injection H as <-; auto|].
    unfold bind, delegate in H.
    destruct (vr_checkRecognizer myVR (dev s) (buf s)) as [[r b'] d'].
    destruct (r <=? 0).
    + injection H as <-. right. reflexivity.
    + unfold get, emit, ret in H. discriminate.
Qed.

Lemma format_error_before_any_effect_witness :
  let s := received (line "load x") in
  let s' := mkState (cmd s) 5 (buf s) (records s) tt [] in
  (1%nat <> 3%nat -> out s' = out s /\ dev s' = dev s)
  /\ (1%nat = 3%nat ->
      out s' = out s \/ out s' = out s ++ [Call CheckRecognizer]).
Proof.
  apply (format_error_before_any_effect (answering 0 []) 1 7 2
           (received (line "load x"))).
  vm_compute. reflexivity.
Defined.

(** ** One request for one command *)

Lemma calls_printVR (b : list Z) : calls (printVR b) = [].
Proof.
  unfold printVR. repeat rewrite calls_app.
  rewrite ?calls_printSignature.
  repeat match goal with
         | |- context [if ?c then _ else _] => destruct c
         end; rewrite ?calls_printSignature; reflexivity.
Qed.

Lemma calls_printCheckRecognizer_from (b : list Z) (n : nat) :
  forall i, calls (printCheckRecognizer_from b i n) = [].
Proof.
  induction n as [|n IH]; intros i; [reflexivity|].
  cbn [printCheckRecognizer_from]. repeat rewrite calls_app. rewrite IH.
  repeat match goal with
         | |- context [if ?c then _ else _] => destruct c
         end; reflexivity.
Qed.

Lemma calls_printCheckRecognizer (b : list Z) :
  calls (printCheckRecognizer b) = [].
Proof.
  unfold printCheckRecognizer. repeat rewrite calls_app.
  rewrite calls_printCheckRecognizer_from.
  repeat match goal with
         | |- context [if ?c then _ else _] => destruct c
         end; reflexivity.
Qed.

Section Asks.

Variable D : Type.

Lemma mute_quiet {A : Type} (m : M D A) : quiet m -> mute m.
Proof. intros H s a s' E. destruct (H s a s' E) as [-> _]. reflexivity. Qed.

Lemma mute_emit (es : list event) : calls es = [] -> mute (@emit D es).
Proof.
  intros H s a s' E. injection E as _ <-. cbn [out].
  rewrite calls_app, H, app_nil_r. reflexivity.
Qed.

Lemma mute_ret {A : Type} (a : A) : mute (@ret D A a).
Proof. apply mute_quiet, quiet_ret. Qed.

Lemma mute_get : mute (@get D).
Proof. apply mute_quiet, quiet_get. Qed.

Lemma mute_bind {A B : Type} (m : M D A) (k : A -> M D B) :
  mute m -> (forall a, mute (k a)) -> mute (bind m k).
Proof.
  intros Hm Hk s b s' H. unfold bind in H.
  destruct (m s) as [[a s1]|] eqn:E; [|discriminate].
  rewrite (Hk a _ _ _ H). exact (Hm _ _ _ E).
Qed.

Lemma asks_ret {A : Type} (a : A) (P : A -> list call -> Prop) :
  P a [] -> asks (@ret D A a) P.
Proof.
  intros H s x s' E. injection E as <- <-. exists [].
  rewrite app_nil_r. auto.
Qed.

Lemma asks_after {A B : Type} (m : M D A) (k : A -> M D B)
  (P : B -> list call -> Prop) :
  mute m -> (forall a, asks (k a) P) -> asks (bind m k) P.
Proof.
  intros Hm Hk s b s' H. unfold bind in H.
  destruct (m s) as [[a s1]|] eqn:E; [|discriminate].
  destruct (Hk a _ _ _ H) as (cs & Hcs & HP). exists cs.
  rewrite Hcs, (Hm _ _ _ E). auto.
Qed.

Lemma asks_before {A B : Type} (m : M D A) (k : A -> M D B)
  (Q : A -> list call -> Prop) (P : B -> list call -> Prop) :
  asks m Q -> (forall a, mute (k a)) ->
  (forall a b cs, Q a cs -> P b cs) -> asks (bind m k) P.
Proof.
  intros Hm Hk HQ s b s' H. unfold bind in H.
  destruct (m s) as [[a s1]|] eqn:E; [|discriminate].
  destruct (Hm _ _ _ E) as (cs & Hcs & Hq). exists cs.
  rewrite (Hk a _ _ _ H), Hcs. eauto.
Qed.

Lemma asks_delegate (c : call)
  (f : D -> list Z -> Z * list Z * D) (k : Z -> M D Z)
  (P : Z -> list call -> Prop) :
  (forall r, mute (k r)) -> (forall r, always_zero (k r)) -> P 0 [c] ->
  asks (bind (delegate c f) k) P.
Proof.
  intros Hk Hz HP s b s' H. unfold bind, delegate in H.
  destruct (f (dev s) (buf s)) as [[r b'] d'].
  exists [c]. rewrite (Hk r _ _ _ H), (Hz r _ _ _ H). cbn [out].
  rewrite calls_app. cbn [calls]. auto.
Qed.

Lemma asks_delegate_then {B : Type} (c : call)
  (f : D -> list Z -> Z * list Z * D) (k : Z -> M D B)
  (P : B -> list call -> Prop) :
  (forall r, asks (k r) (fun b cs => P b (c :: cs))) ->
  asks (bind (delegate c f) k) P.
Proof.
  intros Hk s b s' H. unfold bind, delegate in H.
  destruct (f (dev s) (buf s)) as [[r b'] d'].
  destruct (Hk r _ _ _ H) as (cs & Hcs & HP). exists (c :: cs).
  rewrite Hcs. cbn [out]. rewrite calls_app. cbn [calls].
  rewrite <- app_assoc. auto.
Qed.

End Asks.

Ltac mute_all :=
  repeat first
    [ apply mute_ret | apply mute_get
    | apply mute_emit;
      rewrite ?calls_app, ?calls_printTrain, ?calls_printLoad,
        ?calls_printCheckRecord, ?calls_printSigTrain,
        ?calls_printSignature, ?calls_printSeperator,
        ?calls_printCheckRecognizer, ?calls_printVR;
      reflexivity
    | apply mute_bind; [|intros ?]
    | match goal with
      | |- mute (if ?c then _ else _) => destruct c
      end ].

Lemma asked_request (j : nat) (c : call) :
  (j < 7)%nat -> requests j c -> asked j 0 [c].
Proof.
  intros Hj Hc. left. split; [reflexivity|].
  replace (j <? 7)%nat with true by (symmetry; apply Nat.ltb_lt; exact Hj).
  exists c. auto.
Qed.

Lemma asked_error (j : nat) : asked j (-1) [].
Proof. right. auto. Qed.

Lemma asked_at_most_once (j : nat) (r : Z) (cs : list call) :
  asked j r cs -> (List.length cs <= 1)%nat.
Proof.
  intros [[_ H] | [_ [-> | [_ ->]]]]; cbn [List.length]; try lia.
  destruct (j <? 7)%nat; [destruct H as (c & _ & ->) | subst cs];
    cbn [List.length]; lia.
Qed.

Section Handlers.

Variables (D : Type) (myVR : VR D) (len paraNum : Z).

Ltac request :=
  apply asks_after; [apply mute_get | intros ?];
  apply asks_delegate; [intros ?; mute_all | intros ?; zero_all |];
  apply asked_request; [lia | cbn [requests]; eauto].

Lemma cmdTrain_asks : asks (cmdTrain myVR len paraNum) (asked 0).
Proof.
  unfold cmdTrain.
  destruct (_ || _); [apply asks_ret, asked_error|].
  apply asks_after; [apply mute_quiet, quiet_recordArgs|].
  intros [|]; [apply asks_ret, asked_error | request].
Qed.

Lemma cmdLoad_asks : asks (cmdLoad myVR len paraNum) (asked 1).
Proof.
  unfold cmdLoad.
  destruct (_ || _); [apply asks_ret, asked_error|].
  apply asks_after; [apply mute_quiet, quiet_recordArgs|].
  intros [|]; [apply asks_ret, asked_error | request].
Qed.

Lemma cmdClear_asks : asks (cmdClear myVR len paraNum) (asked 2).
Proof.
  unfold cmdClear.
  destruct (_ !=? _); [apply asks_ret, asked_error|].
  apply asks_delegate; [intros ?; mute_all | intros ?; zero_all |].
  apply asked_request; [lia | reflexivity].
Qed.

Lemma cmdVR_asks : asks (cmdVR myVR len paraNum) (asked 3).
Proof.
  unfold cmdVR.
  destruct (_ !=? _); [apply asks_ret, asked_error|].
  apply asks_delegate_then. intros r. destruct (r <=? 0).
  - apply asks_ret. right. auto.
  - apply asks_after; [apply mute_get | intros ?].
    apply asks_after; [mute_all | intros ?].
    apply asks_ret. apply asked_request; [lia | reflexivity].
Qed.

Lemma cmdRecord_asks : asks (cmdRecord myVR len paraNum) (asked 4).
Proof.
  unfold cmdRecord. destruct (_ =? _).
  - apply asks_delegate; [intros ?; mute_all | intros ?; zero_all |].
    apply asked_request; [lia | left; reflexivity].
  - destruct (_ <? _); [|apply asks_ret, asked_error].
    apply asks_after; [apply mute_quiet, quiet_recordArgs|].
    intros [|]; [apply asks_ret, asked_error | request].
Qed.

Lemma cmdSigTrain_asks : asks (cmdSigTrain myVR len paraNum) (asked 5).
Proof.
  unfold cmdSigTrain.
  destruct (_ <? _); [apply asks_ret, asked_error|].
  apply asks_after; [apply mute_quiet, quiet_recordArg|].
  intros [|]; [apply asks_ret, asked_error|].
  apply asks_after; [apply mute_quiet, quiet_findParaG | intros ?].
  apply asks_after.
  { intros s x s' H. unfold findParaL in H.
    destruct (findPara (cmd s) len paraNum 0); [|discriminate].
    injection H as _ <-. reflexivity. }
  intros [sig_len lastAddr]. request.
Qed.

Lemma cmdGetSig_asks : asks (cmdGetSig myVR len paraNum) (asked 6).
Proof.
  unfold cmdGetSig.
  destruct (_ !=? _); [apply asks_ret, asked_error|].
  apply asks_after; [apply mute_quiet, quiet_recordArg|].
  intros [|]; [apply asks_ret, asked_error | request].
Qed.

Lemma cmdTest_asks (j : nat) :
  (7 <= j)%nat -> asks (@cmdTest D len paraNum) (asked j).
Proof.
  intros Hj. unfold cmdTest.
  apply asks_after; [mute_all | intros ?]. apply asks_ret. left.
  split; [reflexivity|].
  replace (j <? 7)%nat with false
    by (symmetry; apply Nat.ltb_ge; exact Hj).
  reflexivity.
Qed.

Lemma handler_asks (j : nat) :
  asks (nth j (cmdFunction myVR) cmdTest len paraNum) (asked j).
Proof.
  destruct j as [|[|[|[|[|[|[|[|j]]]]]]]]; cbn [nth cmdFunction].
  - apply cmdTrain_asks.
  - apply cmdLoad_asks.
  - apply cmdClear_asks.
  - apply cmdVR_asks.
  - apply cmdRecord_asks.
  - apply cmdSigTrain_asks.
  - apply cmdGetSig_asks.
  - apply cmdTest_asks. lia.
  - destruct j; apply cmdTest_asks; lia.
Qed.

End Handlers.

(** X14. While it runs, a handler asks the module for one thing at most, and
    that is the thing its command names: when handler [j] of the table
    returns 0 it has made exactly one request, of the kind of command [j]
    ("test" has made none); when it returns -1 it has made none, but for
    "vr", which may have made its one request; and it returns nothing but
    0 and -1. *)
Theorem handler_makes_its_one_request {D : Type} (myVR : VR D) (j : nat)
  (len paraNum : Z) (s s' : state D) (r : Z) :
  nth j (cmdFunction myVR) cmdTest len paraNum s = Some (r, s') ->
  (r = 0 \/ r = -1)
  /\ exists cs, calls (out s') = calls (out s) ++ cs /\ asked j r cs.
Proof.
  intros H.
  destruct (handler_asks D myVR len paraNum j s r s' H) as (cs & Hcs & Ha).
  split.
  - destruct Ha as [[-> _] | [-> _]]; auto.
  - exists cs. auto.
Qed.

Lemma handler_makes_its_one_request_witness :
  exists r s',
    cmdSigTrain (answering 3 [1; 5; 0]) 16 3
      (received (line "sigtrain 5 five")) = Some (r, s')
    /\ (r = 0 \/ r = -1)
    /\ exists cs,
         calls (out s') = calls (out (received (line "sigtrain 5 five")))
                          ++ cs
         /\ asked 5 r cs.
Proof.
  assert (E : exists r s',
             cmdSigTrain (answering 3 [1; 5; 0]) 16 3
               (received (line "sigtrain 5 five")) = Some (r, s'))
    by (vm_compute; eauto).
  destruct E as (r & s' & E). exists r, s'. split; [exact E|].
  exact (handler_makes_its_one_request (answering 3 [1; 5; 0]) 5 16 3
           (received (line "sigtrain 5 five")) s' r E).
Defined.

Lemma search_asks {D : Type} (myVR : VR D) (n : nat) :
  forall i len paraNum paraLen,
    asks (search myVR n i len paraNum paraLen)
         (fun _ cs => (List.length cs <= 1)%nat).
Proof.
  induction n as [|n IH]; intros i len paraNum paraLen; cbn [search].
  - apply asks_ret. cbn [List.length]. lia.
  - destruct (paraLen =? nth (Z.to_nat i) cmdLen 0); [|apply IH].
    apply asks_after; [apply mute_get | intros s0].
    destruct (compareCMD _ _ _ =? 0); [|apply IH].
    apply (asks_before D _ _ (asked (Z.to_nat i))).
    + apply handler_asks.
    + intros r. mute_all.
    + intros r _ cs. apply asked_at_most_once.
Qed.



(** ** Record numbers that are not plain decimal text *)

Lemma one_argument {D : Type} (myVR : VR D) (s : state D)
  (w b t rest : list Z) (v : Z) :
  token w -> blanks b -> token t ->
  stored t = v -> refused t = false ->
  cmd s = w ++ body [(b, t)] ++ LF :: rest ->
  List.length (records s) = 7%nat ->
  let len := len_of w + len_of (body [(b, t)]) + 1 in
  passes_list myVR len 2 s [v] /\ passes_one myVR len s v (len - 1).
Proof.
  intros Hw Hb Ht Hv Hr Hcmd Hrec len.
  assert (Hsegs : segments [(b, t)])
    by (constructor; [split; assumption | constructor]).
  assert (Hlen : len_of w + len_of (body [(b, t)]) < len)
    by (unfold len; lia).
  pose proof (list_outcome D myVR s w [(b, t)] LF rest len Hw Hsegs
                (or_intror eq_refl) Hcmd Hlen Hrec
                ltac:(cbn [List.length]; lia)) as H1.
  pose proof (one_outcome myVR s w b t rest Hw Hb Ht Hcmd Hrec) as H2.
  cbv zeta in H2. fold len in H2.
  cbn [map snd existsb List.length] in H1.
  rewrite Hr in H1, H2. cbn [orb] in H1. rewrite Hv in H1, H2.
  split; [exact H1 | exact H2].
Qed.

Lemma digit_isdigit (x : Z) : ~ digit x -> isdigit x = false.
Proof.
  unfold digit, isdigit. intros H. apply andb_false_iff.
  rewrite !Z.leb_gt. lia.
Qed.

(** X17. A record token is read up to its first byte that is no digit: decimal
    text of a number from 0 to 254 followed by any other printable bytes is
    taken as that number by all five handlers that read a record. *)
Theorem record_token_read_up_to_first_non_digit {D : Type} (myVR : VR D)
  (s : state D) (w b junk rest : list Z) (v x : Z) :
  token w -> blanks b -> 0 <= v <= 254 ->
  graphic x -> ~ digit x -> Forall graphic junk ->
  let t := decimal v ++ x :: junk in
  cmd s = w ++ body [(b, t)] ++ LF :: rest ->
  List.length (records s) = 7%nat ->
  let len := len_of w + len_of (body [(b, t)]) + 1 in
  passes_list myVR len 2 s [v] /\ passes_one myVR len s v (len - 1).
Proof.
  intros Hw Hb Hv Hx Hnd Hjunk t Hcmd Hrec.
  assert (Hd : token (decimal v)) by (apply decimal_token; lia).
  assert (Ht : token t).
  { split; [destruct Hd as [Hne _]; unfold t;
            destruct (decimal v); [congruence | discriminate]|].
    unfold t. apply Forall_app. split; [apply Hd|]. constructor; auto. }
  assert (Hs : stored t = v).
  { unfold stored, t. rewrite atoi_cut by (auto using digit_isdigit).
    rewrite atoi_decimal by lia. unfold uint8. apply Z.mod_small. lia. }
  apply (one_argument myVR s w b t rest v); auto.
  unfold refused. rewrite Hs.
  destruct (Z.eq_dec v 0) as [E|E].
  - unfold t. rewrite E. reflexivity.
  - apply Z.eqb_neq in E. rewrite E. reflexivity.
Qed.

Lemma record_token_read_up_to_first_non_digit_witness :
  let s := received (line "load 12abc") in
  passes_list (answering 0 []) 11 2 s [12]
  /\ passes_one (answering 0 []) 11 s 12 10.
Proof.
  assert (Hw : token (bytes "load"))
    by (split; [discriminate | apply graphic_bytes; reflexivity]).
  assert (Hb : blanks [SP])
    by (split; [discriminate | repeat constructor; auto]).
  assert (Hv : 0 <= 12 <= 254) by lia.
  assert (Hx : graphic 97) by (unfold graphic; lia).
  assert (Hnd : ~ digit 97) by (unfold digit; lia).
  assert (Hj : Forall graphic (bytes "bc"))
    by (apply graphic_bytes; reflexivity).
  exact (record_token_read_up_to_first_non_digit (answering 0 [])
           (received (line "load 12abc")) (bytes "load") [SP] (bytes "bc")
           (repeat 0 54%nat) 12 97 Hw Hb Hv Hx Hnd Hj eq_refl eq_refl).
Defined.

(** X18. A minus sign before the digits is read as a sign and the number is
    stored in a byte: "-v" for v from 1 to 255 is taken as record
    256 - v. *)
Theorem record_token_minus_sign_wraps {D : Type} (myVR : VR D)
  (s : state D) (w b rest : list Z) (v : Z) :
  token w -> blanks b -> 1 <= v <= 255 ->
  let t := 45 :: decimal v in
  cmd s = w ++ body [(b, t)] ++ LF :: rest ->
  List.length (records s) = 7%nat ->
  let len := len_of w + len_of (body [(b, t)]) + 1 in
  passes_list myVR len 2 s [256 - v]
  /\ passes_one myVR len s (256 - v) (len - 1).
Proof.
  intros Hw Hb Hv t Hcmd Hrec.
  assert (Hd : token (decimal v)) by (apply decimal_token; lia).
  assert (Ht : token t).
  { split; [discriminate|]. constructor; [unfold graphic; lia | apply Hd]. }
  assert (Hs : stored t = 256 - v).
  { unfold stored, t. cbn [atoi]. change (isspace 45) with false.
    change (45 =? 45) with true. cbv iota.
    pose proof (decimal_from_value (S (Z.to_nat v)) v [] ltac:(lia)
                  ltac:(lia)) as H.
    fold (decimal v) in H. cbn [atoi_digits] in H. rewrite H.
    unfold uint8.
    replace (- v) with (256 - v + (-1) * 256) by lia.
    rewrite Z.mod_add by lia. apply Z.mod_small. lia. }
  apply (one_argument myVR s w b t rest (256 - v)); auto.
  unfold refused. rewrite Hs.
  replace (256 - v =? 0) with false by (symmetry; apply Z.eqb_neq; lia).
  reflexivity.
Qed.

Lemma record_token_minus_sign_wraps_witness :
  let s := received (line "train -1") in
  passes_list (answering 0 []) 9 2 s [255]
  /\ passes_one (answering 0 []) 9 s 255 8.
Proof.
  assert (Hw : token (bytes "train"))
    by (split; [discriminate | apply graphic_bytes; reflexivity]).
  assert (Hb : blanks [SP])
    by (split; [discriminate | repeat constructor; auto]).
  assert (Hv : 1 <= 1 <= 255) by lia.
  exact (record_token_minus_sign_wraps (answering 0 [])
           (received (line "train -1")) (bytes "train") [SP]
           (repeat 0 56%nat) 1 Hw Hb Hv eq_refl eq_refl).
Defined.

(** ** sigtrain with a signature *)

Lemma span_kept (n d : Z) :
  -32768 <= n + d < 32768 -> int16 (n + uint16 d) = n + d.
Proof.
  intros H. unfold int16, uint16. Z.div_mod_to_equations. lia.
Qed.

Lemma offset_succ (b t : list Z) (segs : list (list Z * list Z)) (k : nat) :
  offset ((b, t) :: segs) (S k) = len_of b + len_of t + offset segs k.
Proof.
  unfold offset. cbn [firstn nth]. rewrite body_cons, !len_of_app. lia.
Qed.

Lemma offset_last (segs : list (list Z * list Z)) :
  segs <> [] ->
  exists b t,
    nth_error segs (List.length segs - 1) = Some (b, t)
    /\ offset segs (List.length segs - 1) + len_of t = len_of (body segs).
Proof.
  induction segs as [|[b0 t0] segs IH]; [congruence|]. intros _.
  destruct segs as [|x segs].
  - exists b0, t0. split; [reflexivity|].
    unfold offset. cbn [List.length Nat.sub firstn nth fst body flat_map snd].
    change (len_of []) with 0. rewrite app_nil_r, len_of_app. lia.
  - destruct IH as (b & t & Hn & Ho); [discriminate|].
    exists b, t.
    replace (List.length ((b0, t0) :: x :: segs) - 1)%nat
      with (S (List.length (x :: segs) - 1)) by (cbn [List.length]; lia).
    split; [exact Hn|].
    rewrite offset_succ, body_cons, !len_of_app. lia.
Qed.

(** X19. With a signature after the record number, sigtrain passes the module
    the record number and the bytes from the first byte of the third token
    to the last byte of the last token, separators between them
    included. *)
Theorem sigtrain_passes_the_span {D : Type} (myVR : VR D) (s : state D)
  (w b t b1 t1 : list Z) (sig : list (list Z * list Z)) (rest : list Z)
  (c len : Z) :
  token w -> segments ((b, t) :: (b1, t1) :: sig) -> c = CR \/ c = LF ->
  cmd s = w ++ body ((b, t) :: (b1, t1) :: sig) ++ c :: rest ->
  len_of w + len_of (body ((b, t) :: (b1, t1) :: sig)) < len ->
  len <= CMD_BUF_LEN ->
  List.length (records s) = 7%nat ->
  let paraNum := Z.of_nat (List.length sig) + 3 in
  let start := len_of w + len_of b + len_of t + len_of b1 in
  let span := t1 ++ body sig in
  firstn (List.length span) (from (cmd s) start) = span
  /\ if refused t then rejected (cmdSigTrain myVR len paraNum s) s
     else delegated (cmdSigTrain myVR len paraNum s) s
            (TrainWithSignature (stored t) start (len_of span)).
Proof.
  intros Hw Hsegs Hc Hcmd Hlen Hcap Hrec paraNum start span.
  set (segs := (b, t) :: (b1, t1) :: sig) in *.
  pose proof (token_pos w Hw) as Hw0.
  pose proof (len_of_nonneg (body sig)) as Hsig0.
  assert (Hbody : len_of (body segs)
                  = len_of b + len_of t + len_of b1 + len_of span).
  { unfold segs, span. rewrite !body_cons, !len_of_app. lia. }
  pose proof (len_of_nonneg span) as Hspan0.
  inversion Hsegs as [|? ? [Hb Ht] Hsegs1]; subst.
  inversion Hsegs1 as [|? ? [Hb1 Ht1] _]; subst.
  cbn [fst snd] in Hb, Ht, Hb1, Ht1.
  pose proof (blanks_pos b Hb). pose proof (token_pos t Ht).
  pose proof (blanks_pos b1 Hb1).
  split.
  - rewrite Hcmd. unfold segs. rewrite !body_cons.
    replace (w ++ (b ++ t ++ b1 ++ t1 ++ body sig) ++ c :: rest)
      with ((w ++ b ++ t ++ b1) ++ span ++ c :: rest)
      by (unfold span; rewrite <- !app_assoc; reflexivity).
    replace start with (len_of (w ++ b ++ t ++ b1))
      by (unfold start; rewrite !len_of_app; lia).
    rewrite from_app, firstn_app, Nat.sub_diag, firstn_all.
    cbn [firstn]. apply app_nil_r.
  - (* the three calls of findPara *)
    assert (H2 : nth_error segs 0 = Some (b, t)) by reflexivity.
    assert (H3 : nth_error segs 1 = Some (b1, t1)) by reflexivity.
    destruct (offset_last segs) as (bl & tl & Hl & Hol); [discriminate|].
    pose proof (recordArg_argument D w segs c rest len Hw Hsegs Hc Hlen s
                  0 b t H2 Hcmd ltac:(lia)) as Hrec2.
    pose proof (fun a0 => proj1 (findPara_argument w segs c rest len Hw
                  Hsegs Hc Hlen 1 b1 t1 a0 H3)) as Hf3.
    pose proof (fun a0 => proj1 (findPara_argument w segs c rest len Hw
                  Hsegs Hc Hlen _ bl tl a0 Hl)) as Hfl.
    rewrite <- Hcmd in Hf3, Hfl.
    replace (Z.of_nat (List.length segs - 1) + 2) with paraNum in Hfl
      by (unfold paraNum, segs; cbn [List.length]; lia).
    change (Z.of_nat 0 + 2) with 2 in Hrec2.
    change (Z.of_nat 0) with 0 in Hrec2.
    change (Z.of_nat 1 + 2) with 3 in Hf3.
    assert (Ho1 : len_of w + offset segs 1 = start).
    { unfold segs, start. rewrite offset_succ. unfold offset.
      cbn [firstn nth fst body flat_map]. change (len_of []) with 0. lia. }
    rewrite Ho1 in Hf3.
    assert (Hsp : int16 (len_of tl
                         + uint16 (len_of w + offset segs (List.length segs - 1)
                                   - start))
                  = len_of span).
    { rewrite span_kept; unfold CMD_BUF_LEN, start in *; lia. }
    assert (Hfirst : byteAt (store (records s) 0 (stored t)) 0 = stored t)
      by (apply (store_same _ 0); lia).
    destruct (refused t) eqn:E; unfold rejected, delegated, cmdSigTrain;
      (replace (paraNum <? 2) with false
         by (symmetry; apply Z.ltb_ge; unfold paraNum; lia));
      unfold bind at 1; rewrite Hrec2.
    + eexists. split; reflexivity.
    + unfold bind at 1. unfold findParaG. cbn [cmd paraAddr]. rewrite Hf3.
      unfold bind at 1. unfold set_paraAddr at 1.
      cbn [cmd paraAddr buf records dev out]. unfold ret at 1.
      unfold bind at 1. unfold findParaL. cbn [cmd]. rewrite Hfl.
      unfold bind at 1. unfold get at 1. cbn [paraAddr records].
      rewrite Hsp, Hfirst.
      unfold bind, get, delegate, ret, emit.
      cbn [records dev buf out cmd paraAddr].
      destruct (vr_trainWithSignature myVR (dev s) (stored t) (cmd s) start
                  (len_of span) (buf s)) as [[r b'] d'].
      destruct (0 <=? r); settle.
Qed.

Lemma sigtrain_passes_the_span_witness :
  firstn 8 (from (cmd (received (line "sigtrain 0 ZERO one"))) 11)
  = bytes "ZERO one"
  /\ delegated
       (cmdSigTrain (answering 0 []) 20 4
          (received (line "sigtrain 0 ZERO one")))
       (received (line "sigtrain 0 ZERO one")) (TrainWithSignature 0 11 8).
Proof.
  assert (H1 : token (bytes "sigtrain"))
    by (split; [discriminate | apply graphic_bytes; reflexivity]).
  assert (H2 : segments [([SP], bytes "0"); ([SP], bytes "ZERO");
                         ([SP], bytes "one")])
    by (repeat constructor; try discriminate;
        try (right; reflexivity); apply graphic_bytes; reflexivity).
  exact (sigtrain_passes_the_span (answering 0 [])
           (received (line "sigtrain 0 ZERO one")) (bytes "sigtrain")
           [SP] (bytes "0") [SP] (bytes "ZERO") [([SP], bytes "one")]
           (repeat 0 45%nat) LF 20 H1 H2 (or_intror eq_refl) eq_refl
           ltac:(cbn; lia) ltac:(unfold CMD_BUF_LEN; lia) eq_refl).
Defined.

(** ** The span that findPara returns *)

Lemma scanPara_inside (m : list Z) :
  forall k, 0 <= k < scanPara m -> inPara (nth (Z.to_nat k) m 0) = true.
Proof.
  induction m as [|c m IH]; intros k Hk; cbn [scanPara] in Hk; [lia|].
  destruct (inPara c) eqn:E; [|lia].
  destruct (Z.eq_dec k 0) as [->|Hk0]; [exact E|].
  replace (Z.to_nat k) with (S (Z.to_nat (k - 1))) by lia.
  cbn [nth]. apply IH. lia.
Qed.

Lemma findPara_loop_scans (cmd : list Z) (len p a0 : Z) (fuel : nat) :
  forall i cnt n a,
    0 <= i ->
    findPara_loop fuel cmd len p a0 i cnt = Some (n, a) ->
    (n = -1 /\ a = a0)
    \/ (n = scanPara (from cmd a) /\ i <= a < len
        /\ notBlank (byteAt cmd a) = true).
Proof.
  induction fuel as [|fuel IH]; intros i cnt n a Hi H; [discriminate|].
  cbn [findPara_loop] in H. destruct (i <? len) eqn:E.
  - apply Z.ltb_lt in E.
    pose proof (scanPara_nonneg (from cmd i)) as Hs.
    destruct (notBlank (byteAt cmd i)) eqn:Eb.
    + destruct (p =? cnt + 1).
      * injection H as <- <-. right. auto with zarith.
      * apply IH in H; [|lia]. destruct H as [H | (H1 & H2 & H3)]; auto.
        right. repeat split; auto; lia.
    + apply IH in H; [|lia]. destruct H as [H | (H1 & H2 & H3)]; auto.
      right. repeat split; auto; lia.
  - injection H as <- <-. left. auto.
Qed.

(** X20. On a line that holds its newline, [findPara] answers every index from
    1 on with a span inside the line: its bytes are none of tab, space,
    carriage return and newline, and the byte after it is one of them. The
    span is empty only on a carriage return or newline. *)
Theorem findPara_span_in_line (cmd : list Z) (len p a0 : Z) :
  terminated cmd len -> 1 <= p ->
  exists n a,
    findPara cmd len p a0 = Some (n, a)
    /\ 0 <= n /\ 0 <= a /\ a + n < len
    /\ (forall k, 0 <= k < n -> inPara (byteAt cmd (a + k)) = true)
    /\ inPara (byteAt cmd (a + n)) = false
    /\ (n = 0 -> byteAt cmd a = CR \/ byteAt cmd a = LF).
Proof.
  intros Hterm Hp.
  destruct (findPara_never_NotFound cmd len p a0 Hterm Hp)
    as (n & a & H & Hn & Ha & Han).
  exists n, a. split; [exact H|]. split; [exact Hn|]. split; [exact Ha|].
  split; [exact Han|].
  unfold findPara in H. apply findPara_loop_scans in H; [|lia].
  destruct H as [[H _] | (H1 & H2 & H3)]; [lia|]. subst n.
  split; [|split].
  - intros k Hk. rewrite byteAt_plus by lia. apply scanPara_inside. exact Hk.
  - apply (scan_lands cmd len Hterm). lia.
  - intros E0. apply notBlank_stop; [exact H3|].
    pose proof (scan_lands cmd len Hterm a ltac:(lia)) as Hl.
    rewrite E0, Z.add_0_r in Hl. exact Hl.
Qed.

Lemma findPara_span_in_line_witness :
  exists n a,
    findPara (line "load 3 4") 9 2 0 = Some (n, a)
    /\ 0 <= n /\ 0 <= a /\ a + n < 9
    /\ (forall k, 0 <= k < n ->
                  inPara (byteAt (line "load 3 4") (a + k)) = true)
    /\ inPara (byteAt (line "load 3 4") (a + n)) = false
    /\ (n = 0 -> byteAt (line "load 3 4") a = CR
                 \/ byteAt (line "load 3 4") a = LF).
Proof.
  apply (findPara_span_in_line (line "load 3 4") 9 2 0).
  - split; [lia | reflexivity].
  - lia.
Defined.

(** ** printSignature *)

(** X21. A signature whose bytes are all in 0x1A..0x7E is written byte for
    byte. *)
Theorem printSignature_writes_visible_bytes (sig rest : list Z) :
  Forall (fun b => 26 <= b <= 126) sig ->
  printSignature (sig ++ rest) (len_of sig)
  = map (fun b => Bytes [b]) sig.
Proof.
  intros H. unfold printSignature, len_of. rewrite Nat2Z.id.
  assert (G : forall pre,
    printSignature_from (pre ++ sig ++ rest) (len_of pre) (List.length sig)
    = map (fun b => Bytes [b]) sig).
  { induction H as [|x sig Hx Hs IH]; intros pre; [reflexivity|].
    cbn [List.length printSignature_from map].
    assert (E : byteAt (pre ++ (x :: sig) ++ rest) (len_of pre) = x).
    { rewrite byteAt_from, from_app. reflexivity. }
    rewrite E.
    replace ((25 <? x) && (x <? 127)) with true
      by (symmetry; apply andb_true_iff; split; apply Z.ltb_lt; lia).
    cbn [app]. f_equal.
    specialize (IH (pre ++ [x])).
    rewrite len_of_app in IH. change (len_of [x]) with 1 in IH.
    rewrite <- app_assoc in IH. exact IH. }
  exact (G []).
Qed.

Lemma printSignature_writes_visible_bytes_witness :
  printSignature (bytes "ZERO" ++ [0; 0]) 4
  = [Bytes [90]; Bytes [69]; Bytes [82]; Bytes [79]].
Proof.
  apply (printSignature_writes_visible_bytes (bytes "ZERO") [0; 0]).
  change (bytes "ZERO") with [90; 69; 82; 79].
  apply Forall_forall. intros y [<- | [<- | [<- | [<- | []]]]]; lia.
Defined.

(** ** printTrain and printLoad *)

Lemma printTrain_from_reads (b1 b2 : list Z) (len : Z) (fuel : nat) :
  (forall k, 0 <= k < len -> byteAt b1 k = byteAt b2 k) ->
  forall j, 0 <= j -> (exists m, len = 2 * m + 1) ->
    printTrain_from fuel b1 len (2 * j) = printTrain_from fuel b2 len (2 * j)
    /\ printLoad_from fuel b1 len (2 * j) = printLoad_from fuel b2 len (2 * j).
Proof.
  intros Hsame. induction fuel as [|fuel IH]; intros j Hj Hodd;
    [split; reflexivity|].
  cbn [printTrain_from printLoad_from].
  destruct (2 * j <? len - 1) eqn:E; [|split; reflexivity].
  apply Z.ltb_lt in E. destruct Hodd as [m Hm].
  rewrite !(Hsame (2 * j + 1)), !(Hsame (2 * j + 2)) by lia.
  replace (2 * j + 2) with (2 * (j + 1)) by lia.
  destruct (IH (j + 1)) as [H1 H2]; [lia | exists m; exact Hm |].
  rewrite H1, H2. split; reflexivity.
Qed.

(** X22. For a reply of odd length (a count and whole pairs), what [printTrain]
    and [printLoad] print depends on the bytes of the reply only: two
    buffers that agree on the first [len] bytes are printed alike. *)
Theorem printTrain_reads_the_reply (b1 b2 : list Z) (len m : Z) :
  0 <= m -> len = 2 * m + 1 ->
  (forall k, 0 <= k < len -> byteAt b1 k = byteAt b2 k) ->
  printTrain b1 len = printTrain b2 len
  /\ printLoad b1 len = printLoad b2 len.
Proof.
  intros Hm Hodd Hsame. unfold printTrain, printLoad.
  destruct (len =? 0) eqn:E; [split; reflexivity|].
  - rewrite (Hsame 0) by lia.
    destruct (printTrain_from_reads b1 b2 len (Z.to_nat len) Hsame 0
                ltac:(lia) (ex_intro _ m Hodd)) as [H1 H2].
    change (2 * 0) with 0 in H1, H2. rewrite H1, H2. split; reflexivity.
Qed.

Lemma printTrain_reads_the_reply_witness :
  printTrain [1; 5; 0; 77; 78] 3 = printTrain [1; 5; 0] 3
  /\ printLoad [1; 5; 0; 77; 78] 3 = printLoad [1; 5; 0] 3.
Proof.
  apply (printTrain_reads_the_reply [1; 5; 0; 77; 78] [1; 5; 0] 3 1).
  - lia.
  - reflexivity.
  - intros k Hk.
    assert (E : k = 0 \/ k = 1 \/ k = 2) by lia.
    destruct E as [-> | [-> | ->]]; reflexivity.
Defined.

(** ** printSigTrain *)

Lemma len_of_from (m : list Z) (i : Z) :
  0 <= i <= len_of m -> len_of (from m i) = len_of m - i.
Proof.
  intros H. unfold len_of, from in *. rewrite length_skipn. lia.
Qed.

(** X23. On the 200 bytes of [buf], a reply of 3 to 200 bytes has its
    signature, the bytes from [buf[3]] to [buf[len-1]], written after
    "SIG: " and nothing more. A reply of 1 or 2 bytes makes [len-3]
    negative, which [Serial.write] takes as 65534 or 65535: all of [buf]
    from [buf[3]] on is written, and then 65336 + [len] bytes of what
    lies after [buf]. *)
Theorem printSigTrain_signature_bytes (buf : list Z) (len : Z) :
  len_of buf = 200 -> 1 <= len <= 200 ->
  exists head,
    printSigTrain buf len
    = head ++ Text "SIG: "
      :: (if 3 <=? len
          then [Bytes (firstn (Z.to_nat (len - 3)) (from buf 3)); EOL]
          else [Bytes (from buf 3); Beyond (65336 + len); EOL]).
Proof.
  intros Hbuf Hlen. unfold printSigTrain.
  replace (len =? 0) with false by (symmetry; apply Z.eqb_neq; lia).
  assert (Hfrom : len_of (from buf 3) = 197)
    by (rewrite len_of_from; lia).
  assert (HW : print "SIG: " ++ serialWrite (from buf 3) (uint16 (len - 3))
                 ++ [EOL]
               = Text "SIG: "
                 :: (if 3 <=? len
                     then [Bytes (firstn (Z.to_nat (len - 3)) (from buf 3));
                           EOL]
                     else [Bytes (from buf 3); Beyond (65336 + len); EOL])).
  { unfold serialWrite, print. rewrite Hfrom. cbn [app]. f_equal.
    destruct (3 <=? len) eqn:E.
    - apply Z.leb_le in E.
      replace (uint16 (len - 3)) with (len - 3)
        by (unfold uint16; rewrite Z.mod_small; lia).
      replace (197 <? len - 3) with false
        by (symmetry; apply Z.ltb_ge; lia).
      reflexivity.
    - apply Z.leb_gt in E.
      replace (uint16 (len - 3)) with (65533 + len).
      2:{ unfold uint16.
          replace (len - 3) with (65533 + len + (-1) * 65536) by lia.
          rewrite Z.mod_add by lia. rewrite Z.mod_small; lia. }
      replace (197 <? 65533 + len) with true
        by (symmetry; apply Z.ltb_lt; lia).
      rewrite firstn_all2 by (unfold len_of in Hfrom; lia).
      cbn [app]. do 2 f_equal. f_equal. lia. }
  rewrite HW.
  match goal with
  | |- exists head, ?a ++ ?b ++ ?c ++ ?d ++ ?e ++ ?f ++ ?w = _ =>
      exists (a ++ b ++ c ++ d ++ e ++ f)
  end.
  rewrite <- !app_assoc. reflexivity.
Qed.

Lemma printSigTrain_signature_bytes_witness :
  exists head,
    printSigTrain (1 :: 5 :: repeat 0 198%nat) 2
    = head ++ Text "SIG: "
      :: (if 3 <=? 2
          then [Bytes (firstn (Z.to_nat (2 - 3))
                         (from (1 :: 5 :: repeat 0 198%nat) 3)); EOL]
          else [Bytes (from (1 :: 5 :: repeat 0 198%nat) 3);
                Beyond (65336 + 2); EOL]).
Proof.
  apply (printSigTrain_signature_bytes (1 :: 5 :: repeat 0 198%nat) 2).
  - reflexivity.
  - lia.
Defined.

Lemma findPara_beyond_count_witness :
  exists a, findPara (line "clear") 6 2 0 = Some (0, a)
            /\ (byteAt (line "clear") a = CR \/ byteAt (line "clear") a = LF).
Proof.
  apply (findPara_beyond_count (line "clear") 6 2 0 1).
  - split; [lia | reflexivity].
  - reflexivity.
  - lia.
Defined.
